(** * Full Tilt Poker hand-history parser (handparser/ftp.py)

    A shallow embedding of [FullTiltHand] and of the Python library
    functions it calls (regular expressions, list indexing, [int],
    [Decimal], [datetime.strptime]), followed by the properties of the
    parser that the specification states.

    The source is Python 2 code ([self.players.keys().index(...)] needs a
    list of keys), so strings are byte strings and [\d] means [0-9]. *)

From Stdlib Require Import ZArith Lia Ascii String.
From stdpp Require Import base option list strings gmap.

Open Scope string_scope.

(** ** Exceptions and results *)

(** The Python exceptions the parser can raise.  [Unmodelled] marks the
    part of a library function that the embedding does not cover (a
    [strptime] directive the room's date format does not use). *)
Inductive exn : Type :=
| AttributeError
| ValueError
| IndexError
| KeyError
| UnboundLocalError
| InvalidOperation
| OverflowError
| Unmodelled.

Global Instance exn_eq_dec : EqDecision exn.
Proof. solve_decision. Defined.

(** Result of a pure library call. *)
Inductive res (A : Type) : Type :=
| Ret (a : A)
| Raise (e : exn).
Arguments Ret {A} a.
Arguments Raise {A} e.

Definition res_bind {A B} (r : res A) (k : A -> res B) : res B :=
  match r with
  | Ret a => k a
  | Raise e => Raise e
  end.

Definition of_option {A} (e : exn) (o : option A) : res A :=
  match o with
  | Some a => Ret a
  | None => Raise e
  end.

(** ** Characters and strings *)

Definition is_digit (a : ascii) : bool :=
  (48 <=? nat_of_ascii a)%nat && (nat_of_ascii a <=? 57)%nat.

(** ASCII whitespace, as [str.strip], [str.split] and [\s] see it. *)
Definition is_space (a : ascii) : bool :=
  let n := nat_of_ascii a in
  (n =? 32)%nat || ((9 <=? n)%nat && (n <=? 13)%nat).

Definition is_lower (a : ascii) : bool :=
  (97 <=? nat_of_ascii a)%nat && (nat_of_ascii a <=? 122)%nat.

Definition is_upper (a : ascii) : bool :=
  (65 <=? nat_of_ascii a)%nat && (nat_of_ascii a <=? 90)%nat.

Definition to_upper (a : ascii) : ascii :=
  if is_lower a then ascii_of_nat (nat_of_ascii a - 32) else a.

Definition to_lower (a : ascii) : ascii :=
  if is_upper a then ascii_of_nat (nat_of_ascii a + 32) else a.

Definition newline : ascii := ascii_of_nat 10.

Fixpoint str_map (f : ascii -> ascii) (s : string) : string :=
  match s with
  | EmptyString => EmptyString
  | String a s' => String (f a) (str_map f s')
  end.

(** [str.upper()] and [str.lower()] *)
Definition upper (s : string) : string := str_map to_upper s.
Definition lower (s : string) : string := str_map to_lower s.

(** [s.replace(c, '')] for a one-character [c] *)
Fixpoint remove_char (c : ascii) (s : string) : string :=
  match s with
  | EmptyString => EmptyString
  | String a s' =>
      if Ascii.eqb a c then remove_char c s' else String a (remove_char c s')
  end.

Fixpoint lstrip (s : string) : string :=
  match s with
  | String a s' => if is_space a then lstrip s' else s
  | EmptyString => EmptyString
  end.

Fixpoint str_rev_onto (s acc : string) : string :=
  match s with
  | EmptyString => acc
  | String a s' => str_rev_onto s' (String a acc)
  end.

Definition str_rev (s : string) : string := str_rev_onto s EmptyString.

(** [str.strip()] *)
Definition strip (s : string) : string :=
  str_rev (lstrip (str_rev (lstrip s))).

(** [str.split()] with no argument: the maximal runs of non-space
    characters.  [cur] holds the current run, reversed. *)
Fixpoint split_ws_aux (s cur : string) : list string :=
  match s with
  | EmptyString =>
      match cur with
      | EmptyString => []
      | _ => [str_rev cur]
      end
  | String a s' =>
      if is_space a then
        match cur with
        | EmptyString => split_ws_aux s' EmptyString
        | _ => str_rev cur :: split_ws_aux s' EmptyString
        end
      else split_ws_aux s' (String a cur)
  end.

Definition split_ws (s : string) : list string := split_ws_aux s EmptyString.

(** Longest prefix of digits, and what follows it. *)
Fixpoint span_digits (s : string) : string * string :=
  match s with
  | String a s' =>
      if is_digit a then
        let '(d, r) := span_digits s' in (String a d, r)
      else (EmptyString, s)
  | EmptyString => (EmptyString, EmptyString)
  end.

Definition digit_val (a : ascii) : Z := Z.of_nat (nat_of_ascii a - 48).

(** Value of a string of decimal digits, most significant first. *)
Fixpoint digits_val_from (acc : Z) (s : string) : Z :=
  match s with
  | EmptyString => acc
  | String a s' => digits_val_from (10 * acc + digit_val a)%Z s'
  end.

Definition digits_val (s : string) : Z := digits_val_from 0%Z s.

Fixpoint all_digits (s : string) : bool :=
  match s with
  | EmptyString => true
  | String a s' => is_digit a && all_digits s'
  end.

(** [int(s)] on a string: surrounding whitespace, an optional sign and at
    least one decimal digit; anything else is a [ValueError]. *)
Definition int_unsigned (s : string) : res Z :=
  match s with
  | EmptyString => Raise ValueError
  | _ => if all_digits s then Ret (digits_val s) else Raise ValueError
  end.

Definition int (s : string) : res Z :=
  match strip s with
  | String "+" s' => int_unsigned s'
  | String "-" s' => res_bind (int_unsigned s') (fun z => Ret (- z)%Z)
  | s' => int_unsigned s'
  end.

(** ** Python sequences *)

Section Sequences.
Context {A : Type}.

(** [l[i]]: a negative index counts from the end. *)
Definition getitem (l : list A) (i : Z) : res A :=
  let n := Z.of_nat (length l) in
  let j := if (i <? 0)%Z then (i + n)%Z else i in
  if (j <? 0)%Z then Raise IndexError
  else of_option IndexError (l !! Z.to_nat j).

(** [l[i] = x] *)
Definition setitem (l : list A) (i : Z) (x : A) : res (list A) :=
  let n := Z.of_nat (length l) in
  let j := if (i <? 0)%Z then (i + n)%Z else i in
  if ((j <? 0) || (n <=? j))%Z then Raise IndexError
  else Ret (<[Z.to_nat j := x]> l).

(** A slice bound, clipped to [0 .. len] as Python does. *)
Definition clip (n i : Z) : Z :=
  let j := if (i <? 0)%Z then (i + n)%Z else i in
  Z.max 0 (Z.min n j).

(** [l[a:b]] *)
Definition slice (l : list A) (a b : Z) : list A :=
  let n := Z.of_nat (length l) in
  let a' := clip n a in
  let b' := clip n b in
  take (Z.to_nat (b' - a')) (drop (Z.to_nat a') l).

(** [l[a:]] *)
Definition slice_from (l : list A) (a : Z) : list A :=
  let n := Z.of_nat (length l) in
  drop (Z.to_nat (clip n a)) l.

Context `{EqDecision A}.

(** Position of the first [x] in [l], counted from [i]. *)
Fixpoint find_from (x : A) (l : list A) (i : Z) : option Z :=
  match l with
  | [] => None
  | y :: l' => if decide (y = x) then Some i else find_from x l' (i + 1)%Z
  end.

(** [l.index(x)] *)
Definition index (l : list A) (x : A) : res Z :=
  of_option ValueError (find_from x l 0%Z).

(** [l.index(x, start)] *)
Definition index_from (l : list A) (x : A) (start : Z) : res Z :=
  let s := clip (Z.of_nat (length l)) start in
  of_option ValueError (find_from x (drop (Z.to_nat s) l) s).
End Sequences.

(** [enumerate]-and-filter of [__init__]:
    [[ind for ind, elem in enumerate(l) if not elem]] *)
Fixpoint empty_positions (l : list string) (i : Z) : list Z :=
  match l with
  | [] => []
  | s :: l' =>
      match s with
      | EmptyString => i :: empty_positions l' (i + 1)%Z
      | _ => empty_positions l' (i + 1)%Z
      end
  end.

(** ** Regular expressions ([re])

    The fragment of Python's [re] that the parser's patterns and
    [strptime] use, with Python's backtracking order: alternatives left to
    right, [*] greedy, [*?] lazy.  [ic] is [re.IGNORECASE]. *)

Inductive cls : Type :=
| CAny                          (* [.]: any character but a newline *)
| CDigit                        (* [\d] *)
| CSpace                        (* [\s] *)
| CChar (a : ascii)             (* a literal character *)
| CRange (lo hi : ascii)        (* [lo-hi] inside brackets *)
| COr (c1 c2 : cls).            (* union of two bracket items *)

Definition in_range (lo hi a : ascii) : bool :=
  (nat_of_ascii lo <=? nat_of_ascii a)%nat && (nat_of_ascii a <=? nat_of_ascii hi)%nat.

(** A literal character [b] of the pattern against the character [a]. *)
Definition chr_eq (ic : bool) (b a : ascii) : bool :=
  if ic then Ascii.eqb (to_lower a) (to_lower b) else Ascii.eqb a b.

Fixpoint cls_match (ic : bool) (c : cls) (a : ascii) : bool :=
  match c with
  | CAny => negb (Ascii.eqb a newline)
  | CDigit => is_digit a
  | CSpace => is_space a
  | CChar b => chr_eq ic b a
  | CRange lo hi =>
      if ic then in_range lo hi (to_lower a) || in_range lo hi (to_upper a)
      else in_range lo hi a
  | COr c1 c2 => cls_match ic c1 a || cls_match ic c2 a
  end.

Inductive regex : Type :=
| Eps
| Chr (c : cls)
| Lit (w : string)
| Cat (r1 r2 : regex)
| Alt (r1 r2 : regex)
| Star (c : cls)                (* [c*] *)
| StarLazy (c : cls)            (* [c*?] *)
| Group (n : nat) (r : regex)   (* capturing group number [n] *)
| Bol                           (* [^] *)
| Eol.                          (* [$] *)

(** [r?] *)
Definition Opt (r : regex) : regex := Alt r Eps.

(** [c+] *)
Definition Plus (c : cls) : regex := Cat (Chr c) (Star c).

(** Concatenation of a sequence of pattern items. *)
Fixpoint cats (rs : list regex) : regex :=
  match rs with
  | [] => Eps
  | [r] => r
  | r :: rs' => Cat r (cats rs')
  end.

(** Alternation of a non-empty sequence of patterns; the empty one
    matches the empty string only, like an empty pattern. *)
Fixpoint alts (rs : list regex) : regex :=
  match rs with
  | [] => Eps
  | [r] => r
  | r :: rs' => Alt r (alts rs')
  end.

(** The text of each group that took part in the match. *)
Abbreviation caps := (gmap nat string).

(** The literal [w] at the head of [s]; the rest of [s] on success. *)
Fixpoint lit_match (ic : bool) (w s : string) : option string :=
  match w with
  | EmptyString => Some s
  | String b w' =>
      match s with
      | String a s' =>
          if chr_eq ic b a then lit_match ic w' s' else None
      | EmptyString => None
      end
  end.

Section Matcher.
Context {R : Type}.
Variable ic : bool.

(** [c*]: the longest run first, then shorter ones. *)
Fixpoint star_greedy (c : cls) (p : nat) (s : string)
    (k : nat -> string -> option R) : option R :=
  match s with
  | String a s' =>
      if cls_match ic c a then
        match star_greedy c (S p) s' k with
        | Some x => Some x
        | None => k p s
        end
      else k p s
  | EmptyString => k p s
  end.

(** [c*?]: the empty run first, then longer ones. *)
Fixpoint star_lazy (c : cls) (p : nat) (s : string)
    (k : nat -> string -> option R) : option R :=
  match k p s with
  | Some x => Some x
  | None =>
      match s with
      | String a s' =>
          if cls_match ic c a then star_lazy c (S p) s' k else None
      | EmptyString => None
      end
  end.

(** Match [r] at position [p], where [s] is the text from [p] on and
    [g] the groups set so far; [k] is the rest of the pattern. *)
Fixpoint rmatch (r : regex) (p : nat) (s : string) (g : caps)
    (k : nat -> string -> caps -> option R) : option R :=
  match r with
  | Eps => k p s g
  | Chr c =>
      match s with
      | String a s' => if cls_match ic c a then k (S p) s' g else None
      | EmptyString => None
      end
  | Lit w =>
      match lit_match ic w s with
      | Some s' => k (p + String.length w) s' g
      | None => None
      end
  | Cat r1 r2 => rmatch r1 p s g (fun p1 s1 g1 => rmatch r2 p1 s1 g1 k)
  | Alt r1 r2 =>
      match rmatch r1 p s g k with
      | Some x => Some x
      | None => rmatch r2 p s g k
      end
  | Star c => star_greedy c p s (fun p' s' => k p' s' g)
  | StarLazy c => star_lazy c p s (fun p' s' => k p' s' g)
  | Group n r1 =>
      rmatch r1 p s g
        (fun p' s' g' => k p' s' (<[n := substring 0 (p' - p) s]> g'))
  | Bol => if (p =? 0)%nat then k p s g else None
  | Eol =>
      match s with
      | EmptyString => k p s g
      | String a EmptyString => if Ascii.eqb a newline then k p s g else None
      | _ => None
      end
  end.
End Matcher.

(** A match object: the groups and the end position. *)
Record Match : Type := mkMatch { groups : caps; m_end : nat }.

(** [m.group(n)]; a group that did not take part gives [None]. *)
Definition group (m : Match) (n : nat) : option string := groups m !! n.

(** [pattern.match(s)]: the pattern at the beginning of [s]. *)
Definition re_match (ic : bool) (r : regex) (s : string) : option Match :=
  rmatch ic r 0 s ∅ (fun p _ g => Some (mkMatch g p)).

(** Length of the match of [r] at position [p], for [search]. *)
Definition match_len (ic : bool) (r : regex) (p : nat) (s : string) : option nat :=
  rmatch ic r p s ∅ (fun p' _ _ => Some (p' - p)).

(** [pattern.split(s)] for a pattern without groups.  [skip] counts the
    characters of the current separator still to be passed over; [cur] is
    the current fragment, reversed.  As in Python 2, an empty match does
    not split. *)
Fixpoint re_split_aux (r : regex) (s : string) (p skip : nat) (cur : string)
    : list string :=
  match s with
  | EmptyString => [str_rev cur]
  | String a s' =>
      match skip with
      | S n => re_split_aux r s' (S p) n cur
      | O =>
          match match_len false r p s with
          | Some (S n) => str_rev cur :: re_split_aux r s' (S p) n EmptyString
          | _ => re_split_aux r s' (S p) 0 (String a cur)
          end
      end
  end.

Definition re_split (r : regex) (s : string) : list string :=
  re_split_aux r s 0 0 EmptyString.

(** ** The room's patterns (class attributes of [FullTiltHand]) *)

Definition poker_room : string := "FTP".
Definition date_format : string := "%H:%M:%S ET - %Y/%m/%d".

Definition sp : cls := CChar " ".
Definition stars : regex := Lit "***".

(** Line 35: an optional space, three stars, an optional space and an
    optional newline; or a newline alone. *)
Definition _split_pattern : regex :=
  Alt (cats [Opt (Chr sp); stars; Opt (Chr sp); Opt (Chr (CChar newline))])
      (Chr (CChar newline)).

(** Group numbers of the named groups of [_header_pattern], in the order
    they open ([pattern.groupindex]). *)
Definition g_ident : nat := 1.
Definition g_tournament_name : nat := 2.
Definition g_tournament_ident : nat := 3.
Definition g_table_name : nat := 4.
Definition g_limit : nat := 5.
Definition g_game : nat := 6.
Definition g_sb : nat := 7.
Definition g_bb : nat := 8.
Definition g_date : nat := 9.

(** The verbose pattern, one item per line of the source. *)
Definition _header_pattern : regex :=
  cats [ Bol; Lit "Full Tilt Poker ";                              (* Poker Room *)
        Lit "Game #"; Group g_ident (Star CDigit); Lit ": ";      (* Hand number *)
        Group g_tournament_name (Star CAny); Lit " ";             (* Tournament name *)
        Lit "("; Group g_tournament_ident (Star CDigit); Lit "), "; (* Tournament Number *)
        Lit "Table "; Group g_table_name (Star CDigit); Lit " - ";  (* Table name *)
        Group g_limit (Lit "NL"); Lit " ";                        (* limit *)
        Group g_game (Star CAny); Lit " - ";                      (* game *)
        Group g_sb (Star CAny); Lit "/";
        Group g_bb (StarLazy CAny); Lit " - ";                    (* blinds *)
        Star CAny; Lit " ";                                       (* localized date *)
        Lit "["; Group g_date (Star CAny); Lit "]"; Eol ].        (* ET date *)

(** Line 48: the word Seat, one digit, a colon, the name (greedy), and the
    stack, digits and commas, in parentheses, up to the end of the line. *)
Definition _seat_pattern : regex :=
  cats [ Bol; Lit "Seat "; Group 1 (Chr CDigit); Lit ": ";
        Group 2 (Star CAny); Lit " (";
        Group 3 (Star (COr CDigit (CChar ","))); Lit ")"; Eol ].

(** Line 49: the button sentence and one digit, up to the end. *)
Definition _button_pattern : regex :=
  cats [ Bol; Lit "The button is in seat #"; Group 1 (Chr CDigit); Eol ].

(** Line 50: the name (greedy) and two cards of two characters each in
    square brackets, up to the end. *)
Definition _hole_cards_pattern : regex :=
  cats [ Bol; Lit "Dealt to "; Group 1 (Star CAny); Lit " [";
        Group 2 (Cat (Chr CAny) (Chr CAny)); Lit " ";
        Group 3 (Cat (Chr CAny) (Chr CAny)); Lit "]"; Eol ].

(** Line 51: the cards in square brackets (greedy), then the pot, a
    possibly empty run of digits, and the one-digit number of players.
    The pattern is not anchored at the end. *)
Definition _street_pattern : regex :=
  cats [ Lit "["; Group 1 (Star CAny); Lit "] (Total Pot: ";
        Group 2 (Star CDigit); Lit ", "; Group 3 (Chr CDigit); Lit " Players" ].

(** ** [decimal.Decimal] *)

(** A decimal is kept as Python keeps it: sign, coefficient and exponent,
    so that its value is exactly [(-1)^sign * coeff * 10^exp]; there is no
    binary fraction anywhere. *)
Inductive Decimal : Type :=
| DFinite (sign : bool) (coeff : Z) (exp : Z)
| DInfinity (sign : bool)
| DNaN (sign : bool) (signaling : bool) (diag : Z).

Global Instance Decimal_eq_dec : EqDecision Decimal.
Proof. solve_decision. Defined.

Definition take_sign (s : string) : bool * string :=
  match s with
  | String "-" s' => (true, s')
  | String "+" s' => (false, s')
  | _ => (false, s)
  end.

(** The exponent part: nothing, or [E], an optional sign and digits. *)
Definition dec_exponent (s : string) : option Z :=
  match s with
  | EmptyString => Some 0%Z
  | String a s' =>
      if Ascii.eqb (to_lower a) "e" then
        let '(neg, ds) := take_sign s' in
        match ds with
        | EmptyString => None
        | _ =>
            if all_digits ds then
              Some (if neg then (- digits_val ds)%Z else digits_val ds)
            else None
        end
      else None
  end.

(** A number with at least one digit: integer part, optional fraction,
    optional exponent. *)
Definition dec_number (sign : bool) (body : string) : option Decimal :=
  let '(ip, r1) := span_digits body in
  let '(fp, r2) :=
    match r1 with
    | String "." r => let '(f, r') := span_digits r in (f, r')
    | _ => (EmptyString, r1)
    end in
  match (ip ++ fp)%string with
  | EmptyString => None
  | digits =>
      match dec_exponent r2 with
      | Some e => Some (DFinite sign (digits_val digits) (e - Z.of_nat (String.length fp)))
      | None => None
      end
  end.

Definition dec_special (sign : bool) (body : string) : option Decimal :=
  let b := lower body in
  if decide (b = "inf" \/ b = "infinity") then Some (DInfinity sign)
  else
    match b with
    | String "n" (String "a" (String "n" d)) =>
        if all_digits d then Some (DNaN sign false (digits_val d)) else None
    | String "s" (String "n" (String "a" (String "n" d))) =>
        if all_digits d then Some (DNaN sign true (digits_val d)) else None
    | _ => None
    end.

(** [Decimal(s)] for a string [s]. *)
Definition Decimal_of_str (s : string) : res Decimal :=
  let '(sign, body) := take_sign (strip s) in
  match dec_number sign body with
  | Some d => Ret d
  | None => of_option InvalidOperation (dec_special sign body)
  end.

(** ** [datetime] *)

Open Scope Z_scope.

(** A naive date and time (no microseconds: the format has none). *)
Record datetime : Type := mkdatetime {
  year : Z; month : Z; day : Z; hour : Z; minute : Z; second : Z
}.

Global Instance datetime_eq_dec : EqDecision datetime.
Proof. solve_decision. Defined.

Definition is_leap (y : Z) : bool :=
  (y mod 4 =? 0) && (negb (y mod 100 =? 0) || (y mod 400 =? 0)).

(** Both take the leap-year flag of the year in question. *)
Definition days_in_month (leap : bool) (m : Z) : Z :=
  if m =? 2 then (if leap then 29 else 28)
  else if (m =? 4) || (m =? 6) || (m =? 9) || (m =? 11) then 30
  else 31.

(** Days of the year before the first of month [m]. *)
Definition days_before_month (leap : bool) (m : Z) : Z :=
  let common := nth (Z.to_nat m) [0; 0; 31; 59; 90; 120; 151; 181; 212; 243; 273; 304; 334] 0 in
  common + (if (2 <? m) && leap then 1 else 0).

Definition days_before_year (y : Z) : Z :=
  let y' := y - 1 in
  y' * 365 + y' / 4 - y' / 100 + y' / 400.

(** [date.toordinal]: 1 is January 1st of year 1. *)
Definition ymd2ord (y m d : Z) : Z :=
  days_before_year y + days_before_month (is_leap y) m + d.

(** The inverse, as [datetime] computes it from the 400-, 100- and
    4-year cycles. *)
Definition ord2ymd (ord : Z) : Z * Z * Z :=
  let n := ord - 1 in
  let n400 := n / 146097 in
  let n := n mod 146097 in
  let n100 := n / 36524 in
  let n := n mod 36524 in
  let n4 := n / 1461 in
  let n := n mod 1461 in
  let n1 := n / 365 in
  let n := n mod 365 in
  let y := n400 * 400 + 1 + n100 * 100 + n4 * 4 + n1 in
  if (n1 =? 4) || (n100 =? 4) then (y - 1, 12, 31)
  else
    let leapyear := (n1 =? 3) && (negb (n4 =? 24) || (n100 =? 3)) in
    let m := Z.shiftr (n + 50) 5 in
    let preceding := days_before_month leapyear m in
    if n <? preceding then
      let m' := m - 1 in
      let preceding' := preceding - days_in_month leapyear m' in
      (y, m', n - preceding' + 1)
    else (y, m, n - preceding + 1).

Definition MINYEAR : Z := 1.
Definition MAXYEAR : Z := 9999.

(** The checks of the [datetime] constructor. *)
Definition valid_datetime (d : datetime) : bool :=
  (MINYEAR <=? year d) && (year d <=? MAXYEAR) &&
  (1 <=? month d) && (month d <=? 12) &&
  (1 <=? day d) && (day d <=? days_in_month (is_leap (year d)) (month d)) &&
  (0 <=? hour d) && (hour d <=? 23) &&
  (0 <=? minute d) && (minute d <=? 59) &&
  (0 <=? second d) && (second d <=? 59).

(** Seconds from 0001-01-01 00:00:00 of the same clock. *)
Definition to_seconds (d : datetime) : Z :=
  (ymd2ord (year d) (month d) (day d) - 1) * 86400
  + hour d * 3600 + minute d * 60 + second d.

(** [d + timedelta(seconds=delta)] *)
Definition add_seconds (d : datetime) (delta : Z) : res datetime :=
  let t := hour d * 3600 + minute d * 60 + second d + delta in
  let ord := ymd2ord (year d) (month d) (day d) + t / 86400 in
  let t' := t mod 86400 in
  if (ord <? 1) || (ymd2ord MAXYEAR 12 31 <? ord) then Raise OverflowError
  else
    let '(y, m, dd) := ord2ymd ord in
    Ret (mkdatetime y m dd (t' / 3600) (t' / 60 mod 60) (t' mod 60)).

(** A time zone: the offset from UTC, in seconds, that the zone attaches
    to a wall-clock time ([localize], which settles ambiguous and skipped
    times itself) and the offset it has at a UTC time ([fromutc]). *)
Record tzinfo : Type := mktz {
  localize_offset : datetime -> Z;
  fromutc_offset : datetime -> Z
}.

(** An aware datetime: the wall-clock fields and their offset from UTC. *)
Record aware : Type := mkaware { wall : datetime; utcoffset : Z }.

Global Instance aware_eq_dec : EqDecision aware.
Proof. solve_decision. Defined.

(** [tz.localize(d)] of a pytz zone with transitions, as the Eastern
    zone is: the zone's rule is looked up at [d - timedelta(days=1)] and
    at [d + timedelta(days=1)], so both of these have to be dates of the
    calendar, and [OverflowError] is raised on its first and last day.
    The offset attached is the one the zone chooses. *)
Definition localize (tz : tzinfo) (d : datetime) : res aware :=
  res_bind (add_seconds d (-86400)) (fun _ =>
  res_bind (add_seconds d 86400) (fun _ =>
  Ret (mkaware d (localize_offset tz d)))).

(** [a.astimezone(tz)]: to UTC by subtracting the offset, then to the
    zone's clock. *)
Definition astimezone (tz : tzinfo) (a : aware) : res aware :=
  res_bind (add_seconds (wall a) (- utcoffset a)) (fun utc =>
  let off := fromutc_offset tz utc in
  res_bind (add_seconds utc off) (fun w => Ret (mkaware w off))).

(** The instant an aware datetime denotes: seconds since
    0001-01-01 00:00:00 UTC. *)
Definition instant (a : aware) : Z := to_seconds (wall a) - utcoffset a.

(** Modelled from the spec: [UTC] of handparser/common.py, which is not
    among the sources; the zone the header's time is converted to, with
    offset zero throughout. *)
Definition UTC : tzinfo := mktz (fun _ => 0) (fun _ => 0).

(** ** [datetime.strptime]

    [_strptime] turns the format into a regular expression, one named
    group per directive, matches it case-insensitively against the whole
    string and converts the groups.  The directives of the room's format
    and the host-dependent zone-name directive are covered; a group is
    numbered by the character code of its directive. *)

(** What [_strptime.LocaleTime] takes from the host: the zone names of
    [time.tzname], in lower case, next to utc and gmt. *)
Record LocaleTime : Type := mkLocaleTime { timezone : list string }.

Definition dgroup (d : ascii) : nat := nat_of_ascii d.

Definition rng (lo hi : ascii) : regex := Chr (CRange lo hi).
Definition ch (a : ascii) : regex := Chr (CChar a).
Definition dig : regex := Chr CDigit.

(** Insert a name so that longer names come first. *)
Fixpoint insert_by_length (w : string) (l : list string) : list string :=
  match l with
  | [] => [w]
  | x :: l' =>
      if (String.length x <? String.length w)%nat then w :: l
      else x :: insert_by_length w l'
  end.

Definition sort_by_length (l : list string) : list string :=
  foldr insert_by_length [] l.

(** The regular expression of one directive ([TimeRE.__init__]). *)
Definition directive_regex (lt : LocaleTime) (d : ascii) : res regex :=
  if Ascii.eqb d "d" then
    Ret (Group (dgroup d) (alts [Cat (ch "3") (rng "0" "1"); Cat (rng "1" "2") dig;
                                 Cat (ch "0") (rng "1" "9"); rng "1" "9";
                                 Cat (ch " ") (rng "1" "9")]))
  else if Ascii.eqb d "H" then
    Ret (Group (dgroup d) (alts [Cat (ch "2") (rng "0" "3"); Cat (rng "0" "1") dig; dig]))
  else if Ascii.eqb d "m" then
    Ret (Group (dgroup d) (alts [Cat (ch "1") (rng "0" "2"); Cat (ch "0") (rng "1" "9");
                                 rng "1" "9"]))
  else if Ascii.eqb d "M" then
    Ret (Group (dgroup d) (alts [Cat (rng "0" "5") dig; dig]))
  else if Ascii.eqb d "S" then
    Ret (Group (dgroup d) (alts [Cat (ch "6") (rng "0" "1"); Cat (rng "0" "5") dig; dig]))
  else if Ascii.eqb d "Y" then
    Ret (Group (dgroup d) (cats [dig; dig; dig; dig]))
  else if Ascii.eqb d "Z" then
    match filter (fun w => w <> EmptyString) (timezone lt) with
    | [] => Ret Eps
    | names => Ret (Group (dgroup d) (alts (map Lit (sort_by_length names))))
    end
  else if Ascii.eqb d "%" then Ret (ch "%")
  else Raise Unmodelled.

(** [TimeRE.pattern]: a run of whitespace stands for any non-empty run of
    whitespace, a percent sign opens a directive, and every other
    character stands for itself.  [ws] tells that the previous character
    was whitespace. *)
Fixpoint format_regex (lt : LocaleTime) (fmt : string) (ws : bool) : res (list regex) :=
  match fmt with
  | EmptyString => Ret []
  | String "%" EmptyString => Raise ValueError
  | String "%" (String d rest) =>
      res_bind (directive_regex lt d) (fun r =>
      res_bind (format_regex lt rest false) (fun rs => Ret (r :: rs)))
  | String a rest =>
      if is_space a then
        res_bind (format_regex lt rest true) (fun rs =>
        Ret (if ws then rs else Plus CSpace :: rs))
      else
        res_bind (format_regex lt rest false) (fun rs => Ret (ch a :: rs))
  end.

(** The value of a directive's group, or the default when the format
    does not have the directive. *)
Definition field (m : Match) (d : ascii) (default : Z) : res Z :=
  match groups m !! dgroup d with
  | Some s => int s
  | None => Ret default
  end.

(** [datetime.strptime(s, fmt)] *)
Definition strptime (lt : LocaleTime) (s fmt : string) : res datetime :=
  res_bind (format_regex lt fmt false) (fun rs =>
  match re_match true (cats rs) s with
  | None => Raise ValueError                 (* does not match format *)
  | Some m =>
      if negb (m_end m =? String.length s)%nat then
        Raise ValueError                     (* unconverted data remains *)
      else
        res_bind (field m "Y" 1900) (fun y =>
        res_bind (field m "m" 1) (fun mo =>
        res_bind (field m "d" 1) (fun d =>
        res_bind (field m "H" 0) (fun h =>
        res_bind (field m "M" 0) (fun mi =>
        res_bind (field m "S" 0) (fun sec =>
        let dt := mkdatetime y mo d h mi sec in
        if valid_datetime dt then Ret dt else Raise ValueError))))))
  end).

(** ** The hand object *)

(** The values the parser stores in attributes. *)
Inductive value : Type :=
| VNone
| VBool (b : bool)
| VStr (s : string)
| VInt (z : Z)
| VDecimal (d : Decimal)
| VTuple (l : list string)
| VDatetime (d : aware)
| VOrderedDict (d : list (string * Z)).

Global Instance value_eq_dec : EqDecision value.
Proof. solve_decision. Defined.

(** A [FullTiltHand] instance: the text, what [__init__] derives from it,
    and the attributes that parsing assigns, by name. *)
Record FullTiltHand : Type := mkHand {
  raw : string;
  _splitted : list string;
  _sections : list Z;
  attrs : gmap string value
}.

(** A method: it may change the object and either returns or raises; the
    changes made before an exception stay. *)
Definition M (A : Type) : Type := FullTiltHand -> res A * FullTiltHand.

Definition ret {A} (a : A) : M A := fun self => (Ret a, self).

Definition bind {A B} (m : M A) (k : A -> M B) : M B :=
  fun self =>
    match m self with
    | (Ret a, self') => k a self'
    | (Raise e, self') => (Raise e, self')
    end.

Declare Scope py_scope.
Delimit Scope py_scope with py.
Notation "x <- c ;; k" := (bind c (fun x => k))
  (at level 100, c at level 99, k at level 200, right associativity) : py_scope.
Notation "c ;; k" := (bind c (fun _ => k))
  (at level 100, k at level 200, right associativity, only parsing) : py_scope.
Open Scope py_scope.

(** A pure library call inside a method. *)
Definition lift {A} (r : res A) : M A := fun self => (r, self).

(** The object with attribute [name] set to [v]. *)
Definition set_attr (name : string) (v : value) (self : FullTiltHand)
    : FullTiltHand :=
  mkHand (raw self) (_splitted self) (_sections self) (<[name := v]> (attrs self)).

(** [setattr(self, name, v)], also written [self.name = v] *)
Definition setattr (name : string) (v : value) : M unit :=
  fun self => (Ret tt, set_attr name v self).

(** [self.name] *)
Definition getattr (name : string) : M value :=
  fun self => (of_option AttributeError (attrs self !! name), self).

Definition splitted : M (list string) := fun self => (Ret (_splitted self), self).
Definition sections : M (list Z) := fun self => (Ret (_sections self), self).

(** [try: body except e: handler] *)
Definition try_except {A} (body : M A) (e : exn) (handler : M A) : M A :=
  fun self =>
    match body self with
    | (Raise e', self') =>
        if decide (e' = e) then handler self' else (Raise e', self')
    | r => r
    end.

(** [m.group(n)] where [m] is the result of [pattern.match]: [None] has
    no attribute [group].  Every group of the room's patterns lies on the
    only path through its pattern, so a match sets all of them (see
    [groups_set]) and the empty default is never taken. *)
Definition mgroup (m : option Match) (n : nat) : res string :=
  match m with
  | None => Raise AttributeError
  | Some m' => Ret (default EmptyString (group m' n))
  end.

(** [OrderedDict(pairs)]: a key keeps the place of its first occurrence
    and the value of its last. *)
Fixpoint od_set (k : string) (v : Z) (d : list (string * Z)) : list (string * Z) :=
  match d with
  | [] => [(k, v)]
  | (k', v') :: d' =>
      if decide (k' = k) then (k, v) :: d' else (k', v') :: od_set k v d'
  end.

Definition OrderedDict (pairs : list (string * Z)) : list (string * Z) :=
  foldl (fun d kv => od_set kv.1 kv.2 d) [] pairs.

(** [d.keys()] *)
Definition keys (d : list (string * Z)) : list string := d.*1.

(** ** The methods of [FullTiltHand] *)

Section FullTilt.
(** [GAMES] and [ET] come from handparser/common.py, which is not among
    the sources: the table of game names and the room's time zone.
    [host] is what [strptime] reads from the machine it runs on. *)
Variable GAMES : gmap string string.
Variable ET : tzinfo.
Variable host : LocaleTime.

Definition parse_header : M unit :=
  l <- splitted ;;
  line <- lift (getitem l 0) ;;
  let m := re_match false _header_pattern line in
  setattr "game_type" (VStr "TOUR") ;;
  sb <- lift (res_bind (mgroup m g_sb) Decimal_of_str) ;;
  setattr "sb" (VDecimal sb) ;;
  bb <- lift (res_bind (mgroup m g_bb) Decimal_of_str) ;;
  setattr "bb" (VDecimal bb) ;;
  naive <- lift (res_bind (mgroup m g_date) (fun s => strptime host s date_format)) ;;
  date <- lift (localize ET naive) ;;
  utc <- lift (astimezone UTC date) ;;
  setattr "date" (VDatetime utc) ;;
  game <- lift (res_bind (mgroup m g_game) (fun s => of_option KeyError (GAMES !! s))) ;;
  setattr "game" (VStr game) ;;
  limit <- lift (mgroup m g_limit) ;;
  setattr "limit" (VStr limit) ;;
  ident <- lift (mgroup m g_ident) ;;
  setattr "ident" (VStr ident) ;;
  tournament_ident <- lift (mgroup m g_tournament_ident) ;;
  setattr "tournament_ident" (VStr tournament_ident) ;;
  tournament_name <- lift (mgroup m g_tournament_name) ;;
  setattr "tournament_name" (VStr tournament_name) ;;
  table_name <- lift (mgroup m g_table_name) ;;
  setattr "table_name" (VStr table_name) ;;
  setattr "tournament_level" VNone ;;
  setattr "buyin" VNone ;;
  setattr "rake" VNone ;;
  setattr "currency" VNone ;;
  setattr "header_parsed" (VBool true).

(** Modelled from the spec: [PokerHand.parse] of handparser/common.py,
    which is not among the sources.  The header is extracted before
    anything else and the parse aborts when that fails (4.2); a header
    already parsed is not parsed again. *)
Definition PokerHand_parse : M unit :=
  fun self =>
    match attrs self !! "header_parsed" with
    | Some (VBool true) => (Ret tt, self)
    | _ => parse_header self
    end.

(** ['Empty Seat %s' % num] for [num] in [range(1, 10)] *)
Definition empty_seat (num : nat) : string * Z :=
  ("Empty Seat " ++ String (ascii_of_nat (48 + num)) EmptyString, 0).

Definition empty_seats : list (string * Z) := map empty_seat (seq 1 9).

(** The loop of [_parse_seats] over [self._splitted[1:]].  [seat_number]
    is [None] as long as the local variable is unbound. *)
Fixpoint seat_loop (lines : list string) (players : list (string * Z))
    (seat_number : option Z) : res (list (string * Z) * option Z) :=
  match lines with
  | [] => Ret (players, seat_number)
  | line :: rest =>
      match re_match false _seat_pattern line with
      | None => Ret (players, seat_number)                        (* break *)
      | Some m =>
          res_bind (int (default EmptyString (group m 1))) (fun seat_number' =>
          let player_name := default EmptyString (group m 2) in
          res_bind (int (remove_char "," (default EmptyString (group m 3)))) (fun stack =>
          res_bind (setitem players (seat_number' - 1) (player_name, stack)) (fun players' =>
          seat_loop rest players' (Some seat_number'))))
      end
  end.

Definition _parse_seats : M unit :=
  l <- splitted ;;
  r <- lift (seat_loop (slice_from l 1) empty_seats None) ;;
  let '(players, seat_number) := r in
  max_players <- lift (of_option UnboundLocalError seat_number) ;;
  setattr "max_players" (VInt max_players) ;;
  setattr "players" (VOrderedDict (OrderedDict players)) ;;
  sec <- sections ;;
  sec0 <- lift (getitem sec 0) ;;
  button_line <- lift (getitem l (sec0 - 1)) ;;
  button_seat <- lift (res_bind (mgroup (re_match false _button_pattern button_line) 1) int) ;;
  setattr "button_seat" (VInt button_seat) ;;
  button <- lift (getitem players (button_seat - 1)) ;;
  setattr "button" (VStr button.1).

(** [self.players.keys()] *)
Definition players_keys : M (list string) :=
  v <- getattr "players" ;;
  match v with
  | VOrderedDict d => ret (keys d)
  | _ => lift (Raise AttributeError)
  end.

Definition _parse_hole_cards : M unit :=
  l <- splitted ;;
  sec <- sections ;;
  sec0 <- lift (getitem sec 0) ;;
  hole_cards_line <- lift (getitem l (sec0 + 2)) ;;
  let m := re_match false _hole_cards_pattern hole_cards_line in
  hero <- lift (mgroup m 1) ;;
  setattr "hero" (VStr hero) ;;
  ks <- players_keys ;;
  i <- lift (index ks hero) ;;
  setattr "hero_seat" (VInt (i + 1)) ;;
  c1 <- lift (mgroup m 2) ;;
  c2 <- lift (mgroup m 3) ;;
  setattr "hero_hole_cards" (VTuple [c1; c2]).

Definition _parse_preflop : M unit :=
  l <- splitted ;;
  sec <- sections ;;
  sec0 <- lift (getitem sec 0) ;;
  let start := sec0 + 3 in
  stop <- lift (getitem sec 1) ;;
  setattr "preflop_actions" (VTuple (slice l start stop)).

(** Parse pot, num players and cards. *)
Definition _parse_boardline (start : Z) (street : string) : M unit :=
  l <- splitted ;;
  board_line <- lift (getitem l start) ;;
  let m := re_match false _street_pattern board_line in
  cards <- lift (mgroup m 1) ;;
  setattr street (VTuple (split_ws cards)) ;;
  pot <- lift (res_bind (mgroup m 2) Decimal_of_str) ;;
  setattr (street ++ "_pot") (VDecimal pot) ;;
  num_players <- lift (res_bind (mgroup m 3) int) ;;
  setattr (street ++ "_num_players") (VInt num_players).

Definition _parse_street (street : string) : M unit :=
  try_except
    (l <- splitted ;;
     i <- lift (index l (upper street)) ;;
     let start := i + 1 in
     _parse_boardline start street ;;
     stop <- lift (index_from l EmptyString (start + 1)) ;;
     let street_actions := slice l (start + 1) stop in
     setattr (street ++ "_actions")
       (match street_actions with
        | [] => VNone
        | _ => VTuple street_actions
        end))
    ValueError
    (setattr street VNone ;;
     setattr (street ++ "_actions") VNone ;;
     setattr (street ++ "_pot") VNone ;;
     setattr (street ++ "_num_players") VNone).

Definition parse : M unit :=
  PokerHand_parse ;;
  _parse_seats ;;
  _parse_hole_cards ;;
  _parse_preflop ;;
  _parse_street "flop" ;;
  _parse_street "turn" ;;
  _parse_street "river".

(** [FullTiltHand.__init__], from the point where the base initialiser
    has run (line 54; it is in handparser/common.py, not among the
    sources).  Assumed of the base initialiser: it stores the text it is
    given in [self.raw], the text that the specification has the
    segmenter split (4.1), and it leaves unset every attribute that the
    steps of this class assign.  The object is followed from there: the
    text, its fragments, the boundaries, and the attributes assigned by
    this class. *)
Definition __init__ (raw : string) (parse_now : bool) : res unit * FullTiltHand :=
  let l := re_split _split_pattern raw in
  let self := mkHand raw l (empty_positions l 0) ∅ in
  if parse_now then parse self else (Ret tt, self).
End FullTilt.

(** ** The three streets *)

Inductive street : Type := Flop | Turn | River.

(** The argument that [parse] passes to [_parse_street]. *)
Definition street_name (st : street) : string :=
  match st with
  | Flop => "flop"
  | Turn => "turn"
  | River => "river"
  end.

(** The marker [_parse_street] looks for. *)
Definition marker (st : street) : string := upper (street_name st).

(** The four attributes of a street. *)
Definition street_attrs (st : street) : list string :=
  let s := street_name st in
  [s; (s ++ "_actions")%string; (s ++ "_pot")%string; (s ++ "_num_players")%string].

(** A street is recorded as not reached: its cards, actions, pot and
    number of players are all [None]. *)
Definition street_absent (self : FullTiltHand) (st : street) : Prop :=
  forall name, name ∈ street_attrs st -> attrs self !! name = Some VNone.

(** The object after the [except] branch of [_parse_street]. *)
Definition set_absent (st : street) (self : FullTiltHand) : FullTiltHand :=
  let s := street_name st in
  mkHand (raw self) (_splitted self) (_sections self)
    (<[(s ++ "_num_players")%string := VNone]>
       (<[(s ++ "_pot")%string := VNone]>
          (<[(s ++ "_actions")%string := VNone]>
             (<[s := VNone]> (attrs self))))).

(** ** Sample hands *)

Definition join_lines (ls : list string) : string :=
  foldr (fun l acc =>
           match acc with
           | EmptyString => l
           | _ => (l ++ String newline acc)%string
           end) EmptyString ls.

Definition games_ex : gmap string string :=
  {[ "Hold'em" := "HOLDEM"; "Omaha" := "OMAHA" ]}.

(** Day of the week of an ordinal, 0 for Monday. *)
Definition weekday (ord : Z) : Z := (ord + 6) mod 7.

(** Day of month of the [k]-th Sunday of a month. *)
Definition nth_sunday (y m k : Z) : Z :=
  let first := weekday (ymd2ord y m 1) in
  1 + (6 - first) mod 7 + 7 * (k - 1).

(** Day of month of the last Sunday of a month. *)
Definition last_sunday (y m : Z) : Z :=
  let fifth := nth_sunday y m 5 in
  if fifth <=? days_in_month (is_leap y) m then fifth else fifth - 7.

(** The month and day on which daylight time starts and ends in the
    United States, as month * 100 + day: from 2007 on the second Sunday
    of March and the first Sunday of November, from 1987 to 2006 the
    first Sunday of April and the last Sunday of October. *)
Definition us_dst_days (y : Z) : Z * Z :=
  if 2007 <=? y then (300 + nth_sunday y 3 2, 1100 + nth_sunday y 11 1)
  else (400 + nth_sunday y 4 1, 1000 + last_sunday y 10).

(** A sample zone that stands for [ET] in the sample runs: US Eastern
    time under the rules of 1987 and later (the room dealt its first
    hand in 2004); it is not the zone's history before 1987.  As
    [localize] does without an [is_dst] argument, a wall-clock time of
    the hour that is skipped in spring or of the hour that is repeated in
    autumn is taken as standard time: daylight time is attached from
    03:00 on the first day up to 01:00 on the last.  Seen from UTC,
    daylight time runs from 07:00 on the first day to 06:00 on the
    last. *)
Definition eastern_ex : tzinfo :=
  let dst (d : datetime) (h_start h_end : Z) : bool :=
    let t := (month d * 100 + day d) * 100 + hour d in
    let '(first, last) := us_dst_days (year d) in
    (first * 100 + h_start <=? t) && (t <? last * 100 + h_end) in
  mktz (fun d => if dst d 3 1 then -14400 else -18000)
       (fun d => if dst d 7 6 then -14400 else -18000).

Definition host_ex : LocaleTime := mkLocaleTime ["utc"; "gmt"; "cet"; "cest"].
Definition host_ex2 : LocaleTime := mkLocaleTime ["utc"; "gmt"; "pst"; "pdt"].

Definition header_ex : string :=
  "Full Tilt Poker Game #33286946295: MiniFTOPS Main Event (255707037), Table 179 - NL Hold'em - 10/20 - 03:05:00 CET - 2013/07/02 [21:05:00 ET - 2013/07/01]".

Definition preamble_ex : list string :=
  [ header_ex;
    "Seat 1: Bob (13,587)";
    "Seat 3: Alice (1,500)";
    "Seat 5: Carol (2,000)";
    "Bob posts the small blind of 10";
    "Alice posts the big blind of 20";
    "The button is in seat #5";
    "*** HOLE CARDS ***";
    "Dealt to Alice [Ah Kd]";
    "Carol folds";
    "Bob calls 10";
    "Alice checks" ].

Definition summary_ex : list string :=
  [ "*** SUMMARY ***"; "Total pot 40 | Rake 0" ].

(** A hand played to the river. *)
Definition hand_full : string :=
  join_lines (preamble_ex ++
    [ "*** FLOP *** [8h 4h Tc] (Total Pot: 40, 2 Players)";
      "Bob checks"; "Alice checks";
      "*** TURN *** [8h 4h Tc] [Ad] (Total Pot: 40, 2 Players)";
      "Bob checks"; "Alice checks";
      "*** RIVER *** [8h 4h Tc Ad] [2c] (Total Pot: 40, 2 Players)";
      "Bob checks"; "Alice bets 20"; "Bob folds" ] ++ summary_ex).

(** A hand that ends on the flop. *)
Definition hand_flop_only : string :=
  join_lines (preamble_ex ++
    [ "*** FLOP *** [8h 4h Tc] (Total Pot: 40, 2 Players)";
      "Bob checks"; "Alice bets 20"; "Bob folds" ] ++ summary_ex).

(** A hand that ends before the flop. *)
Definition hand_preflop_only : string :=
  join_lines (preamble_ex ++ summary_ex).

(** A text with a river section but no turn section. *)
Definition hand_river_without_turn : string :=
  join_lines (preamble_ex ++
    [ "*** FLOP *** [8h 4h Tc] (Total Pot: 40, 2 Players)";
      "Bob checks"; "Alice checks";
      "*** RIVER *** [8h 4h Tc Ad] [2c] (Total Pot: 40, 2 Players)";
      "Bob checks"; "Alice bets 20"; "Bob folds" ] ++ summary_ex).

(** A flop on which nothing is logged before the turn. *)
Definition hand_flop_no_actions : string :=
  join_lines (preamble_ex ++
    [ "*** FLOP *** [8h 4h Tc] (Total Pot: 40, 2 Players)";
      "*** TURN *** [8h 4h Tc] [Ad] (Total Pot: 40, 2 Players)";
      "Bob checks"; "Alice bets 20"; "Bob folds" ] ++ summary_ex).

(** A flop marker followed by a line that is not a board line. *)
Definition hand_bad_flop : string :=
  join_lines (preamble_ex ++
    [ "*** FLOP *** 8h 4h Tc (Total Pot: 40, 2 Players)";
      "Bob checks"; "Alice bets 20"; "Bob folds" ] ++ summary_ex).

(** The seat lines of seats 1, 3 and 5, listed from 5 down. *)
Definition hand_seats_descending : string :=
  join_lines
    [ header_ex;
      "Seat 5: Carol (2,000)";
      "Seat 3: Alice (1,500)";
      "Seat 1: Bob (13,587)";
      "Bob posts the small blind of 10";
      "Alice posts the big blind of 20";
      "The button is in seat #5";
      "*** HOLE CARDS ***";
      "Dealt to Alice [Ah Kd]";
      "Carol folds";
      "Bob calls 10";
      "Alice checks";
      "*** SUMMARY ***";
      "Total pot 40 | Rake 0" ].

(** A text without seat lines. *)
Definition hand_no_seats : string :=
  join_lines
    [ header_ex;
      "Bob posts the small blind of 10";
      "The button is in seat #5";
      "*** HOLE CARDS ***";
      "Dealt to Alice [Ah Kd]";
      "*** SUMMARY ***";
      "Total pot 40 | Rake 0" ].

(** The object as [__init__] leaves it without parsing, and the outcome
    and the object after parsing, on the sample room. *)
Definition unparsed (text : string) : FullTiltHand :=
  (__init__ games_ex eastern_ex host_ex text false).2.

Definition parsed (text : string) : res unit * FullTiltHand :=
  __init__ games_ex eastern_ex host_ex text true.

(** * Notions used in the statements *)

(** ** What a successful match says about the text

    [rsem ic r p s g w s' g']: the pattern [r], started at position [p] on
    the text [s] with groups [g], can consume [w], leaving [s'] and the
    groups [g'].  The relation forgets the order in which Python tries
    the alternatives; every match that [rmatch] finds is one of its
    derivations. *)

Fixpoint all_cls (ic : bool) (c : cls) (w : string) : bool :=
  match w with
  | EmptyString => true
  | String a w' => cls_match ic c a && all_cls ic c w'
  end.

Inductive rsem (ic : bool) :
    regex -> nat -> string -> caps -> string -> string -> caps -> Prop :=
| rsem_Eps p s g : rsem ic Eps p s g "" s g
| rsem_Chr c a p s g :
    cls_match ic c a = true ->
    rsem ic (Chr c) p (String a s) g (String a "") s g
| rsem_Lit w w' p s g :
    lit_match ic w (w' ++ s) = Some s ->
    String.length w' = String.length w ->
    rsem ic (Lit w) p (w' ++ s) g w' s g
| rsem_Cat r1 r2 p s g w1 s1 g1 w2 s2 g2 :
    rsem ic r1 p s g w1 s1 g1 ->
    rsem ic r2 (p + String.length w1) s1 g1 w2 s2 g2 ->
    rsem ic (Cat r1 r2) p s g (w1 ++ w2) s2 g2
| rsem_AltL r1 r2 p s g w s' g' :
    rsem ic r1 p s g w s' g' -> rsem ic (Alt r1 r2) p s g w s' g'
| rsem_AltR r1 r2 p s g w s' g' :
    rsem ic r2 p s g w s' g' -> rsem ic (Alt r1 r2) p s g w s' g'
| rsem_Star c w p s g :
    all_cls ic c w = true -> rsem ic (Star c) p (w ++ s) g w s g
| rsem_StarLazy c w p s g :
    all_cls ic c w = true -> rsem ic (StarLazy c) p (w ++ s) g w s g
| rsem_Group n r p s g w s' g' :
    rsem ic r p s g w s' g' ->
    rsem ic (Group n r) p s g w s' (<[n := w]> g')
| rsem_Bol s g : rsem ic Bol 0 s g "" s g
| rsem_Eol p s g :
    s = "" \/ s = String newline "" -> rsem ic Eol p s g "" s g.

(** The groups on the only path through a pattern: a match sets each. *)
Fixpoint mandatory (r : regex) : list nat :=
  match r with
  | Cat r1 r2 => mandatory r1 ++ mandatory r2
  | Group n r1 => n :: mandatory r1
  | _ => []
  end.


(** The attribute names that [_parse_street] assigns for a street. *)
Definition attr_names (s : string) : list string :=
  [s; (s ++ "_actions")%string; (s ++ "_pot")%string; (s ++ "_num_players")%string].

(** A method leaves the text and its fragments alone and assigns no
    attribute outside [ks], whether it returns or raises. *)
Definition frames {A} (ks : list string) (m : M A) : Prop :=
  forall self r self',
    m self = (r, self') ->
    raw self' = raw self /\ _splitted self' = _splitted self /\
    _sections self' = _sections self /\
    forall k, k ∉ ks -> attrs self' !! k = attrs self !! k.

(** The attributes each method assigns. *)
Definition header_attrs : list string :=
  ["game_type"; "sb"; "bb"; "date"; "game"; "limit"; "ident";
   "tournament_ident"; "tournament_name"; "table_name"; "tournament_level";
   "buyin"; "rake"; "currency"; "header_parsed"]%string.

Definition seats_attrs : list string :=
  ["max_players"; "players"; "button_seat"; "button"]%string.

Definition hole_cards_attrs : list string :=
  ["hero"; "hero_seat"; "hero_hole_cards"]%string.


(** The object after [_parse_boardline] has stored a street's cards, pot
    and number of players. *)
Definition set_board (st : street) (cards : list string) (pot : Decimal)
    (num_players : Z) (self : FullTiltHand) : FullTiltHand :=
  let s := street_name st in
  mkHand (raw self) (_splitted self) (_sections self)
    (<[(s ++ "_num_players")%string := VInt num_players]>
       (<[(s ++ "_pot")%string := VDecimal pot]>
          (<[s := VTuple cards]> (attrs self)))).

(** [tuple(street_actions) if street_actions else None] *)
Definition actions_value (street_actions : list string) : value :=
  match street_actions with
  | [] => VNone
  | _ => VTuple street_actions
  end.

(** The object after [_parse_street] has also stored the actions. *)
Definition set_actions (st : street) (v : value) (self : FullTiltHand)
    : FullTiltHand :=
  mkHand (raw self) (_splitted self) (_sections self)
    (<[(street_name st ++ "_actions")%string := v]> (attrs self)).

(** The group of a match that [mgroup] hands out. *)
Definition grp (m : Match) (n : nat) : string := default EmptyString (group m n).

(** The object after [parse_header] has stored everything: the values
    converted from the groups, and the groups themselves. *)
Definition header_set (m : Match) (sb bb : Decimal) (date : aware)
    (game : string) (self : FullTiltHand) : FullTiltHand :=
  set_attr "header_parsed" (VBool true)
  (set_attr "currency" VNone
  (set_attr "rake" VNone
  (set_attr "buyin" VNone
  (set_attr "tournament_level" VNone
  (set_attr "table_name" (VStr (grp m g_table_name))
  (set_attr "tournament_name" (VStr (grp m g_tournament_name))
  (set_attr "tournament_ident" (VStr (grp m g_tournament_ident))
  (set_attr "ident" (VStr (grp m g_ident))
  (set_attr "limit" (VStr (grp m g_limit))
  (set_attr "game" (VStr game)
  (set_attr "date" (VDatetime date)
  (set_attr "bb" (VDecimal bb)
  (set_attr "sb" (VDecimal sb)
  (set_attr "game_type" (VStr "TOUR") self)))))))))))))).

(** The match of the sample header line. *)
Definition header_match_ex : Match :=
  default (mkMatch ∅ 0) (re_match false _header_pattern header_ex).

(** A line declares a seat: it matches the seat pattern, and its groups
    give the seat number, the name and, commas removed, the stack. *)
Definition seat_line (line : string) (seat : Z) (name : string) (stack : Z) : Prop :=
  exists m,
    re_match false _seat_pattern line = Some m /\
    int (grp m 1) = Ret seat /\
    grp m 2 = name /\
    int (remove_char "," (grp m 3)) = Ret stack.

(** The seat block is over: no line is left, or the next one is not a
    seat line. *)
Definition block_ends (lines : list string) : Prop :=
  match lines with
  | [] => True
  | line :: _ => re_match false _seat_pattern line = None
  end.

(** The seat numbers of the seat block, in the order of the lines. *)
Fixpoint seat_block (lines : list string) : list string :=
  match lines with
  | [] => []
  | line :: rest =>
      match re_match false _seat_pattern line with
      | Some m => grp m 1 :: seat_block rest
      | None => []
      end
  end.

(** The local list [players] after the seat lines of seats 1, 3 and 5. *)
Definition players_1_3_5 (n1 : string) (s1 : Z) (n3 : string) (s3 : Z)
    (n5 : string) (s5 : Z) : list (string * Z) :=
  [ (n1, s1); ("Empty Seat 2"%string, 0); (n3, s3); ("Empty Seat 4"%string, 0);
    (n5, s5); ("Empty Seat 6"%string, 0); ("Empty Seat 7"%string, 0);
    ("Empty Seat 8"%string, 0); ("Empty Seat 9"%string, 0) ].

(** The sample hand after [_parse_seats]. *)
Definition seated_ex : FullTiltHand := (_parse_seats (unparsed hand_full)).2.

(** Whether the character [c] occurs in [s]. *)
Fixpoint has_char (c : ascii) (s : string) : bool :=
  match s with
  | EmptyString => false
  | String a s' => Ascii.eqb a c || has_char c s'
  end.

(** The object that [__init__] builds from the text and hands to
    [parse]. *)
Definition fresh (raw : string) : FullTiltHand :=
  mkHand raw (re_split _split_pattern raw)
    (empty_positions (re_split _split_pattern raw) 0) ∅.

(** The section boundaries of an object are the positions of its empty
    fragments, as [__init__] computes them. *)
Definition wf (self : FullTiltHand) : Prop :=
  _sections self = empty_positions (_splitted self) 0.

(** Sample headers that the header step rejects: without the hand-number
    token, with a small blind that is not a number, with a day the
    calendar does not have, and with a game that is not in the table. *)
Definition header_no_game_token : string :=
  "Full Tilt Poker #33286946295: MiniFTOPS Main Event (255707037), Table 179 - NL Hold'em - 10/20 - 03:05:00 CET - 2013/07/02 [21:05:00 ET - 2013/07/01]".

Definition header_bad_blind : string :=
  "Full Tilt Poker Game #33286946295: MiniFTOPS Main Event (255707037), Table 179 - NL Hold'em - ten/20 - 03:05:00 CET - 2013/07/02 [21:05:00 ET - 2013/07/01]".

Definition header_bad_date : string :=
  "Full Tilt Poker Game #33286946295: MiniFTOPS Main Event (255707037), Table 179 - NL Hold'em - 10/20 - 03:05:00 CET - 2013/02/31 [21:05:00 ET - 2013/02/30]".

Definition header_unknown_game : string :=
  "Full Tilt Poker Game #33286946295: MiniFTOPS Main Event (255707037), Table 179 - NL Badugi - 10/20 - 03:05:00 CET - 2013/07/02 [21:05:00 ET - 2013/07/01]".

(** The sample hand under another header. *)
Definition with_header (h : string) : string :=
  join_lines (h :: drop 1 preamble_ex ++ summary_ex).

(** Sample hands that a later step rejects: without the button line,
    dealt to a name that has no seat, with a flop whose pot is empty,
    cut off right after a flop marker, and cut off before the summary. *)
Definition hand_no_button : string :=
  join_lines (take 6 preamble_ex ++ drop 7 preamble_ex ++ summary_ex).

Definition hand_unknown_hero : string :=
  join_lines (take 8 preamble_ex ++ ["Dealt to Zed [Ah Kd]"%string]
              ++ drop 9 preamble_ex ++ summary_ex).

Definition hand_empty_pot : string :=
  join_lines (preamble_ex ++
    [ "*** FLOP *** [8h 4h Tc] (Total Pot: , 2 Players)";
      "Bob checks"; "Alice checks" ]%string ++ summary_ex).

Definition hand_marker_last : string :=
  join_lines (preamble_ex ++ ["*** FLOP"%string]).

Definition hand_unfinished : string := join_lines preamble_ex.

(** A seat line for seat 0. *)
Definition seat_zero_line : string := "Seat 0: Dan (500)".

(** No stack in the list of seats is negative. *)
Definition stacks_nonneg (players : list (string * Z)) : Prop :=
  forall name stack, (name, stack) ∈ players -> 0 <= stack.

(** A pattern without capturing groups. *)
Fixpoint group_free (r : regex) : bool :=
  match r with
  | Group _ _ => false
  | Cat r1 r2 | Alt r1 r2 => group_free r1 && group_free r2
  | _ => true
  end.

(** A non-empty run of whitespace. *)
Definition blank (b : string) : Prop :=
  b <> ""%string /\ all_cls true CSpace b = true.

(** The timestamp [s] shows the date and time [d] in the room's format:
    hour, minute and second between colons, the letters ET (in either
    case) and a dash between blanks, then year, month and day between
    slashes; each field of [d] is the number that its part of the text
    writes. *)
Definition shows (s : string) (d : datetime) : Prop :=
  exists hh mi ss b1 et b2 b3 yy mo dd : string,
    s = (hh ++ ":" ++ mi ++ ":" ++ ss ++ b1 ++ et ++ b2 ++ "-" ++ b3
         ++ yy ++ "/" ++ mo ++ "/" ++ dd)%string /\
    blank b1 /\ lower et = "et"%string /\ blank b2 /\ blank b3 /\
    int hh = Ret (hour d) /\ int mi = Ret (minute d) /\
    int ss = Ret (second d) /\ int yy = Ret (year d) /\
    int mo = Ret (month d) /\ int dd = Ret (day d).

(** The first and the last day of the calendar of [datetime]. *)
Definition on_edge_day (d : datetime) : bool :=
  ((year d =? MINYEAR) && (month d =? 1) && (day d =? 1))
  || ((year d =? MAXYEAR) && (month d =? 12) && (day d =? 31)).

(** A sample header dated on the last day of the calendar. *)
Definition header_last_day : string :=
  "Full Tilt Poker Game #33286946295: MiniFTOPS Main Event (255707037), Table 179 - NL Hold'em - 10/20 - 03:05:00 CET - 9999/12/31 [21:05:00 ET - 9999/12/31]".

(** A sample hand in which the name before Alice's is listed twice. *)
Definition hand_repeated_name : string :=
  join_lines
    [ header_ex;
      "Seat 1: Bob (13,587)";
      "Seat 2: Bob (2,000)";
      "Seat 3: Alice (1,500)";
      "Bob posts the small blind of 10";
      "Alice posts the big blind of 20";
      "The button is in seat #2";
      "*** HOLE CARDS ***";
      "Dealt to Alice [Ah Kd]";
      "Bob folds";
      "Bob calls 10";
      "Alice checks";
      "*** SUMMARY ***";
      "Total pot 40 | Rake 0" ]%string.

(** * Properties *)

(** ** Strings *)

#[local] Arguments String.append !s1 s2 : simpl nomatch.

Lemma append_nil_r (s : string) : (s ++ "")%string = s.
Proof. induction s as [|a s IH]; simpl; [reflexivity | now rewrite IH]. Qed.

Lemma append_assoc (a b c : string) :
  ((a ++ b) ++ c)%string = (a ++ (b ++ c))%string.
Proof. induction a as [|x a IH]; simpl; [reflexivity | now rewrite IH]. Qed.

Lemma length_append (a b : string) :
  String.length (a ++ b) = (String.length a + String.length b)%nat.
Proof. induction a as [|x a IH]; simpl; [reflexivity | now rewrite IH]. Qed.

Lemma substring_prefix (w s : string) :
  substring 0 (String.length w) (w ++ s) = w.
Proof.
  induction w as [|x w IH]; simpl.
  - destruct s; reflexivity.
  - now rewrite IH.
Qed.

Lemma rsem_split ic r p s g w s' g' :
  rsem ic r p s g w s' g' -> s = (w ++ s')%string.
Proof.
  induction 1; simpl; try reflexivity.
  - subst. now rewrite append_assoc.
  - assumption.
  - assumption.
  - assumption.
Qed.

Lemma lit_match_split ic w s s' :
  lit_match ic w s = Some s' ->
  exists w', s = (w' ++ s')%string /\ String.length w' = String.length w.
Proof.
  revert s. induction w as [|b w IH]; intros s H; simpl in H.
  - exists ""%string. inversion H. split; reflexivity.
  - destruct s as [|a s]; [discriminate|].
    destruct (chr_eq ic b a); [|discriminate].
    destruct (IH _ H) as (w' & -> & Hl).
    exists (String a w'). simpl. split; [reflexivity | now rewrite Hl].
Qed.

Section Soundness.
Context {R : Type}.
Variable ic : bool.

Lemma star_greedy_sound c p s (k : nat -> string -> option R) x :
  star_greedy ic c p s k = Some x ->
  exists w s', s = (w ++ s')%string /\ all_cls ic c w = true /\
               k (p + String.length w)%nat s' = Some x.
Proof.
  revert p. induction s as [|a s IH]; intros p H; simpl in H.
  - exists ""%string, ""%string. rewrite Nat.add_0_r. auto.
  - destruct (cls_match ic c a) eqn:Hc.
    + destruct (star_greedy ic c (S p) s k) eqn:Hg.
      * inversion H; subst. destruct (IH _ Hg) as (w & s' & -> & Hw & Hk).
        exists (String a w), s'. simpl. rewrite Hc, Hw.
        rewrite <- Nat.add_succ_comm. auto.
      * exists ""%string, (String a s). rewrite Nat.add_0_r. auto.
    + exists ""%string, (String a s). rewrite Nat.add_0_r. auto.
Qed.

Lemma star_lazy_sound c p s (k : nat -> string -> option R) x :
  star_lazy ic c p s k = Some x ->
  exists w s', s = (w ++ s')%string /\ all_cls ic c w = true /\
               k (p + String.length w)%nat s' = Some x.
Proof.
  revert p. induction s as [|a s IH]; intros p H; simpl in H.
  - destruct (k p ""%string) eqn:Hk; [|discriminate].
    exists ""%string, ""%string. rewrite Nat.add_0_r. rewrite Hk. auto.
  - destruct (k p (String a s)) eqn:Hk.
    + exists ""%string, (String a s). rewrite Nat.add_0_r, Hk. auto.
    + destruct (cls_match ic c a) eqn:Hc; [|discriminate].
      destruct (IH _ H) as (w & s' & -> & Hw & Hk').
      exists (String a w), s'. simpl. rewrite Hc, Hw.
      rewrite <- Nat.add_succ_comm. auto.
Qed.

Lemma rmatch_sound r : forall p s g (k : nat -> string -> caps -> option R) x,
  rmatch ic r p s g k = Some x ->
  exists w s' g', rsem ic r p s g w s' g' /\
                  k (p + String.length w)%nat s' g' = Some x.
Proof.
  induction r as [|c|w|r1 IH1 r2 IH2|r1 IH1 r2 IH2|c|c|n r IH| |];
    intros p s g k x H; simpl in H.
  - exists ""%string, s, g. rewrite Nat.add_0_r. split; [constructor | assumption].
  - destruct s as [|a s]; [discriminate|].
    destruct (cls_match ic c a) eqn:Hc; [|discriminate].
    exists (String a ""), s, g. simpl. rewrite Nat.add_1_r.
    split; [now constructor | assumption].
  - destruct (lit_match ic w s) as [s'|] eqn:Hl; [|discriminate].
    destruct (lit_match_split _ _ _ _ Hl) as (w' & -> & Hlen).
    exists w', s', g. rewrite Hlen. split; [now constructor | assumption].
  - destruct (IH1 _ _ _ _ _ H) as (w1 & s1 & g1 & H1 & Hk1).
    destruct (IH2 _ _ _ _ _ Hk1) as (w2 & s2 & g2 & H2 & Hk2).
    exists (w1 ++ w2)%string, s2, g2. split.
    + econstructor; eassumption.
    + now rewrite length_append, Nat.add_assoc.
  - destruct (rmatch ic r1 p s g k) eqn:H1.
    + inversion H; subst. destruct (IH1 _ _ _ _ _ H1) as (w & s' & g' & Hs & Hk).
      exists w, s', g'. split; [now apply rsem_AltL | assumption].
    + destruct (IH2 _ _ _ _ _ H) as (w & s' & g' & Hs & Hk).
      exists w, s', g'. split; [now apply rsem_AltR | assumption].
  - destruct (star_greedy_sound _ _ _ _ _ H) as (w & s' & -> & Hw & Hk).
    exists w, s', g. split; [now constructor | assumption].
  - destruct (star_lazy_sound _ _ _ _ _ H) as (w & s' & -> & Hw & Hk).
    exists w, s', g. split; [now constructor | assumption].
  - destruct (IH _ _ _ _ _ H) as (w & s' & g' & Hs & Hk).
    exists w, s', (<[n := w]> g'). split; [now constructor|].
    pose proof (rsem_split _ _ _ _ _ _ _ _ Hs) as ->.
    replace (p + String.length w - p)%nat with (String.length w) in Hk by lia.
    now rewrite substring_prefix in Hk.
  - destruct (Nat.eqb_spec p 0); [|discriminate]. subst.
    exists ""%string, s, g. split; [constructor | assumption].
  - exists ""%string, s, g. rewrite Nat.add_0_r.
    destruct s as [|a [|b s]]; try discriminate.
    + split; [constructor; auto | assumption].
    + destruct (Ascii.eqb_spec a newline); [|discriminate]. subst.
      split; [constructor; auto | assumption].
Qed.
End Soundness.

(** What [pattern.match] returns comes from a derivation that starts at
    position 0 with no group set. *)
Lemma re_match_sound ic r s m :
  re_match ic r s = Some m ->
  exists w s', rsem ic r 0 s ∅ w s' (groups m) /\ m_end m = String.length w.
Proof.
  unfold re_match. intros H.
  destruct (rmatch_sound ic r _ _ _ _ _ H) as (w & s' & g' & Hs & Hk).
  inversion Hk; subst. exists w, s'. simpl. auto.
Qed.

(** ** Groups of the room's patterns *)

Lemma rsem_groups ic r p s g w s' g' :
  rsem ic r p s g w s' g' ->
  (forall n, is_Some (g !! n) -> is_Some (g' !! n)) /\
  (forall n, n ∈ mandatory r -> is_Some (g' !! n)).
Proof.
  induction 1; simpl; try (split; [auto | intros n Hn; inversion Hn]; fail).
  - destruct IHrsem1 as [K1 M1], IHrsem2 as [K2 M2]. split; [auto|].
    intros n Hn. apply elem_of_app in Hn as [Hn|Hn]; auto.
  - destruct IHrsem as [K _]. split; [auto | intros n Hn; inversion Hn].
  - destruct IHrsem as [K _]. split; [auto | intros n Hn; inversion Hn].
  - destruct IHrsem as [K Mn]. split.
    + intros k Hk. destruct (decide (n = k)) as [->|Hne].
      * rewrite lookup_insert_eq. eauto.
      * rewrite lookup_insert_ne by assumption. auto.
    + intros k Hk. apply elem_of_cons in Hk as [->|Hk].
      * rewrite lookup_insert_eq. eauto.
      * destruct (decide (n = k)) as [->|Hne].
        -- rewrite lookup_insert_eq. eauto.
        -- rewrite lookup_insert_ne by assumption. auto.
Qed.

(** Every group on the path of a pattern is set by a match, so
    [m.group(n)] is a string for each of them. *)
Lemma groups_set ic r s m n :
  re_match ic r s = Some m -> n ∈ mandatory r -> is_Some (group m n).
Proof.
  intros H Hn. destruct (re_match_sound _ _ _ _ H) as (w & s' & Hs & _).
  apply (proj2 (rsem_groups _ _ _ _ _ _ _ _ Hs)). assumption.
Qed.

(** All the groups of the room's patterns are on the path. *)
Lemma room_patterns_groups :
  mandatory _header_pattern = [1; 2; 3; 4; 5; 6; 7; 8; 9]%nat /\
  mandatory _seat_pattern = [1; 2; 3]%nat /\
  mandatory _button_pattern = [1]%nat /\
  mandatory _hole_cards_pattern = [1; 2; 3]%nat /\
  mandatory _street_pattern = [1; 2; 3]%nat.
Proof. repeat split. Qed.

(** A case-sensitive literal consumes exactly its own text. *)
Lemma lit_match_exact w : forall s s',
  lit_match false w s = Some s' -> s = (w ++ s')%string.
Proof.
  induction w as [|b w IH]; intros s s' H; simpl in H.
  - now inversion H.
  - destruct s as [|a s]; [discriminate|]. unfold chr_eq in H.
    destruct (Ascii.eqb_spec a b); [|discriminate]. subst.
    simpl. now rewrite (IH _ _ H).
Qed.

Lemma append_same_length (a b c d : string) :
  (a ++ b)%string = (c ++ d)%string -> String.length a = String.length c ->
  a = c /\ b = d.
Proof.
  revert c. induction a as [|x a IH]; intros [|y c] H Hl; simpl in *;
    try discriminate; [auto|].
  inversion H; subst. destruct (IH c) as [-> ->]; auto.
Qed.

Lemma rsem_Lit_inv w p s g w' s' g' :
  rsem false (Lit w) p s g w' s' g' ->
  w' = w /\ g' = g /\ s = (w ++ s')%string.
Proof.
  intros H. inversion H; subst.
  match goal with Hm : lit_match _ _ _ = _ |- _ =>
    apply lit_match_exact in Hm; pose proof Hm as Hm' end.
  apply append_same_length in Hm' as [-> _]; auto.
Qed.

Lemma rsem_Cat_inv ic r1 r2 p s g w s' g' :
  rsem ic (Cat r1 r2) p s g w s' g' ->
  exists w1 s1 g1 w2,
    rsem ic r1 p s g w1 s1 g1 /\
    rsem ic r2 (p + String.length w1) s1 g1 w2 s' g' /\
    w = (w1 ++ w2)%string.
Proof. intros H. inversion H; subst. eauto 10. Qed.

Lemma rsem_Group_inv ic n r p s g w s' g' :
  rsem ic (Group n r) p s g w s' g' ->
  exists g1, rsem ic r p s g w s' g1 /\ g' = <[n := w]> g1.
Proof. intros H. inversion H; subst. eauto. Qed.

Lemma rsem_Star_inv ic c p s g w s' g' :
  rsem ic (Star c) p s g w s' g' -> all_cls ic c w = true /\ g' = g.
Proof. intros H. inversion H; subst. auto. Qed.

Lemma rsem_StarLazy_inv ic c p s g w s' g' :
  rsem ic (StarLazy c) p s g w s' g' -> all_cls ic c w = true /\ g' = g.
Proof. intros H. inversion H; subst. auto. Qed.

Lemma rsem_Chr_inv ic c p s g w s' g' :
  rsem ic (Chr c) p s g w s' g' ->
  exists a, w = String a "" /\ cls_match ic c a = true /\ g' = g.
Proof. intros H. inversion H; subst. eauto. Qed.

Lemma rsem_Bol_inv ic p s g w s' g' :
  rsem ic Bol p s g w s' g' -> w = ""%string /\ g' = g.
Proof. intros H. inversion H; subst. auto. Qed.

Lemma rsem_Eol_inv ic p s g w s' g' :
  rsem ic Eol p s g w s' g' ->
  w = ""%string /\ g' = g /\ (s' = ""%string \/ s' = String newline "").
Proof. intros H. inversion H; subst. auto. Qed.

(** Take a derivation of a concrete pattern apart, item by item. *)
Ltac rsem_step :=
  match goal with
  | H : rsem _ (Cat _ _) _ _ _ _ _ _ |- _ =>
      apply rsem_Cat_inv in H;
      let w1 := fresh "w" in let s1 := fresh "s" in let g1 := fresh "g" in
      let w2 := fresh "w" in let H1 := fresh "H" in let H2 := fresh "H" in
      destruct H as (w1 & s1 & g1 & w2 & H1 & H2 & ->)
  | H : rsem _ (Group _ _) _ _ _ _ _ _ |- _ =>
      apply rsem_Group_inv in H;
      let g1 := fresh "g" in let H1 := fresh "H" in
      destruct H as (g1 & H1 & ->)
  | H : rsem false (Lit _) _ _ _ _ _ _ |- _ =>
      apply rsem_Lit_inv in H; destruct H as (-> & -> & _)
  | H : rsem _ (Star _) _ _ _ _ _ _ |- _ =>
      apply rsem_Star_inv in H;
      let H1 := fresh "Hall" in destruct H as (H1 & ->)
  | H : rsem _ (StarLazy _) _ _ _ _ _ _ |- _ =>
      apply rsem_StarLazy_inv in H;
      let H1 := fresh "Hall" in destruct H as (H1 & ->)
  | H : rsem _ (Chr _) _ _ _ _ _ _ |- _ =>
      apply rsem_Chr_inv in H;
      let a := fresh "a" in let H1 := fresh "Hcls" in
      destruct H as (a & -> & H1 & ->)
  | H : rsem _ Bol _ _ _ _ _ _ |- _ =>
      apply rsem_Bol_inv in H; destruct H as (-> & ->)
  | H : rsem _ Eol _ _ _ _ _ _ |- _ =>
      apply rsem_Eol_inv in H;
      let H1 := fresh "Hend" in destruct H as (-> & -> & H1)
  end.

Ltac rsem_all := repeat rsem_step.

Lemma append_nil_l (s : string) : ("" ++ s)%string = s.
Proof. reflexivity. Qed.

Lemma all_cls_digits ic w : all_cls ic CDigit w = all_digits w.
Proof. induction w as [|a w IH]; simpl; [reflexivity | now rewrite IH]. Qed.

(** A header line that matches: its text, item by item, and its groups.
    The limit is the literal NL; no other limit token matches. *)
Lemma header_match_shape line m :
  re_match false _header_pattern line = Some m ->
  exists ident tname tident table game sb bb ldate date tail,
    line = ("Full Tilt Poker " ++ "Game #" ++ ident ++ ": " ++ tname ++ " "
            ++ "(" ++ tident ++ "), " ++ "Table " ++ table ++ " - "
            ++ "NL" ++ " " ++ game ++ " - " ++ sb ++ "/" ++ bb ++ " - "
            ++ ldate ++ " " ++ "[" ++ date ++ "]" ++ tail)%string /\
    (tail = ""%string \/ tail = String newline "") /\
    all_digits ident = true /\ all_digits tident = true /\
    all_digits table = true /\
    groups m =
      <[g_date := date]> (<[g_bb := bb]> (<[g_sb := sb]> (<[g_game := game]>
      (<[g_limit := "NL"%string]> (<[g_table_name := table]>
      (<[g_tournament_ident := tident]> (<[g_tournament_name := tname]>
      (<[g_ident := ident]> ∅)))))))).
Proof.
  intros H. destruct (re_match_sound _ _ _ _ H) as (w & s' & Hs & _).
  pose proof (rsem_split _ _ _ _ _ _ _ _ Hs) as Hline.
  unfold _header_pattern in Hs. simpl cats in Hs.
  rsem_all.
  rewrite all_cls_digits in *.
  exists w2, w4, w7, w10, w14, w16, w18, w20, w23, s'.
  split; [rewrite Hline, !append_assoc; reflexivity|].
  split; [exact Hend|].
  split; [assumption|]. split; [assumption|]. split; [assumption|].
  reflexivity.
Qed.

Lemma seat_match_shape line m :
  re_match false _seat_pattern line = Some m ->
  exists a name stack,
    is_digit a = true /\
    all_cls false (COr CDigit (CChar ",")) stack = true /\
    groups m = <[3%nat := stack]> (<[2%nat := name]> (<[1%nat := String a ""]> ∅)).
Proof.
  intros H. destruct (re_match_sound _ _ _ _ H) as (w & s' & Hs & _).
  unfold _seat_pattern in Hs. simpl cats in Hs. rsem_all.
  simpl in Hcls. exists a, w3, w5.
  split; [assumption|]. split; [assumption | reflexivity].
Qed.

Lemma button_match_shape line m :
  re_match false _button_pattern line = Some m ->
  exists a, is_digit a = true /\ groups m = <[1%nat := String a ""]> ∅.
Proof.
  intros H. destruct (re_match_sound _ _ _ _ H) as (w & s' & Hs & _).
  unfold _button_pattern in Hs. simpl cats in Hs. rsem_all.
  simpl in Hcls. exists a. split; [assumption | reflexivity].
Qed.

(** A board line that matches: the cards, a pot of digits only and a
    one-digit number of players. *)
Lemma street_match_shape line m :
  re_match false _street_pattern line = Some m ->
  exists cards pot a,
    all_digits pot = true /\ is_digit a = true /\
    groups m = <[3%nat := String a ""]> (<[2%nat := pot]> (<[1%nat := cards]> ∅)).
Proof.
  intros H. destruct (re_match_sound _ _ _ _ H) as (w & s' & Hs & _).
  unfold _street_pattern in Hs. simpl cats in Hs. rsem_all.
  simpl in Hcls. rewrite all_cls_digits in *. exists w, w2, a.
  split; [assumption|]. split; [assumption | reflexivity].
Qed.

(** ** [int] and [Decimal] on strings of digits *)

Lemma digit_not_space a : is_digit a = true -> is_space a = false.
Proof.
  destruct a as [[] [] [] [] [] [] [] []]; vm_compute; congruence.
Qed.

Lemma int_digit a : is_digit a = true -> int (String a "") = Ret (digit_val a).
Proof.
  destruct a as [[] [] [] [] [] [] [] []]; vm_compute; congruence.
Qed.

Lemma digit_val_range a : is_digit a = true -> (0 <= digit_val a <= 9)%Z.
Proof.
  destruct a as [[] [] [] [] [] [] [] []]; vm_compute; intuition congruence.
Qed.

Lemma str_rev_onto_app s : forall acc,
  str_rev_onto s acc = (str_rev s ++ acc)%string.
Proof.
  unfold str_rev. induction s as [|a s IH]; intros acc; simpl; [reflexivity|].
  rewrite IH, (IH (String a "")), append_assoc. reflexivity.
Qed.

Lemma str_rev_app (a b : string) :
  str_rev (a ++ b) = (str_rev b ++ str_rev a)%string.
Proof.
  induction a as [|x a IH]; simpl.
  - now rewrite append_nil_r.
  - unfold str_rev at 1 3. simpl. rewrite !str_rev_onto_app, IH.
    now rewrite append_assoc.
Qed.

Lemma str_rev_involutive s : str_rev (str_rev s) = s.
Proof.
  induction s as [|a s IH]; [reflexivity|].
  unfold str_rev at 2. simpl. rewrite str_rev_onto_app, str_rev_app, IH.
  reflexivity.
Qed.

Lemma all_digits_app (a b : string) :
  all_digits (a ++ b) = all_digits a && all_digits b.
Proof.
  induction a as [|x a IH]; simpl; [reflexivity|].
  rewrite IH. now rewrite andb_assoc.
Qed.

Lemma all_digits_rev s : all_digits (str_rev s) = all_digits s.
Proof.
  induction s as [|a s IH]; [reflexivity|].
  unfold str_rev. simpl. rewrite str_rev_onto_app, all_digits_app, IH.
  simpl. rewrite andb_true_r. apply andb_comm.
Qed.

Lemma lstrip_digits s : all_digits s = true -> lstrip s = s.
Proof.
  destruct s as [|a s]; simpl; [reflexivity|].
  intros H. apply andb_true_iff in H as [Ha _].
  now rewrite (digit_not_space _ Ha).
Qed.

Lemma strip_digits s : all_digits s = true -> strip s = s.
Proof.
  intros H. unfold strip. rewrite (lstrip_digits _ H).
  rewrite lstrip_digits by now rewrite all_digits_rev.
  apply str_rev_involutive.
Qed.

Lemma digit_not_sign a s :
  is_digit a = true -> take_sign (String a s) = (false, String a s).
Proof.
  destruct a as [[] [] [] [] [] [] [] []]; vm_compute; congruence.
Qed.

(** [int] of a non-empty string of digits is the number it writes. *)
Lemma int_digits s :
  all_digits s = true -> s <> ""%string -> int s = Ret (digits_val s).
Proof.
  intros H Hne. unfold int. rewrite (strip_digits _ H).
  destruct s as [|a s]; [congruence|].
  pose proof H as H'. simpl in H'. apply andb_true_iff in H' as [Ha _].
  assert (Hu : int_unsigned (String a s) = Ret (digits_val (String a s))).
  { unfold int_unsigned. now rewrite H. }
  destruct a as [[] [] [] [] [] [] [] []]; try exact Hu; vm_compute in Ha; congruence.
Qed.

Lemma span_all_digits s :
  all_digits s = true -> span_digits s = (s, ""%string).
Proof.
  induction s as [|a s IH]; simpl; [reflexivity|].
  intros H. apply andb_true_iff in H as [Ha Hs].
  now rewrite Ha, (IH Hs).
Qed.

(** [Decimal] of a non-empty string of digits is that integer, with
    exponent zero: the coefficient holds every digit. *)
Lemma Decimal_of_digits s :
  all_digits s = true -> s <> ""%string ->
  Decimal_of_str s = Ret (DFinite false (digits_val s) 0).
Proof.
  intros H Hne. unfold Decimal_of_str. rewrite (strip_digits _ H).
  destruct s as [|a s]; [congruence|].
  pose proof H as H'. simpl in H'. apply andb_true_iff in H' as [Ha _].
  rewrite (digit_not_sign _ _ Ha).
  unfold dec_number. rewrite (span_all_digits _ H).
  rewrite append_nil_r. reflexivity.
Qed.

(** An empty pot field is not a number. *)
Lemma Decimal_of_empty : Decimal_of_str "" = Raise InvalidOperation.
Proof. reflexivity. Qed.

(** ** Lists *)

Lemma find_from_None {A} `{EqDecision A} (x : A) l : forall i,
  find_from x l i = None <-> x ∉ l.
Proof.
  induction l as [|y l IH]; intros i; simpl.
  - split; [intros _; apply not_elem_of_nil | reflexivity].
  - destruct (decide (y = x)) as [->|Hne].
    + split; [discriminate | intros Hn; exfalso; apply Hn; left].
    + rewrite IH, not_elem_of_cons. intuition congruence.
Qed.

Lemma find_from_Some {A} `{EqDecision A} (x : A) l : forall i j,
  find_from x l i = Some j ->
  (i <= j)%Z /\ l !! Z.to_nat (j - i) = Some x /\
  forall n, (n < Z.to_nat (j - i))%nat -> l !! n <> Some x.
Proof.
  induction l as [|y l IH]; intros i j Hf; simpl in Hf; [discriminate|].
  destruct (decide (y = x)) as [->|Hne].
  - inversion Hf; subst. rewrite Z.sub_diag. simpl.
    split; [lia|]. split; [reflexivity | intros n Hn; lia].
  - destruct (IH _ _ Hf) as (Hle & Hl & Hfirst).
    assert (E : Z.to_nat (j - i) = S (Z.to_nat (j - (i + 1)))) by lia.
    rewrite E. split; [lia|]. split; [exact Hl|].
    intros [|n] Hn; simpl; [congruence | apply Hfirst; lia].
Qed.

Lemma find_from_first {A} `{EqDecision A} (x : A) l : forall i n,
  l !! n = Some x -> (forall k, (k < n)%nat -> l !! k <> Some x) ->
  find_from x l i = Some (i + Z.of_nat n)%Z.
Proof.
  induction l as [|y l IH]; intros i n Hl Hfirst; [discriminate|].
  simpl. destruct n as [|n]; simpl in Hl.
  - inversion Hl; subst. rewrite decide_True by reflexivity.
    f_equal. lia.
  - destruct (decide (y = x)) as [->|Hne].
    + exfalso. apply (Hfirst 0%nat); [lia | reflexivity].
    + rewrite (IH (i + 1)%Z n Hl).
      * f_equal. lia.
      * intros k Hk. apply (Hfirst (S k)). lia.
Qed.

(** [l.index(x)] raises [ValueError] exactly when [x] is not in [l]. *)
Lemma index_absent {A} `{EqDecision A} (l : list A) x :
  index l x = Raise ValueError <-> x ∉ l.
Proof.
  unfold index. rewrite <- (find_from_None x l 0).
  destruct (find_from x l 0); simpl; split; congruence.
Qed.

Lemma index_present {A} `{EqDecision A} (l : list A) x :
  x ∈ l -> exists i, index l x = Ret i /\ (0 <= i)%Z /\ l !! Z.to_nat i = Some x.
Proof.
  intros Hin. unfold index. destruct (find_from x l 0) as [i|] eqn:E.
  - destruct (find_from_Some _ _ _ _ E) as (Hle & Hl & _).
    exists i. rewrite Z.sub_0_r in Hl. auto.
  - apply find_from_None in E. contradiction.
Qed.

Lemma getitem_lookup {A} (l : list A) (i : Z) x :
  (0 <= i)%Z -> getitem l i = Ret x <-> l !! Z.to_nat i = Some x.
Proof.
  intros Hi. unfold getitem.
  destruct (Z.ltb_spec i 0); [lia|].
  destruct (Z.ltb_spec i 0); [lia|].
  destruct (l !! Z.to_nat i); simpl; split; congruence.
Qed.

(** ** Methods: running, and what they leave alone *)

Lemma bind_Ret_inv {A B} (m : M A) (k : A -> M B) self b self'' :
  bind m k self = (Ret b, self'') ->
  exists a self', m self = (Ret a, self') /\ k a self' = (Ret b, self'').
Proof.
  unfold bind. destruct (m self) as [[a|e] self']; intros H.
  - eauto.
  - discriminate.
Qed.

Lemma lift_Ret_inv {A} (r : res A) self a self' :
  lift r self = (Ret a, self') -> r = Ret a /\ self' = self.
Proof. unfold lift. intros H. inversion H; auto. Qed.

Lemma res_bind_Ret_inv {A B} (r : res A) (k : A -> res B) b :
  res_bind r k = Ret b -> exists a, r = Ret a /\ k a = Ret b.
Proof. destruct r; simpl; intros H; [eauto | discriminate]. Qed.

Lemma mgroup_Ret_inv m n s :
  mgroup m n = Ret s -> exists m', m = Some m' /\ s = default ""%string (group m' n).
Proof. destruct m; simpl; intros H; inversion H; eauto. Qed.

Lemma bind_setattr {B} name v (k : unit -> M B) self :
  bind (setattr name v) k self = k tt (set_attr name v self).
Proof. reflexivity. Qed.

Lemma bind_splitted {B} (k : list string -> M B) self :
  bind splitted k self = k (_splitted self) self.
Proof. reflexivity. Qed.

Lemma bind_sections {B} (k : list Z -> M B) self :
  bind sections k self = k (_sections self) self.
Proof. reflexivity. Qed.

Lemma bind_lift_Ret {A B} (r : res A) a (k : A -> M B) self :
  r = Ret a -> bind (lift r) k self = k a self.
Proof. intros ->. reflexivity. Qed.

Lemma bind_lift_Raise {A B} (r : res A) e (k : A -> M B) self :
  r = Raise e -> bind (lift r) k self = (Raise e, self).
Proof. intros ->. reflexivity. Qed.

Lemma attrs_set_attr name v self :
  attrs (set_attr name v self) = <[name := v]> (attrs self).
Proof. reflexivity. Qed.

Lemma splitted_set_attr name v self :
  _splitted (set_attr name v self) = _splitted self.
Proof. reflexivity. Qed.

Lemma sections_set_attr name v self :
  _sections (set_attr name v self) = _sections self.
Proof. reflexivity. Qed.

Section Frames.
Context {A : Type}.
Variable ks : list string.

Lemma frames_ret (a : A) : frames ks (ret a).
Proof. intros self r self' H. inversion H; subst. auto. Qed.

Lemma frames_lift (x : res A) : frames ks (lift x).
Proof. intros self r self' H. inversion H; subst. auto. Qed.

Lemma frames_bind {B} (m : M B) (k : B -> M A) :
  frames ks m -> (forall b, frames ks (k b)) -> frames ks (bind m k).
Proof.
  intros Hm Hk self r self'' H. unfold bind in H.
  destruct (m self) as [[b|e] self'] eqn:E.
  - destruct (Hm _ _ _ E) as (R1 & S1 & T1 & K1).
    destruct (Hk b _ _ _ H) as (R2 & S2 & T2 & K2).
    repeat split; try congruence.
    intros k0 Hk0. rewrite K2, K1; auto.
  - inversion H; subst. exact (Hm _ _ _ E).
Qed.

Lemma frames_try (m h : M A) e :
  frames ks m -> frames ks h -> frames ks (try_except m e h).
Proof.
  intros Hm Hh self r self'' H. unfold try_except in H.
  destruct (m self) as [[a|e'] self'] eqn:E.
  - inversion H; subst. exact (Hm _ _ _ E).
  - destruct (Hm _ _ _ E) as (R1 & S1 & T1 & K1).
    destruct (decide (e' = e)).
    + destruct (Hh _ _ _ H) as (R2 & S2 & T2 & K2).
      repeat split; try congruence.
      intros k0 Hk0. rewrite K2, K1; auto.
    + inversion H; subst. auto.
Qed.
End Frames.

Lemma frames_setattr ks name v : name ∈ ks -> frames ks (setattr name v).
Proof.
  intros Hin self r self' H. inversion H; subst. simpl.
  repeat split. intros k Hk. apply lookup_insert_ne. congruence.
Qed.

Lemma frames_getattr ks name : frames ks (getattr name).
Proof. intros self r self' H. inversion H; subst. auto. Qed.

Lemma frames_splitted ks : frames ks splitted.
Proof. intros self r self' H. inversion H; subst. auto. Qed.

Lemma frames_sections ks : frames ks sections.
Proof. intros self r self' H. inversion H; subst. auto. Qed.

Lemma frames_weaken {A} ks ks' (m : M A) :
  (forall k, k ∈ ks -> k ∈ ks') -> frames ks m -> frames ks' m.
Proof.
  intros Hsub Hm self r self' H.
  destruct (Hm _ _ _ H) as (R & S & T & K). repeat split; auto.
Qed.

(** Membership of a name in an explicit list of names. *)
Ltac in_names :=
  repeat first [ apply list_elem_of_here | apply list_elem_of_further ].

Ltac frames_tac :=
  repeat first
    [ apply frames_bind; [|intros]
    | apply frames_setattr; in_names
    | apply frames_lift
    | apply frames_ret
    | apply frames_getattr
    | apply frames_splitted
    | apply frames_sections
    | match goal with |- frames _ (let '(_, _) := ?b in _) => destruct b end ].

Section MethodFrames.
Variable GAMES : gmap string string.
Variable ET : tzinfo.
Variable host : LocaleTime.

Lemma frames_parse_header : frames header_attrs (parse_header GAMES ET host).
Proof. unfold parse_header, header_attrs. frames_tac. Qed.

Lemma frames_PokerHand_parse :
  frames header_attrs (PokerHand_parse GAMES ET host).
Proof.
  intros self r self' H. unfold PokerHand_parse in H.
  destruct (attrs self !! "header_parsed"%string) as [[| [] | | | | | |]|];
    try exact (frames_parse_header _ _ _ H).
  inversion H; subst. auto.
Qed.

Lemma frames_parse_seats : frames seats_attrs _parse_seats.
Proof.
  unfold _parse_seats, seats_attrs. frames_tac.
Qed.

Lemma frames_players_keys ks : frames ks players_keys.
Proof.
  unfold players_keys. apply frames_bind; [apply frames_getattr|].
  intros v. destruct v; frames_tac.
Qed.

Lemma frames_parse_hole_cards : frames hole_cards_attrs _parse_hole_cards.
Proof.
  unfold _parse_hole_cards, hole_cards_attrs.
  repeat first
    [ apply frames_players_keys
    | apply frames_bind; [|intros]
    | apply frames_setattr; in_names
    | apply frames_lift
    | apply frames_splitted
    | apply frames_sections ].
Qed.

Lemma frames_parse_preflop : frames ["preflop_actions"%string] _parse_preflop.
Proof. unfold _parse_preflop. frames_tac. Qed.

Lemma frames_parse_street s : frames (attr_names s) (_parse_street s).
Proof.
  unfold _parse_street, _parse_boardline, attr_names.
  apply frames_try; frames_tac.
Qed.
End MethodFrames.

(** ** Streets *)

#[local] Arguments re_match : simpl never.
#[local] Arguments Decimal_of_str : simpl never.
#[local] Arguments int : simpl never.
#[local] Arguments index : simpl never.
#[local] Arguments index_from : simpl never.
#[local] Arguments getitem : simpl never.
#[local] Arguments slice : simpl never.
#[local] Arguments split_ws : simpl never.

Lemma marker_upper st : upper (street_name st) = marker st.
Proof. reflexivity. Qed.

(** The [except] branch, run on its own. *)
Lemma handler_runs st self :
  (setattr (street_name st) VNone ;;
   setattr (street_name st ++ "_actions") VNone ;;
   setattr (street_name st ++ "_pot") VNone ;;
   setattr (street_name st ++ "_num_players") VNone) self
  = (Ret tt, set_absent st self).
Proof. reflexivity. Qed.

Ltac names_in H :=
  repeat (apply elem_of_cons in H as [->|H]); [.. | apply elem_of_nil in H; contradiction].

Lemma set_absent_absent st self : street_absent (set_absent st self) st.
Proof.
  intros name Hin. unfold street_attrs in Hin.
  destruct st; simpl in Hin; names_in Hin; simpl;
    repeat first [ apply lookup_insert_eq
                 | rewrite lookup_insert_ne by discriminate ].
Qed.

(** When the marker is missing, [_parse_street] returns normally and the
    object differs only in the street's four attributes, all [None]. *)
Lemma parse_street_absent st self :
  marker st ∉ _splitted self ->
  _parse_street (street_name st) self = (Ret tt, set_absent st self).
Proof.
  intros Hm. apply index_absent in Hm.
  unfold _parse_street, try_except.
  unfold bind at 1. unfold splitted at 1. unfold bind at 1, lift at 1.
  rewrite marker_upper, Hm.
  rewrite decide_True by reflexivity. apply handler_runs.
Qed.

Lemma groups3 m (a b c : string) :
  groups m = <[3%nat := c]> (<[2%nat := b]> (<[1%nat := a]> ∅)) ->
  group m 1 = Some a /\ group m 2 = Some b /\ group m 3 = Some c.
Proof.
  intros E. unfold group. rewrite E. repeat split.
Qed.

(** A board line that does not match: [match] is [None], and asking it
    for a group raises before anything is stored. *)
Lemma parse_boardline_nomatch start s self line :
  getitem (_splitted self) start = Ret line ->
  re_match false _street_pattern line = None ->
  _parse_boardline start s self = (Raise AttributeError, self).
Proof.
  intros Hl Hm. unfold _parse_boardline, bind, splitted, lift.
  rewrite Hl, Hm. reflexivity.
Qed.

Lemma parse_boardline_ok start st self line m :
  getitem (_splitted self) start = Ret line ->
  re_match false _street_pattern line = Some m ->
  group m 2 <> Some ""%string ->
  exists cards pot a,
    groups m = <[3%nat := String a ""]> (<[2%nat := pot]> (<[1%nat := cards]> ∅)) /\
    all_digits pot = true /\ is_digit a = true /\
    _parse_boardline start (street_name st) self =
      (Ret tt, set_board st (split_ws cards) (DFinite false (digits_val pot) 0)
                 (digit_val a) self).
Proof.
  intros Hl Hm Hpot.
  destruct (street_match_shape _ _ Hm) as (cards & pot & a & Hd & Ha & Hg).
  destruct (groups3 _ _ _ _ Hg) as (G1 & G2 & G3).
  exists cards, pot, a. repeat split; try assumption.
  unfold _parse_boardline, bind, splitted, lift, setattr.
  rewrite Hl, Hm. simpl. rewrite G1, G2, G3. simpl.
  rewrite Decimal_of_digits by (try assumption; congruence). simpl.
  rewrite (int_digit _ Ha). reflexivity.
Qed.

(** The marker is there, its board line parses and an empty fragment
    follows: the street's cards, pot, number of players and actions are
    stored. *)
Lemma parse_street_found st self i line m stop :
  index (_splitted self) (marker st) = Ret i ->
  getitem (_splitted self) (i + 1) = Ret line ->
  re_match false _street_pattern line = Some m ->
  group m 2 <> Some ""%string ->
  index_from (_splitted self) ""%string (i + 1 + 1) = Ret stop ->
  exists cards pot a,
    groups m = <[3%nat := String a ""]> (<[2%nat := pot]> (<[1%nat := cards]> ∅)) /\
    all_digits pot = true /\ is_digit a = true /\
    _parse_street (street_name st) self =
      (Ret tt,
       set_actions st (actions_value (slice (_splitted self) (i + 1 + 1) stop))
         (set_board st (split_ws cards) (DFinite false (digits_val pot) 0)
            (digit_val a) self)).
Proof.
  intros Hi Hl Hm Hpot Hstop.
  destruct (parse_boardline_ok _ st _ _ _ Hl Hm Hpot)
    as (cards & pot & a & Hg & Hd & Ha & Hb).
  exists cards, pot, a. repeat split; try assumption.
  unfold _parse_street, try_except.
  unfold bind at 1. unfold splitted at 1. unfold bind at 1, lift at 1.
  rewrite marker_upper, Hi. unfold bind at 1. rewrite Hb.
  unfold bind, lift. simpl. rewrite Hstop. reflexivity.
Qed.

(** The marker is there and its board line parses, but no empty fragment
    follows: the [ValueError] of the second [index] is caught as well,
    and the handler overwrites what the board line had stored. *)
Lemma parse_street_unterminated st self i line m :
  index (_splitted self) (marker st) = Ret i ->
  getitem (_splitted self) (i + 1) = Ret line ->
  re_match false _street_pattern line = Some m ->
  group m 2 <> Some ""%string ->
  index_from (_splitted self) ""%string (i + 1 + 1) = Raise ValueError ->
  exists self',
    _parse_street (street_name st) self = (Ret tt, self') /\
    street_absent self' st.
Proof.
  intros Hi Hl Hm Hpot Hstop.
  destruct (parse_boardline_ok _ st _ _ _ Hl Hm Hpot)
    as (cards & pot & a & Hg & Hd & Ha & Hb).
  eexists. split.
  - unfold _parse_street, try_except.
    unfold bind at 1. unfold splitted at 1. unfold bind at 1, lift at 1.
    rewrite marker_upper, Hi. unfold bind at 1. rewrite Hb.
    unfold bind at 1, lift at 1. simpl _splitted. rewrite Hstop.
    rewrite decide_True by reflexivity. apply handler_runs.
  - apply set_absent_absent.
Qed.

Lemma parse_street_malformed st self i line :
  index (_splitted self) (marker st) = Ret i ->
  getitem (_splitted self) (i + 1) = Ret line ->
  re_match false _street_pattern line = None ->
  _parse_street (street_name st) self = (Raise AttributeError, self).
Proof.
  intros Hi Hl Hm.
  unfold _parse_street, try_except.
  unfold bind at 1. unfold splitted at 1. unfold bind at 1, lift at 1.
  rewrite marker_upper, Hi. unfold bind at 1.
  rewrite (parse_boardline_nomatch _ _ _ _ Hl Hm).
  rewrite decide_False by discriminate. reflexivity.
Qed.

(** ** The whole parse, step by step *)

Section Parse.
Variable GAMES : gmap string string.
Variable ET : tzinfo.
Variable host : LocaleTime.

Lemma parse_Ret_inv self self' :
  parse GAMES ET host self = (Ret tt, self') ->
  exists h1 h2 h3 h4 h5 h6,
    PokerHand_parse GAMES ET host self = (Ret tt, h1) /\
    _parse_seats h1 = (Ret tt, h2) /\
    _parse_hole_cards h2 = (Ret tt, h3) /\
    _parse_preflop h3 = (Ret tt, h4) /\
    _parse_street "flop" h4 = (Ret tt, h5) /\
    _parse_street "turn" h5 = (Ret tt, h6) /\
    _parse_street "river" h6 = (Ret tt, self').
Proof.
  unfold parse. intros H.
  apply bind_Ret_inv in H as ([] & h1 & H1 & H).
  apply bind_Ret_inv in H as ([] & h2 & H2 & H).
  apply bind_Ret_inv in H as ([] & h3 & H3 & H).
  apply bind_Ret_inv in H as ([] & h4 & H4 & H).
  apply bind_Ret_inv in H as ([] & h5 & H5 & H).
  apply bind_Ret_inv in H as ([] & h6 & H6 & H).
  exists h1, h2, h3, h4, h5, h6. auto 10.
Qed.

(** A street step starts from the fragments of the text: the steps
    before it assign attributes only. *)
Lemma parse_street_step self self' :
  parse GAMES ET host self = (Ret tt, self') ->
  forall st, exists h h',
    _splitted h = _splitted self /\
    _parse_street (street_name st) h = (Ret tt, h') /\
    (forall k, (forall st', st' <> st -> k ∉ street_attrs st') ->
               attrs self' !! k = attrs h' !! k).
Proof.
  intros H. destruct (parse_Ret_inv _ _ H)
    as (h1 & h2 & h3 & h4 & h5 & h6 & H1 & H2 & H3 & H4 & H5 & H6 & H7).
  destruct (frames_PokerHand_parse _ _ _ _ _ _ H1) as (_ & S1 & _).
  destruct (frames_parse_seats _ _ _ H2) as (_ & S2 & _).
  destruct (frames_parse_hole_cards _ _ _ H3) as (_ & S3 & _).
  destruct (frames_parse_preflop _ _ _ H4) as (_ & S4 & _).
  destruct (frames_parse_street _ _ _ _ H5) as (_ & S5 & _ & K5).
  destruct (frames_parse_street _ _ _ _ H6) as (_ & S6 & _ & K6).
  destruct (frames_parse_street _ _ _ _ H7) as (_ & S7 & _ & K7).
  intros [].
  - exists h4, h5. split; [congruence|]. split; [exact H5|].
    intros k Hk. rewrite K7, K6; [reflexivity | |].
    + apply (Hk Turn). discriminate.
    + apply (Hk River). discriminate.
  - exists h5, h6. split; [congruence|]. split; [exact H6|].
    intros k Hk. rewrite K7; [reflexivity|]. apply (Hk River). discriminate.
  - exists h6, self'. split; [congruence|]. split; [exact H7|]. reflexivity.
Qed.
End Parse.

(** ** The claims about streets *)

Ltac by_decide := apply (bool_decide_unpack _); vm_compute; exact I.

Lemma street_attrs_disjoint st st' name :
  st' <> st -> name ∈ street_attrs st -> name ∉ street_attrs st'.
Proof.
  intros Hne Hin. unfold street_attrs in *.
  destruct st, st'; try congruence; simpl in Hin; names_in Hin; by_decide.
Qed.

(** On the sample room, parsing at construction is [parse] on the
    unparsed object. *)
Lemma parsed_eq text :
  parsed text = parse games_ex eastern_ex host_ex (unparsed text).
Proof. reflexivity. Qed.

(** C5. A street whose marker is not among the fragments is not an error:
    [_parse_street] returns normally, the object differs only in the
    street's cards, actions, pot and number of players, and these four
    are [None]. *)
Theorem street_not_reached (st : street) (self : FullTiltHand) :
  marker st ∉ _splitted self ->
  _parse_street (street_name st) self = (Ret tt, set_absent st self) /\
  street_absent (set_absent st self) st /\
  _splitted (set_absent st self) = _splitted self /\
  _sections (set_absent st self) = _sections self /\
  forall k, k ∉ street_attrs st -> attrs (set_absent st self) !! k = attrs self !! k.
Proof.
  intros Hm. split; [now apply parse_street_absent|].
  split; [apply set_absent_absent|]. split; [reflexivity|]. split; [reflexivity|].
  intros k Hk.
  destruct (frames_parse_street _ _ _ _ (parse_street_absent _ _ Hm)) as (_ & _ & _ & K).
  apply K. exact Hk.
Qed.

Lemma street_not_reached_witness :
  (marker River ∉ _splitted (unparsed hand_flop_only)) /\
  _parse_street "river" (unparsed hand_flop_only)
    = (Ret tt, set_absent River (unparsed hand_flop_only)) /\
  street_absent (set_absent River (unparsed hand_flop_only)) River.
Proof.
  assert (H : marker River ∉ _splitted (unparsed hand_flop_only)) by by_decide.
  split; [exact H|].
  destruct (street_not_reached River (unparsed hand_flop_only) H) as (P & Q & _).
  split; [exact P | exact Q].
Defined.

(** C4. A street whose marker is among the fragments but whose next
    fragment is not a board line is an error: [_parse_street] raises
    (the [AttributeError] of asking [None] for a group, which the handler
    for [ValueError] does not catch), nothing is stored for the street,
    and no parse of such an object returns normally. *)
Theorem malformed_board_line (st : street) (self : FullTiltHand) (i : Z) (line : string) :
  index (_splitted self) (marker st) = Ret i ->
  getitem (_splitted self) (i + 1) = Ret line ->
  re_match false _street_pattern line = None ->
  _parse_street (street_name st) self = (Raise AttributeError, self) /\
  forall GAMES ET host r self',
    parse GAMES ET host self = (r, self') -> r <> Ret tt.
Proof.
  intros Hi Hl Hm. split; [now apply (parse_street_malformed _ _ _ _ Hi Hl Hm)|].
  intros GAMES ET host r self' Hp ->.
  destruct (parse_street_step _ _ _ _ _ Hp st) as (h & h' & S & Hs & _).
  rewrite <- S in Hi, Hl.
  rewrite (parse_street_malformed _ _ _ _ Hi Hl Hm) in Hs. discriminate.
Qed.

Lemma malformed_board_line_witness :
  index (_splitted (unparsed hand_bad_flop)) (marker Flop) = Ret 14 /\
  getitem (_splitted (unparsed hand_bad_flop)) (14 + 1)
    = Ret "8h 4h Tc (Total Pot: 40, 2 Players)"%string /\
  re_match false _street_pattern "8h 4h Tc (Total Pot: 40, 2 Players)" = None /\
  _parse_street "flop" (unparsed hand_bad_flop)
    = (Raise AttributeError, unparsed hand_bad_flop) /\
  (parsed hand_bad_flop).1 <> Ret tt.
Proof.
  assert (H1 : index (_splitted (unparsed hand_bad_flop)) (marker Flop) = Ret 14)
    by (vm_compute; reflexivity).
  assert (H2 : getitem (_splitted (unparsed hand_bad_flop)) (14 + 1)
               = Ret "8h 4h Tc (Total Pot: 40, 2 Players)"%string)
    by (vm_compute; reflexivity).
  assert (H3 : re_match false _street_pattern "8h 4h Tc (Total Pot: 40, 2 Players)" = None)
    by (vm_compute; reflexivity).
  destruct (malformed_board_line Flop (unparsed hand_bad_flop) 14 _ H1 H2 H3) as (P & Q).
  split; [exact H1|]. split; [exact H2|]. split; [exact H3|]. split; [exact P|].
  apply (Q games_ex eastern_ex host_ex _ (parsed hand_bad_flop).2).
  rewrite <- parsed_eq. apply surjective_pairing.
Defined.

(** C2, as the code has it.  When the marker is found, the board line
    parses (with a pot that is not empty) and nothing lies between the
    board line and the next empty fragment, the street's actions are
    stored as [None], the very value stored for a street that was not
    reached; it is the cards, the pot and the number of players, which
    are stored and are not [None], that tell the two apart. *)
Theorem empty_actions_are_None (st : street) (self : FullTiltHand)
    (i stop : Z) (line : string) (m : Match) :
  index (_splitted self) (marker st) = Ret i ->
  getitem (_splitted self) (i + 1) = Ret line ->
  re_match false _street_pattern line = Some m ->
  group m 2 <> Some ""%string ->
  index_from (_splitted self) ""%string (i + 1 + 1) = Ret stop ->
  slice (_splitted self) (i + 1 + 1) stop = [] ->
  exists self' cards pot n,
    _parse_street (street_name st) self = (Ret tt, self') /\
    attrs self' !! (street_name st ++ "_actions")%string = Some VNone /\
    attrs self' !! street_name st = Some (VTuple cards) /\
    attrs self' !! (street_name st ++ "_pot")%string = Some (VDecimal pot) /\
    attrs self' !! (street_name st ++ "_num_players")%string = Some (VInt n).
Proof.
  intros Hi Hl Hm Hpot Hstop Hempty.
  destruct (parse_street_found st _ _ _ _ _ Hi Hl Hm Hpot Hstop)
    as (cards & pot & a & _ & _ & _ & Hrun).
  rewrite Hempty in Hrun.
  eexists _, (split_ws cards), (DFinite false (digits_val pot) 0), (digit_val a).
  split; [exact Hrun|].
  destruct st; simpl;
    (split; [apply lookup_insert_eq|]);
    (split; [now rewrite !lookup_insert_ne by discriminate; apply lookup_insert_eq|]);
    (split; [now rewrite !lookup_insert_ne by discriminate; apply lookup_insert_eq|]);
    now rewrite !lookup_insert_ne by discriminate; apply lookup_insert_eq.
Qed.

Lemma empty_actions_are_None_witness :
  exists self' cards pot n,
    _parse_street "flop" (unparsed hand_flop_no_actions) = (Ret tt, self') /\
    attrs self' !! "flop_actions"%string = Some VNone /\
    attrs self' !! "flop"%string = Some (VTuple cards) /\
    attrs self' !! "flop_pot"%string = Some (VDecimal pot) /\
    attrs self' !! "flop_num_players"%string = Some (VInt n).
Proof.
  pose (line := "[8h 4h Tc] (Total Pot: 40, 2 Players)"%string).
  pose (m := default (mkMatch ∅ 0) (re_match false _street_pattern line)).
  refine (empty_actions_are_None Flop (unparsed hand_flop_no_actions)
            14 16 line m _ _ _ _ _ _).
  - vm_compute; reflexivity.
  - vm_compute; reflexivity.
  - vm_compute; reflexivity.
  - vm_compute; discriminate.
  - vm_compute; reflexivity.
  - vm_compute; reflexivity.
Defined.

(** C2 as the specification states it fails: on a hand whose flop has no
    logged action the parse returns normally with the flop's cards
    stored, and the flop's actions are [None], the same value that a
    hand without a flop gets. *)
Lemma empty_actions_counterexample :
  (parsed hand_flop_no_actions).1 = Ret tt /\
  attrs (parsed hand_flop_no_actions).2 !! "flop"%string
    = Some (VTuple ["8h"; "4h"; "Tc"]%string) /\
  attrs (parsed hand_flop_no_actions).2 !! "flop_actions"%string = Some VNone /\
  (marker Flop ∉ _splitted (parsed hand_preflop_only).2) /\
  attrs (parsed hand_preflop_only).2 !! "flop_actions"%string = Some VNone.
Proof.
  split; [vm_compute; reflexivity|].
  split; [vm_compute; reflexivity|].
  split; [vm_compute; reflexivity|].
  split; [by_decide|].
  vm_compute; reflexivity.
Qed.

(** Within a parse that returns, a street whose marker is not among the
    fragments of the text is recorded as not reached. *)
Lemma absent_when_marker_missing GAMES ET host raw self st :
  __init__ GAMES ET host raw true = (Ret tt, self) ->
  marker st ∉ re_split _split_pattern raw ->
  street_absent self st.
Proof.
  unfold __init__. intros Hp Hm.
  destruct (parse_street_step _ _ _ _ _ Hp st) as (h & h' & S & Hs & K).
  simpl in S. rewrite <- S in Hm.
  rewrite (parse_street_absent _ _ Hm) in Hs. inversion Hs; subst h'.
  intros name Hin. rewrite K.
  - now apply set_absent_absent.
  - intros st' Hne. now apply (street_attrs_disjoint st).
Qed.

(** C1, as the code has it.  Each street is looked up by its own marker:
    whenever the parse returns, a text without a TURN marker yields a
    turn that is not reached (cards, actions, pot and number of players
    all [None]), and the river is not reached either when the text has no
    RIVER marker. *)
Theorem absent_streets_follow_markers GAMES ET host (raw : string)
    (self : FullTiltHand) :
  __init__ GAMES ET host raw true = (Ret tt, self) ->
  "TURN"%string ∉ re_split _split_pattern raw ->
  street_absent self Turn /\
  ("RIVER"%string ∉ re_split _split_pattern raw -> street_absent self River).
Proof.
  intros Hp Hturn. split.
  - exact (absent_when_marker_missing _ _ _ _ _ Turn Hp Hturn).
  - intros Hriver. exact (absent_when_marker_missing _ _ _ _ _ River Hp Hriver).
Qed.

Lemma absent_streets_follow_markers_witness :
  street_absent (parsed hand_flop_only).2 Turn /\
  street_absent (parsed hand_flop_only).2 River.
Proof.
  assert (Hp : __init__ games_ex eastern_ex host_ex hand_flop_only true
               = (Ret tt, (parsed hand_flop_only).2))
    by (vm_compute; reflexivity).
  assert (Ht : "TURN"%string ∉ re_split _split_pattern hand_flop_only) by by_decide.
  assert (Hr : "RIVER"%string ∉ re_split _split_pattern hand_flop_only) by by_decide.
  destruct (absent_streets_follow_markers _ _ _ _ _ Hp Ht) as (P & Q).
  split; [exact P | exact (Q Hr)].
Defined.

(** C1 as the specification states it fails: on a text with a river
    section but no turn section the parse returns normally, the turn is
    recorded as not reached and the river is stored all the same. *)
Lemma absent_then_present_counterexample :
  (parsed hand_river_without_turn).1 = Ret tt /\
  street_absent (parsed hand_river_without_turn).2 Turn /\
  attrs (parsed hand_river_without_turn).2 !! "river"%string
    = Some (VTuple ["8h"; "4h"; "Tc"; "Ad]"; "[2c"]%string) /\
  attrs (parsed hand_river_without_turn).2 !! "river_pot"%string
    = Some (VDecimal (DFinite false 40 0)) /\
  ~ street_absent (parsed hand_river_without_turn).2 River.
Proof.
  split; [vm_compute; reflexivity|].
  split.
  { intros name Hin. unfold street_attrs in Hin. simpl in Hin.
    names_in Hin; vm_compute; reflexivity. }
  split; [vm_compute; reflexivity|].
  split; [vm_compute; reflexivity|].
  intros Habs. specialize (Habs "river"%string (list_elem_of_here _ _)).
  vm_compute in Habs. discriminate.
Qed.

(** ** The calendar *)

(** A year written by its place in the 400-, 100- and 4-year cycles. *)
Lemma year_cycles y a b c e :
  y - 1 = 400 * a + 100 * b + 4 * c + e ->
  0 <= b <= 3 -> 0 <= c <= 24 -> 0 <= e <= 3 ->
  days_before_year y = 146097 * a + 36524 * b + 1461 * c + 365 * e /\
  is_leap y = (e =? 3) && (negb (c =? 24) || (b =? 3)).
Proof.
  intros Hy Hb Hc He. split.
  - unfold days_before_year. rewrite Hy.
    assert (E4 : (400 * a + 100 * b + 4 * c + e) / 4 = 100 * a + 25 * b + c)
      by (symmetry; apply (Z.div_unique _ 4 _ e); lia).
    assert (E100 : (400 * a + 100 * b + 4 * c + e) / 100 = 4 * a + b)
      by (symmetry; apply (Z.div_unique _ 100 _ (4 * c + e)); lia).
    assert (E400 : (400 * a + 100 * b + 4 * c + e) / 400 = a)
      by (symmetry; apply (Z.div_unique _ 400 _ (100 * b + 4 * c + e)); lia).
    rewrite E4, E100, E400. lia.
  - unfold is_leap.
    assert (M4 : y mod 4 = (e + 1) mod 4).
    { replace y with ((e + 1) + (100 * a + 25 * b + c) * 4) by lia.
      apply Z.mod_add. lia. }
    assert (M100 : y mod 100 = (4 * c + e + 1) mod 100).
    { replace y with ((4 * c + e + 1) + (4 * a + b) * 100) by lia.
      apply Z.mod_add. lia. }
    assert (M400 : y mod 400 = (100 * b + 4 * c + e + 1) mod 400).
    { replace y with ((100 * b + 4 * c + e + 1) + a * 400) by lia.
      apply Z.mod_add. lia. }
    rewrite M4, M100, M400.
    assert (He' : e = 0 \/ e = 1 \/ e = 2 \/ e = 3) by lia.
    destruct He' as [-> | [-> | [-> | ->]]]; simpl.
    + reflexivity.
    + reflexivity.
    + reflexivity.
    + destruct (Z.eqb_spec c 24) as [->|Hc24].
      * assert (Hb' : b = 0 \/ b = 1 \/ b = 2 \/ b = 3) by lia.
        destruct Hb' as [-> | [-> | [-> | ->]]]; reflexivity.
      * simpl. assert (L : 0 < 4 * c + 3 + 1 < 100) by lia.
        rewrite (Z.mod_small (4 * c + 3 + 1) 100) by lia.
        destruct (Z.eqb_spec (4 * c + 3 + 1) 0); [lia | reflexivity].
Qed.

Lemma month_table leap m :
  2 <= m <= 12 ->
  days_before_month leap m - days_in_month leap (m - 1)
  = days_before_month leap (m - 1).
Proof.
  intros Hm.
  assert (C : m = 2 \/ m = 3 \/ m = 4 \/ m = 5 \/ m = 6 \/ m = 7 \/ m = 8 \/
              m = 9 \/ m = 10 \/ m = 11 \/ m = 12) by lia.
  destruct leap;
    repeat (destruct C as [-> | C]; [reflexivity|]); subst; reflexivity.
Qed.

(** The ordinal of the date that an ordinal stands for is that ordinal:
    converting between the two clocks loses nothing. *)
Lemma ymd2ord_ord2ymd n :
  1 <= n -> let '(y, m, d) := ord2ymd n in ymd2ord y m d = n.
Proof.
  intros Hn. unfold ord2ymd.
  pose proof (Z.div_mod (n - 1) 146097 ltac:(lia)) as E1.
  pose proof (Z.mod_pos_bound (n - 1) 146097 ltac:(lia)) as B1.
  set (a := (n - 1) / 146097) in *. set (r1 := (n - 1) mod 146097) in *.
  pose proof (Z.div_mod r1 36524 ltac:(lia)) as E2.
  pose proof (Z.mod_pos_bound r1 36524 ltac:(lia)) as B2.
  set (b := r1 / 36524) in *. set (r2 := r1 mod 36524) in *.
  pose proof (Z.div_mod r2 1461 ltac:(lia)) as E3.
  pose proof (Z.mod_pos_bound r2 1461 ltac:(lia)) as B3.
  set (c := r2 / 1461) in *. set (r3 := r2 mod 1461) in *.
  pose proof (Z.div_mod r3 365 ltac:(lia)) as E4.
  pose proof (Z.mod_pos_bound r3 365 ltac:(lia)) as B4.
  set (e := r3 / 365) in *. set (r := r3 mod 365) in *.
  clearbody a r1 b r2 c r3 e r.
  assert (Hb : 0 <= b <= 4) by lia.
  assert (Hc : 0 <= c <= 24) by lia.
  assert (He : 0 <= e <= 4) by lia.
  destruct (Z.eqb_spec e 4) as [He4|He4]; simpl orb.
  - (* the last day of a leap year *)
    assert (Hb3 : 0 <= b <= 3) by lia.
    assert (Hc23 : 0 <= c <= 23) by lia.
    destruct (year_cycles (a * 400 + 1 + b * 100 + c * 4 + e - 1) a b c 3
                ltac:(lia) ltac:(lia) ltac:(lia) ltac:(lia)) as [D L].
    unfold ymd2ord. rewrite D, L.
    destruct (Z.eqb_spec c 24); [lia|]. simpl.
    replace (days_before_month true 12) with 335 by reflexivity. lia.
  - destruct (Z.eqb_spec b 4) as [Hb4|Hb4].
    + (* the last day of a 400-year cycle *)
      destruct (year_cycles (a * 400 + 1 + b * 100 + c * 4 + e - 1) a 3 24 3
                  ltac:(lia) ltac:(lia) ltac:(lia) ltac:(lia)) as [D L].
      unfold ymd2ord. rewrite D, L. simpl.
      replace (days_before_month true 12) with 335 by reflexivity. lia.
    + destruct (year_cycles (a * 400 + 1 + b * 100 + c * 4 + e) a b c e
                  ltac:(lia) ltac:(lia) ltac:(lia) ltac:(lia)) as [D L].
      set (leap := (e =? 3) && (negb (c =? 24) || (b =? 3))) in *.
      clearbody leap.
      rewrite Z.shiftr_div_pow2 by lia. change (2 ^ 5) with 32.
      pose proof (Z.div_mod (r + 50) 32 ltac:(lia)) as E5.
      pose proof (Z.mod_pos_bound (r + 50) 32 ltac:(lia)) as B5.
      set (m := (r + 50) / 32) in *. clearbody m.
      assert (Hm : 1 <= m <= 12) by lia.
      destruct (Z.ltb_spec r (days_before_month leap m)) as [Hlt|Hge].
      * assert (Hm2 : 2 <= m <= 12).
        { destruct (Z.eq_dec m 1) as [->|]; [|lia].
          exfalso.
          replace (days_before_month leap 1) with 0 in Hlt
            by (destruct leap; reflexivity).
          lia. }
        unfold ymd2ord. rewrite D, L, (month_table _ _ Hm2). lia.
      * unfold ymd2ord. rewrite D, L. lia.
Qed.

(** Adding seconds moves the clock by exactly that many seconds. *)
Lemma add_seconds_exact d delta d' :
  add_seconds d delta = Ret d' -> to_seconds d' = to_seconds d + delta.
Proof.
  unfold add_seconds.
  set (t := hour d * 3600 + minute d * 60 + second d + delta).
  set (ord := ymd2ord (year d) (month d) (day d) + t / 86400).
  destruct (Z.ltb_spec ord 1) as [|Hord]; simpl; [discriminate|].
  destruct (ymd2ord MAXYEAR 12 31 <? ord); [discriminate|].
  pose proof (ymd2ord_ord2ymd ord Hord) as Hrt.
  destruct (ord2ymd ord) as [[y m] dd].
  intros H. inversion H; subst d'; clear H.
  unfold to_seconds. simpl. rewrite Hrt.
  assert (Et : hour d * 3600 + minute d * 60 + second d + delta = t) by reflexivity.
  assert (Eo : ord = ymd2ord (year d) (month d) (day d) + t / 86400) by reflexivity.
  clearbody t ord.
  pose proof (Z.div_mod t 86400 ltac:(lia)) as E1.
  pose proof (Z.mod_pos_bound t 86400 ltac:(lia)) as B1.
  set (t' := t mod 86400) in *. clearbody t'.
  pose proof (Z.div_mod t' 3600 ltac:(lia)) as E2.
  pose proof (Z.div_mod t' 60 ltac:(lia)) as E3.
  pose proof (Z.mod_pos_bound t' 60 ltac:(lia)) as B3.
  pose proof (Z.div_mod (t' / 60) 60 ltac:(lia)) as E4.
  pose proof (Z.mod_pos_bound (t' / 60) 60 ltac:(lia)) as B4.
  assert (E5 : t' / 3600 = t' / 60 / 60)
    by (rewrite Z.div_div by lia; reflexivity).
  lia.
Qed.

(** Conversion to UTC gives a datetime with offset zero that stands for
    the same instant. *)
Lemma astimezone_UTC_exact a utc :
  astimezone UTC a = Ret utc -> utcoffset utc = 0 /\ instant utc = instant a.
Proof.
  unfold astimezone. intros H.
  apply res_bind_Ret_inv in H as (u & Hu & H).
  apply res_bind_Ret_inv in H as (w & Hw & H).
  inversion H; subst utc; clear H. simpl in *. split; [reflexivity|].
  unfold instant. simpl.
  rewrite (add_seconds_exact _ _ _ Hw), (add_seconds_exact _ _ _ Hu). lia.
Qed.

Lemma days_before_month_bounds leap m :
  1 <= m <= 12 -> 0 <= days_before_month leap m <= 335.
Proof.
  intros Hm.
  assert (C : m = 1 \/ m = 2 \/ m = 3 \/ m = 4 \/ m = 5 \/ m = 6 \/ m = 7 \/
              m = 8 \/ m = 9 \/ m = 10 \/ m = 11 \/ m = 12) by lia.
  destruct leap;
    repeat (destruct C as [-> | C]; [vm_compute; split; discriminate|]);
    subst; vm_compute; split; discriminate.
Qed.

Lemma days_in_month_bounds leap m : 28 <= days_in_month leap m <= 31.
Proof.
  unfold days_in_month.
  destruct (m =? 2); [destruct leap; lia|].
  destruct ((m =? 4) || (m =? 6) || (m =? 9) || (m =? 11)); lia.
Qed.

Lemma max_ordinal : ymd2ord MAXYEAR 12 31 = 3652059.
Proof. reflexivity. Qed.

(** The ordinals of the valid dates of the years 2 to 9998 leave a year
    of room at either end. *)
Lemma ymd2ord_bounds d :
  valid_datetime d = true -> 2 <= year d <= 9998 ->
  366 <= ymd2ord (year d) (month d) (day d) <= 3652059 - 1 /\
  0 <= hour d * 3600 + minute d * 60 + second d < 86400.
Proof.
  unfold valid_datetime. intros Hv Hy.
  repeat (apply andb_true_iff in Hv as [Hv ?]).
  repeat match goal with H : (_ <=? _) = true |- _ => apply Z.leb_le in H end.
  pose proof (days_in_month_bounds (is_leap (year d)) (month d)) as Hdim.
  pose proof (days_before_month_bounds (is_leap (year d)) (month d) ltac:(lia)) as Hdbm.
  split; [|lia].
  unfold ymd2ord, days_before_year.
  pose proof (Z.div_mod (year d - 1) 4 ltac:(lia)).
  pose proof (Z.mod_pos_bound (year d - 1) 4 ltac:(lia)).
  pose proof (Z.div_mod (year d - 1) 100 ltac:(lia)).
  pose proof (Z.mod_pos_bound (year d - 1) 100 ltac:(lia)).
  pose proof (Z.div_mod (year d - 1) 400 ltac:(lia)).
  pose proof (Z.mod_pos_bound (year d - 1) 400 ltac:(lia)).
  lia.
Qed.

(** Within that room, adding at most a day in either direction stays
    inside the calendar. *)
Lemma add_seconds_returns d delta :
  2 <= ymd2ord (year d) (month d) (day d) <= 3652059 - 1 ->
  0 <= hour d * 3600 + minute d * 60 + second d < 86400 ->
  -86400 <= delta <= 86400 ->
  exists d', add_seconds d delta = Ret d'.
Proof.
  intros Ho Ht Hd. unfold add_seconds. rewrite max_ordinal.
  set (t := hour d * 3600 + minute d * 60 + second d + delta).
  assert (Hq : -1 <= t / 86400 <= 1).
  { subst t. split.
    - apply Z.div_le_lower_bound; lia.
    - apply Z.lt_succ_r. apply Z.div_lt_upper_bound; lia. }
  destruct (Z.ltb_spec (ymd2ord (year d) (month d) (day d) + t / 86400) 1); [lia|].
  destruct (Z.ltb_spec 3652059 (ymd2ord (year d) (month d) (day d) + t / 86400)); [lia|].
  simpl. destruct (ord2ymd _) as [[y m] dd]. eauto.
Qed.

(** The fields that [add_seconds] returns are again a date within the
    calendar and a time of day. *)
Lemma add_seconds_fields d delta d' :
  add_seconds d delta = Ret d' ->
  1 <= ymd2ord (year d') (month d') (day d') <= 3652059 /\
  0 <= hour d' * 3600 + minute d' * 60 + second d' < 86400.
Proof.
  unfold add_seconds. rewrite max_ordinal.
  set (t := hour d * 3600 + minute d * 60 + second d + delta).
  set (ord := ymd2ord (year d) (month d) (day d) + t / 86400).
  destruct (Z.ltb_spec ord 1) as [|Hlo]; simpl; [discriminate|].
  destruct (Z.ltb_spec 3652059 ord) as [|Hhi]; [discriminate|].
  pose proof (ymd2ord_ord2ymd ord Hlo) as Hrt.
  destruct (ord2ymd ord) as [[y m] dd].
  intros H. inversion H; subst d'; clear H. simpl.
  rewrite Hrt. split; [lia|].
  clearbody t ord.
  pose proof (Z.mod_pos_bound t 86400 ltac:(lia)) as B1.
  set (t' := t mod 86400) in *. clearbody t'.
  pose proof (Z.div_mod t' 60 ltac:(lia)) as E3.
  pose proof (Z.mod_pos_bound t' 60 ltac:(lia)) as B3.
  pose proof (Z.div_mod (t' / 60) 60 ltac:(lia)) as E4.
  pose proof (Z.mod_pos_bound (t' / 60) 60 ltac:(lia)) as B4.
  assert (E5 : t' / 3600 = t' / 60 / 60)
    by (rewrite Z.div_div by lia; reflexivity).
  lia.
Qed.

Lemma valid_datetime_fields d :
  valid_datetime d = true ->
  1 <= year d <= 9999 /\ 1 <= month d <= 12 /\
  1 <= day d <= days_in_month (is_leap (year d)) (month d) /\
  0 <= hour d <= 23 /\ 0 <= minute d <= 59 /\ 0 <= second d <= 59.
Proof.
  unfold valid_datetime, MINYEAR, MAXYEAR. intros Hv.
  repeat (apply andb_true_iff in Hv as [Hv ?]).
  repeat match goal with H : (_ <=? _) = true |- _ => apply Z.leb_le in H end.
  lia.
Qed.

(** The ordinals of the valid dates other than the first and the last
    day of the calendar leave a day of room at either end. *)
Lemma ymd2ord_inner d :
  valid_datetime d = true -> on_edge_day d = false ->
  2 <= ymd2ord (year d) (month d) (day d) <= 3652059 - 1 /\
  0 <= hour d * 3600 + minute d * 60 + second d < 86400.
Proof.
  intros Hv He.
  destruct (Z_le_dec 2 (year d)) as [Hlo|Hlo];
    [destruct (Z_le_dec (year d) 9998) as [Hhi|Hhi]|].
  { destruct (ymd2ord_bounds d Hv ltac:(lia)) as [Ho Ht]. split; [lia | exact Ht]. }
  all: destruct (valid_datetime_fields d Hv) as (Vy & Vm & Vd & Vh & Vmi & Vs);
    unfold on_edge_day, MINYEAR, MAXYEAR in He;
    destruct d as [y mo dd h mi sec]; simpl in *; (split; [|lia]).
  - assert (y = 9999) by lia. subst y.
    replace (9999 =? 1) with false in He by reflexivity.
    replace (9999 =? 9999) with true in He by reflexivity. simpl in He.
    replace (is_leap 9999) with false in Vd by reflexivity.
    unfold ymd2ord.
    replace (days_before_year 9999) with 3651694 by reflexivity.
    replace (is_leap 9999) with false by reflexivity.
    assert (C : mo = 1 \/ mo = 2 \/ mo = 3 \/ mo = 4 \/ mo = 5 \/ mo = 6 \/
                mo = 7 \/ mo = 8 \/ mo = 9 \/ mo = 10 \/ mo = 11 \/ mo = 12) by lia.
    destruct C as [-> | [-> | [-> | [-> | [-> | [-> | [-> | [-> | [-> | [-> | [-> | ->]]]]]]]]]]];
      vm_compute days_in_month in Vd; vm_compute days_before_month; lia.
  - assert (y = 1) by lia. subst y.
    replace (1 =? 9999) with false in He by reflexivity.
    replace (1 =? 1) with true in He by reflexivity. simpl in He.
    rewrite orb_false_r in He.
    replace (is_leap 1) with false in Vd by reflexivity.
    unfold ymd2ord.
    replace (days_before_year 1) with 0 by reflexivity.
    replace (is_leap 1) with false by reflexivity.
    assert (C : mo = 1 \/ mo = 2 \/ mo = 3 \/ mo = 4 \/ mo = 5 \/ mo = 6 \/
                mo = 7 \/ mo = 8 \/ mo = 9 \/ mo = 10 \/ mo = 11 \/ mo = 12) by lia.
    destruct C as [-> | [-> | [-> | [-> | [-> | [-> | [-> | [-> | [-> | [-> | [-> | ->]]]]]]]]]]];
      vm_compute days_in_month in Vd; vm_compute days_before_month; lia.
Qed.

(** Adding whole days moves the ordinal by that many days, and leaves
    the calendar when the ordinal does. *)
Lemma add_days_overflow d n delta :
  delta = n * 86400 ->
  0 <= hour d * 3600 + minute d * 60 + second d < 86400 ->
  (ymd2ord (year d) (month d) (day d) + n <? 1)
  || (3652059 <? ymd2ord (year d) (month d) (day d) + n) = true ->
  add_seconds d delta = Raise OverflowError.
Proof.
  intros -> Ht Ho. unfold add_seconds. rewrite max_ordinal.
  rewrite Z.div_add, (Z.div_small _ 86400), Z.add_0_l by lia.
  now rewrite Ho.
Qed.

(** [localize] returns on every valid date but the first and the last
    day of the calendar, and raises [OverflowError] on these two. *)
Lemma localize_returns tz d :
  valid_datetime d = true -> on_edge_day d = false ->
  localize tz d = Ret (mkaware d (localize_offset tz d)).
Proof.
  intros Hv He. destruct (ymd2ord_inner d Hv He) as [Ho Ht].
  destruct (add_seconds_returns d (-86400) Ho Ht ltac:(lia)) as (d1 & E1).
  destruct (add_seconds_returns d 86400 Ho Ht ltac:(lia)) as (d2 & E2).
  unfold localize. rewrite E1, E2. reflexivity.
Qed.

Lemma localize_overflows tz d :
  valid_datetime d = true -> on_edge_day d = true ->
  localize tz d = Raise OverflowError.
Proof.
  intros Hv He.
  assert (Ht : 0 <= hour d * 3600 + minute d * 60 + second d < 86400)
    by (destruct (valid_datetime_fields d Hv) as (_ & _ & _ & ? & ? & ?); lia).
  unfold on_edge_day, MINYEAR, MAXYEAR in He. unfold localize.
  apply orb_true_iff in He as [He|He];
    apply andb_true_iff in He as [He Hd]; apply andb_true_iff in He as [Hy Hm];
    apply Z.eqb_eq in Hy, Hm, Hd.
  - rewrite (add_days_overflow d (-1) (-86400) eq_refl Ht); [reflexivity|].
    rewrite Hy, Hm, Hd. reflexivity.
  - assert (E1 : exists d1, add_seconds d (-86400) = Ret d1).
    { unfold add_seconds. rewrite max_ordinal.
      replace (hour d * 3600 + minute d * 60 + second d + -86400)
        with (hour d * 3600 + minute d * 60 + second d + (-1) * 86400) by lia.
      rewrite Z.div_add, (Z.div_small _ 86400), Z.add_0_l by lia.
      rewrite Hy, Hm, Hd.
      replace (ymd2ord 9999 12 31 + -1) with 3652058 by reflexivity.
      simpl. destruct (ord2ymd 3652058) as [[y m] dd]. eauto. }
    destruct E1 as (d1 & E1). rewrite E1. simpl.
    rewrite (add_days_overflow d 1 86400 eq_refl Ht); [reflexivity|].
    rewrite Hy, Hm, Hd. reflexivity.
Qed.

(** Conversion to UTC returns for every valid wall-clock time but those
    of the first and the last day, when the offset is at most a day. *)
Lemma astimezone_UTC_returns d off :
  valid_datetime d = true -> on_edge_day d = false ->
  -86400 <= off <= 86400 ->
  exists utc, astimezone UTC (mkaware d off) = Ret utc.
Proof.
  intros Hv Hy Hoff.
  destruct (ymd2ord_inner d Hv Hy) as [Ho Ht].
  destruct (add_seconds_returns d (- off) Ho Ht ltac:(lia)) as (u & Hu).
  destruct (add_seconds_fields _ _ _ Hu) as [Ho' Ht'].
  unfold astimezone. simpl wall. simpl utcoffset. rewrite Hu. simpl.
  assert (H0 : exists w, add_seconds u 0 = Ret w).
  { unfold add_seconds. rewrite max_ordinal, Z.add_0_r.
    rewrite (Z.div_small _ 86400) by lia. rewrite Z.add_0_r.
    destruct (Z.ltb_spec (ymd2ord (year u) (month u) (day u)) 1); [lia|].
    destruct (Z.ltb_spec 3652059 (ymd2ord (year u) (month u) (day u))); [lia|].
    simpl. destruct (ord2ymd _) as [[y m] dd]. eauto. }
  destruct H0 as (w & Hw). rewrite Hw. simpl. eauto.
Qed.

Lemma strptime_valid lt s fmt d :
  strptime lt s fmt = Ret d -> valid_datetime d = true.
Proof.
  unfold strptime. intros H.
  apply res_bind_Ret_inv in H as (rs & _ & H).
  destruct (re_match true (cats rs) s) as [m|]; [|discriminate].
  destruct (negb (m_end m =? String.length s)%nat); [discriminate|].
  apply res_bind_Ret_inv in H as (y & _ & H).
  apply res_bind_Ret_inv in H as (mo & _ & H).
  apply res_bind_Ret_inv in H as (dd & _ & H).
  apply res_bind_Ret_inv in H as (h & _ & H).
  apply res_bind_Ret_inv in H as (mi & _ & H).
  apply res_bind_Ret_inv in H as (sec & _ & H).
  destruct (valid_datetime (mkdatetime y mo dd h mi sec)) eqn:E; [|discriminate].
  inversion H; subst. exact E.
Qed.

(** ** What [strptime] reads from the text *)

Lemma rsem_group_free ic r p s g w s' g' :
  rsem ic r p s g w s' g' -> group_free r = true -> g' = g.
Proof.
  induction 1; simpl; intros Hf; try reflexivity; try discriminate.
  - apply andb_true_iff in Hf as [H1 H2].
    rewrite (IHrsem2 H2). now apply IHrsem1.
  - apply andb_true_iff in Hf as [H1 _]. now apply IHrsem.
  - apply andb_true_iff in Hf as [_ H2]. now apply IHrsem.
Qed.

Lemma append_length_nil (w s' : string) :
  String.length w = String.length (w ++ s') -> s' = ""%string.
Proof.
  rewrite length_append. destruct s'; [reflexivity | simpl; lia].
Qed.

Lemma lower_et a b :
  chr_eq true "E" a = true -> chr_eq true "T" b = true ->
  lower (String a (String b "")) = "et"%string.
Proof.
  unfold chr_eq, lower. simpl. intros Ha Hb.
  apply Ascii.eqb_eq in Ha, Hb. now rewrite Ha, Hb.
Qed.

(** Matched without regard to case, the colon, the slash and the dash
    still stand for themselves only. *)
Lemma chr_eq_punct b a :
  b = ":"%char \/ b = "/"%char \/ b = "-"%char ->
  chr_eq true b a = true -> a = b.
Proof.
  intros [-> | [-> | ->]] H;
    destruct a as [[] [] [] [] [] [] [] []]; vm_compute in H;
    first [ discriminate | reflexivity ].
Qed.

Lemma strptime_shows lt s d :
  strptime lt s date_format = Ret d -> shows s d.
Proof.
  unfold strptime. intros H.
  destruct (format_regex lt date_format false) as [rs|e0] eqn:E;
    [|vm_compute in E; discriminate].
  vm_compute in E. inversion E; subst rs; clear E.
  simpl res_bind in H.
  destruct (re_match true _ s) as [m|] eqn:Hm; [|discriminate].
  destruct (Nat.eqb_spec (m_end m) (String.length s)) as [Hend|]; [|discriminate].
  simpl negb in H. cbv iota in H.
  destruct (re_match_sound _ _ _ _ Hm) as (w & s' & Hs & Hw).
  pose proof (rsem_split _ _ _ _ _ _ _ _ Hs) as Hsplit.
  assert (s' = ""%string).
  { apply (append_length_nil w). now rewrite <- Hsplit, <- Hw. }
  subst s'. rewrite append_nil_r in Hsplit. subst s.
  clear Hm. unfold field in H. simpl cats in Hs.
  rsem_all.
  repeat match goal with
  | Hx : rsem _ (Alt _ _) _ _ _ _ _ ?g1 |- _ =>
      apply rsem_group_free in Hx; [subst g1 | reflexivity]
  end.
  apply rsem_Group_inv in H16 as (g1 & H16 & Eg).
  apply rsem_group_free in H16; [subst g1 | reflexivity].
  rewrite Eg in H. clear Eg.
  change (dgroup "Y") with 89%nat in H. change (dgroup "m") with 109%nat in H.
  change (dgroup "d") with 100%nat in H. change (dgroup "H") with 72%nat in H.
  change (dgroup "M") with 77%nat in H. change (dgroup "S") with 83%nat in H.
  repeat first [ rewrite lookup_insert_eq in H
               | rewrite lookup_insert_ne in H by discriminate ].
  apply res_bind_Ret_inv in H as (y & Hy & H).
  apply res_bind_Ret_inv in H as (mo & Hmo & H).
  apply res_bind_Ret_inv in H as (dd & Hdd & H).
  apply res_bind_Ret_inv in H as (h & Hh & H).
  apply res_bind_Ret_inv in H as (mi & Hmi & H).
  apply res_bind_Ret_inv in H as (sec & Hsec & H).
  destruct (valid_datetime _); [|discriminate].
  inversion H; subst d; clear H.
  simpl in Hcls12, Hcls11, Hcls6, Hcls0, Hcls, Hcls10, Hcls7, Hcls5.
  apply chr_eq_punct in Hcls12; [|now left].
  apply chr_eq_punct in Hcls11; [|now left].
  apply chr_eq_punct in Hcls6; [|now right; right].
  apply chr_eq_punct in Hcls0; [|now right; left].
  apply chr_eq_punct in Hcls; [|now right; left].
  subst a12 a11 a6 a0 a.
  exists w0, w1, w3, (String a10 w18), (String a9 (String a8 "")),
    (String a7 w17), (String a5 w16),
    (String a4 (String a3 (String a2 (String a1 "")))), w12, w15.
  split; [simpl; reflexivity|].
  split; [split; [discriminate | simpl; now rewrite Hcls10]|].
  split; [now apply lower_et|].
  split; [split; [discriminate | simpl; now rewrite Hcls7]|].
  split; [split; [discriminate | simpl; now rewrite Hcls5]|].
  simpl. auto 10.
Qed.

(** ** The header *)

#[local] Arguments strptime : simpl never.
#[local] Arguments astimezone : simpl never.
#[local] Arguments set_attr : simpl never.

(** The two steps of the date, [localize] and [astimezone], taken
    together. *)
Lemma bind_to_utc {B} ET naive (k : aware -> M B) self :
  bind (lift (localize ET naive))
    (fun date => bind (lift (astimezone UTC date)) k) self
  = bind (lift (res_bind (localize ET naive) (astimezone UTC))) k self.
Proof. unfold bind, lift. destruct (localize ET naive); reflexivity. Qed.

(** The header step returns when the first fragment matches the header
    pattern, both blinds are decimals, the date parses and is converted
    to UTC, and the game is in the table. *)
Lemma parse_header_ok GAMES ET host self line m sb bb naive utc game :
  getitem (_splitted self) 0 = Ret line ->
  re_match false _header_pattern line = Some m ->
  Decimal_of_str (grp m g_sb) = Ret sb ->
  Decimal_of_str (grp m g_bb) = Ret bb ->
  strptime host (grp m g_date) date_format = Ret naive ->
  res_bind (localize ET naive) (astimezone UTC) = Ret utc ->
  GAMES !! grp m g_game = Some game ->
  parse_header GAMES ET host self = (Ret tt, header_set m sb bb utc game self).
Proof.
  intros Hl Hm Hsb Hbb Hd Hu Hg.
  unfold parse_header.
  rewrite bind_splitted, (bind_lift_Ret _ _ _ _ Hl), Hm. cbv zeta.
  rewrite bind_setattr, (bind_lift_Ret _ sb) by exact Hsb.
  rewrite bind_setattr, (bind_lift_Ret _ bb) by exact Hbb.
  rewrite bind_setattr, (bind_lift_Ret _ naive) by exact Hd.
  rewrite bind_to_utc, (bind_lift_Ret _ utc) by exact Hu.
  rewrite bind_setattr, (bind_lift_Ret _ game) by (change (of_option KeyError (GAMES !! grp m g_game) = Ret game);
        now rewrite Hg).
  rewrite bind_setattr, (bind_lift_Ret _ (grp m g_limit)) by reflexivity.
  rewrite bind_setattr, (bind_lift_Ret _ (grp m g_ident)) by reflexivity.
  rewrite bind_setattr, (bind_lift_Ret _ (grp m g_tournament_ident)) by reflexivity.
  rewrite bind_setattr, (bind_lift_Ret _ (grp m g_tournament_name)) by reflexivity.
  rewrite bind_setattr, (bind_lift_Ret _ (grp m g_table_name)) by reflexivity.
  rewrite !bind_setattr. reflexivity.
Qed.

Lemma parse_header_inv GAMES ET host self self' :
  parse_header GAMES ET host self = (Ret tt, self') ->
  exists line m sb bb naive utc game,
    getitem (_splitted self) 0 = Ret line /\
    re_match false _header_pattern line = Some m /\
    Decimal_of_str (grp m g_sb) = Ret sb /\
    Decimal_of_str (grp m g_bb) = Ret bb /\
    strptime host (grp m g_date) date_format = Ret naive /\
    res_bind (localize ET naive) (astimezone UTC) = Ret utc /\
    GAMES !! grp m g_game = Some game /\
    self' = header_set m sb bb utc game self.
Proof.
  intros H.
  destruct (getitem (_splitted self) 0) as [line|e] eqn:Hl.
  2:{ unfold parse_header in H.
      rewrite bind_splitted, (bind_lift_Raise _ _ _ _ Hl) in H. discriminate. }
  destruct (re_match false _header_pattern line) as [m|] eqn:Hm.
  2:{ unfold parse_header in H.
      rewrite bind_splitted, (bind_lift_Ret _ _ _ _ Hl), Hm in H. cbv zeta in H.
      rewrite bind_setattr, (bind_lift_Raise _ AttributeError) in H by reflexivity.
      discriminate. }
  destruct (Decimal_of_str (grp m g_sb)) as [sb|e] eqn:Hsb.
  2:{ unfold parse_header in H.
      rewrite bind_splitted, (bind_lift_Ret _ _ _ _ Hl), Hm in H. cbv zeta in H.
      rewrite bind_setattr, (bind_lift_Raise _ e) in H by exact Hsb.
      discriminate. }
  destruct (Decimal_of_str (grp m g_bb)) as [bb|e] eqn:Hbb.
  2:{ unfold parse_header in H.
      rewrite bind_splitted, (bind_lift_Ret _ _ _ _ Hl), Hm in H. cbv zeta in H.
      rewrite bind_setattr, (bind_lift_Ret _ sb) in H by exact Hsb.
      rewrite bind_setattr, (bind_lift_Raise _ e) in H by exact Hbb.
      discriminate. }
  destruct (strptime host (grp m g_date) date_format) as [naive|e] eqn:Hd.
  2:{ unfold parse_header in H.
      rewrite bind_splitted, (bind_lift_Ret _ _ _ _ Hl), Hm in H. cbv zeta in H.
      rewrite bind_setattr, (bind_lift_Ret _ sb) in H by exact Hsb.
      rewrite bind_setattr, (bind_lift_Ret _ bb) in H by exact Hbb.
      rewrite bind_setattr, (bind_lift_Raise _ e) in H by exact Hd.
      discriminate. }
  destruct (res_bind (localize ET naive) (astimezone UTC)) as [utc|e] eqn:Hu.
  2:{ unfold parse_header in H.
      rewrite bind_splitted, (bind_lift_Ret _ _ _ _ Hl), Hm in H. cbv zeta in H.
      rewrite bind_setattr, (bind_lift_Ret _ sb) in H by exact Hsb.
      rewrite bind_setattr, (bind_lift_Ret _ bb) in H by exact Hbb.
      rewrite bind_setattr, (bind_lift_Ret _ naive) in H by exact Hd.
      rewrite bind_to_utc, (bind_lift_Raise _ e) in H by exact Hu.
      discriminate. }
  destruct (GAMES !! grp m g_game) as [game|] eqn:Hg.
  2:{ unfold parse_header in H.
      rewrite bind_splitted, (bind_lift_Ret _ _ _ _ Hl), Hm in H. cbv zeta in H.
      rewrite bind_setattr, (bind_lift_Ret _ sb) in H by exact Hsb.
      rewrite bind_setattr, (bind_lift_Ret _ bb) in H by exact Hbb.
      rewrite bind_setattr, (bind_lift_Ret _ naive) in H by exact Hd.
      rewrite bind_to_utc, (bind_lift_Ret _ utc) in H by exact Hu.
      rewrite bind_setattr, (bind_lift_Raise _ KeyError) in H
        by (change (of_option KeyError (GAMES !! grp m g_game) = Raise KeyError);
            now rewrite Hg).
      discriminate. }
  rewrite (parse_header_ok _ _ _ _ _ _ _ _ _ _ _ Hl Hm Hsb Hbb Hd Hu Hg) in H.
  inversion H. exists line, m, sb, bb, naive, utc, game.
  split; [reflexivity|]. split; [exact Hm|]. split; [exact Hsb|].
  split; [exact Hbb|]. split; [exact Hd|]. split; [exact Hu|].
  split; [exact Hg | reflexivity].
Qed.

(** ** The claims about the header *)

(** The room's format has no directive that consults the host, so the
    pattern built from it is the same on every host. *)
Lemma format_regex_host lt lt' :
  format_regex lt date_format false = format_regex lt' date_format false.
Proof. reflexivity. Qed.

Lemma strptime_host lt lt' s :
  strptime lt s date_format = strptime lt' s date_format.
Proof. unfold strptime. now rewrite (format_regex_host lt lt'). Qed.

(** The header step reads the host through [strptime] only, and there
    only through the pattern of the format: it is the same computation on
    every host. *)
Lemma parse_header_host GAMES ET host host' :
  parse_header GAMES ET host' = parse_header GAMES ET host.
Proof. reflexivity. Qed.

(** [strptime] itself does read the host: with a zone-name directive the
    same text parses on one host and not on another. *)
Lemma strptime_reads_host :
  strptime host_ex "cet 21" "%Z %H" = Ret (mkdatetime 1900 1 1 21 0 0) /\
  strptime host_ex2 "cet 21" "%Z %H" = Raise ValueError.
Proof. split; vm_compute; reflexivity. Qed.

Ltac header_lookup :=
  unfold header_set; rewrite ?attrs_set_attr;
  repeat first [ apply lookup_insert_eq
               | rewrite lookup_insert_ne by discriminate ].

Lemma header_set_lookup m sb bb date game self :
  let h := header_set m sb bb date game self in
  attrs h !! "sb"%string = Some (VDecimal sb) /\
  attrs h !! "bb"%string = Some (VDecimal bb) /\
  attrs h !! "date"%string = Some (VDatetime date) /\
  attrs h !! "limit"%string = Some (VStr (grp m g_limit)) /\
  attrs h !! "game_type"%string = Some (VStr "TOUR") /\
  attrs h !! "tournament_level"%string = Some VNone /\
  attrs h !! "buyin"%string = Some VNone /\
  attrs h !! "rake"%string = Some VNone /\
  attrs h !! "currency"%string = Some VNone.
Proof.
  intros h. subst h.
  split; [header_lookup|]. split; [header_lookup|]. split; [header_lookup|].
  split; [header_lookup|]. split; [header_lookup|]. split; [header_lookup|].
  split; [header_lookup|]. split; [header_lookup|]. header_lookup.
Qed.

(** C6. A header whose timestamp matches the room's format is read on
    the room's Eastern clock: the date and time that [strptime] returns
    are the numbers the timestamp shows.  Unless that date is the first
    or the last day of the calendar, the header step stores one UTC
    datetime: its offset is zero, it stands for exactly the instant that
    the Eastern wall-clock time stands for, and the host's own zone
    plays no part (the step is the same computation on every host).  On
    the first and the last day [localize] cannot look a day back and a
    day ahead: the step raises [OverflowError] on every host, after the
    blinds have been assigned, and stores no date.  The zone's offset is
    at most a day, as a [tzinfo] requires. *)
Theorem header_date_is_one_utc_instant GAMES ET host (self : FullTiltHand)
    (line : string) (m : Match) (sb bb : Decimal) (naive : datetime)
    (game : string) :
  getitem (_splitted self) 0 = Ret line ->
  re_match false _header_pattern line = Some m ->
  Decimal_of_str (grp m g_sb) = Ret sb ->
  Decimal_of_str (grp m g_bb) = Ret bb ->
  strptime host (grp m g_date) date_format = Ret naive ->
  -86400 <= localize_offset ET naive <= 86400 ->
  GAMES !! grp m g_game = Some game ->
  shows (grp m g_date) naive /\
  (on_edge_day naive = false ->
   exists self' utc,
     parse_header GAMES ET host self = (Ret tt, self') /\
     attrs self' !! "date"%string = Some (VDatetime utc) /\
     utcoffset utc = 0 /\
     instant utc = to_seconds naive - localize_offset ET naive /\
     forall host', parse_header GAMES ET host' self = (Ret tt, self')) /\
  (on_edge_day naive = true ->
   forall host',
     parse_header GAMES ET host' self
     = (Raise OverflowError,
        set_attr "bb" (VDecimal bb) (set_attr "sb" (VDecimal sb)
          (set_attr "game_type" (VStr "TOUR") self)))).
Proof.
  intros Hl Hm Hsb Hbb Hd Hoff Hg.
  pose proof (strptime_valid _ _ _ _ Hd) as Hv.
  split; [exact (strptime_shows _ _ _ Hd)|]. split.
  - intros He.
    destruct (astimezone_UTC_returns naive (localize_offset ET naive) Hv He Hoff)
      as (utc & Hu).
    assert (Hu' : res_bind (localize ET naive) (astimezone UTC) = Ret utc)
      by (rewrite (localize_returns ET naive Hv He); exact Hu).
    pose proof (parse_header_ok _ _ _ _ _ _ _ _ _ _ _ Hl Hm Hsb Hbb Hd Hu' Hg) as Hp.
    exists (header_set m sb bb utc game self), utc.
    split; [exact Hp|].
    split; [apply (header_set_lookup m sb bb utc game self)|].
    destruct (astimezone_UTC_exact _ _ Hu) as [Hoff0 Hinst].
    split; [exact Hoff0|]. split; [exact Hinst|].
    intros host'. rewrite (parse_header_host GAMES ET host host'). exact Hp.
  - intros He host'. rewrite (parse_header_host GAMES ET host host').
    unfold parse_header.
    rewrite bind_splitted, (bind_lift_Ret _ _ _ _ Hl), Hm. cbv zeta.
    rewrite bind_setattr, (bind_lift_Ret _ sb) by exact Hsb.
    rewrite bind_setattr, (bind_lift_Ret _ bb) by exact Hbb.
    rewrite bind_setattr, (bind_lift_Ret _ naive) by exact Hd.
    rewrite (bind_lift_Raise _ OverflowError)
      by exact (localize_overflows ET naive Hv He).
    reflexivity.
Qed.

Lemma header_date_is_one_utc_instant_witness :
  shows "21:05:00 ET - 2013/07/01" (mkdatetime 2013 7 1 21 5 0) /\
  exists self' utc,
    parse_header games_ex eastern_ex host_ex (unparsed hand_full) = (Ret tt, self') /\
    attrs self' !! "date"%string = Some (VDatetime utc) /\
    utc = mkaware (mkdatetime 2013 7 2 1 5 0) 0 /\
    instant utc
      = to_seconds (mkdatetime 2013 7 1 21 5 0)
        - localize_offset eastern_ex (mkdatetime 2013 7 1 21 5 0) /\
    forall host',
      parse_header games_ex eastern_ex host' (unparsed hand_full) = (Ret tt, self').
Proof.
  destruct (header_date_is_one_utc_instant games_ex eastern_ex host_ex
              (unparsed hand_full) header_ex header_match_ex
              (DFinite false 10 0) (DFinite false 20 0)
              (mkdatetime 2013 7 1 21 5 0) "HOLDEM"
              ltac:(vm_compute; reflexivity) ltac:(vm_compute; reflexivity)
              ltac:(vm_compute; reflexivity) ltac:(vm_compute; reflexivity)
              ltac:(vm_compute; reflexivity)
              ltac:(vm_compute; split; discriminate)
              ltac:(vm_compute; reflexivity))
    as (Hshows & Hret & _).
  split; [exact Hshows|].
  destruct (Hret eq_refl) as (self' & utc & Hp & Hdate & _ & Hinst & Hhost).
  exists self', utc. split; [exact Hp|]. split; [exact Hdate|].
  split; [|split; [exact Hinst | exact Hhost]].
  assert (E : attrs (parse_header games_ex eastern_ex host_ex (unparsed hand_full)).2
                !! "date"%string
              = Some (VDatetime (mkaware (mkdatetime 2013 7 2 1 5 0) 0)))
    by (vm_compute; reflexivity).
  rewrite Hp in E. simpl in E. congruence.
Defined.

(** A header dated on the last day of the calendar: its timestamp
    matches the room's format, and yet the header step raises and
    stores no date. *)
Lemma last_day_header_counterexample :
  getitem (_splitted (unparsed (with_header header_last_day))) 0
    = Ret header_last_day /\
  (exists m, re_match false _header_pattern header_last_day = Some m /\
             grp m g_date = "21:05:00 ET - 9999/12/31"%string) /\
  strptime host_ex "21:05:00 ET - 9999/12/31" date_format
    = Ret (mkdatetime 9999 12 31 21 5 0) /\
  (parse_header games_ex eastern_ex host_ex
     (unparsed (with_header header_last_day))).1 = Raise OverflowError /\
  attrs (parse_header games_ex eastern_ex host_ex
           (unparsed (with_header header_last_day))).2 !! "date"%string = None.
Proof.
  split; [vm_compute; reflexivity|].
  split; [eexists; split; vm_compute; reflexivity|].
  split; [vm_compute; reflexivity|].
  split; vm_compute; reflexivity.
Qed.

(** C7. The blinds are stored as the decimals that [Decimal] makes of
    the two blinds fields, with every digit in the coefficient: the
    strings 10 and 20 give the decimals 10 and 20, and every field that
    is a run of digits gives the integer it writes, with exponent zero.
    No binary fraction is involved. *)
Theorem blinds_are_exact_decimals GAMES ET host (self : FullTiltHand)
    (line : string) (m : Match) (sb bb : Decimal) (naive : datetime)
    (utc : aware) (game : string) :
  getitem (_splitted self) 0 = Ret line ->
  re_match false _header_pattern line = Some m ->
  Decimal_of_str (grp m g_sb) = Ret sb ->
  Decimal_of_str (grp m g_bb) = Ret bb ->
  strptime host (grp m g_date) date_format = Ret naive ->
  res_bind (localize ET naive) (astimezone UTC) = Ret utc ->
  GAMES !! grp m g_game = Some game ->
  exists self',
    parse_header GAMES ET host self = (Ret tt, self') /\
    attrs self' !! "sb"%string = Some (VDecimal sb) /\
    attrs self' !! "bb"%string = Some (VDecimal bb) /\
    (grp m g_sb = "10"%string -> sb = DFinite false 10 0) /\
    (grp m g_bb = "20"%string -> bb = DFinite false 20 0) /\
    (all_digits (grp m g_sb) = true -> sb = DFinite false (digits_val (grp m g_sb)) 0) /\
    (all_digits (grp m g_bb) = true -> bb = DFinite false (digits_val (grp m g_bb)) 0).
Proof.
  intros Hl Hm Hsb Hbb Hd Hu Hg.
  exists (header_set m sb bb utc game self).
  split; [exact (parse_header_ok _ _ _ _ _ _ _ _ _ _ _ Hl Hm Hsb Hbb Hd Hu Hg)|].
  split; [apply (header_set_lookup m sb bb utc game self)|].
  split; [apply (header_set_lookup m sb bb utc game self)|].
  split; [intros E; rewrite E in Hsb; vm_compute in Hsb; congruence|].
  split; [intros E; rewrite E in Hbb; vm_compute in Hbb; congruence|].
  split.
  - intros Hdig. destruct (grp m g_sb) as [|c s] eqn:E.
    + vm_compute in Hsb. discriminate.
    + rewrite Decimal_of_digits in Hsb by (try assumption; discriminate). congruence.
  - intros Hdig. destruct (grp m g_bb) as [|c s] eqn:E.
    + vm_compute in Hbb. discriminate.
    + rewrite Decimal_of_digits in Hbb by (try assumption; discriminate). congruence.
Qed.

Lemma blinds_are_exact_decimals_witness :
  grp header_match_ex g_sb = "10"%string /\
  grp header_match_ex g_bb = "20"%string /\
  exists self',
    parse_header games_ex eastern_ex host_ex (unparsed hand_full) = (Ret tt, self') /\
    attrs self' !! "sb"%string = Some (VDecimal (DFinite false 10 0)) /\
    attrs self' !! "bb"%string = Some (VDecimal (DFinite false 20 0)).
Proof.
  split; [vm_compute; reflexivity|]. split; [vm_compute; reflexivity|].
  destruct (blinds_are_exact_decimals games_ex eastern_ex host_ex
              (unparsed hand_full) header_ex header_match_ex
              (DFinite false 10 0) (DFinite false 20 0)
              (mkdatetime 2013 7 1 21 5 0)
              (mkaware (mkdatetime 2013 7 2 1 5 0) 0) "HOLDEM"
              ltac:(vm_compute; reflexivity) ltac:(vm_compute; reflexivity)
              ltac:(vm_compute; reflexivity) ltac:(vm_compute; reflexivity)
              ltac:(vm_compute; reflexivity) ltac:(vm_compute; reflexivity)
              ltac:(vm_compute; reflexivity))
    as (self' & Hp & Hsb & Hbb & _).
  exists self'. split; [exact Hp|]. split; [exact Hsb | exact Hbb].
Defined.

(** The steps after the header leave the header's attributes alone. *)
Lemma parse_keeps_header GAMES ET host self self' :
  parse GAMES ET host self = (Ret tt, self') ->
  exists h1,
    PokerHand_parse GAMES ET host self = (Ret tt, h1) /\
    forall k, k ∈ header_attrs -> attrs self' !! k = attrs h1 !! k.
Proof.
  intros H. destruct (parse_Ret_inv _ _ _ _ _ H)
    as (h1 & h2 & h3 & h4 & h5 & h6 & H1 & H2 & H3 & H4 & H5 & H6 & H7).
  exists h1. split; [exact H1|].
  destruct (frames_parse_seats _ _ _ H2) as (_ & _ & _ & K2).
  destruct (frames_parse_hole_cards _ _ _ H3) as (_ & _ & _ & K3).
  destruct (frames_parse_preflop _ _ _ H4) as (_ & _ & _ & K4).
  destruct (frames_parse_street _ _ _ _ H5) as (_ & _ & _ & K5).
  destruct (frames_parse_street _ _ _ _ H6) as (_ & _ & _ & K6).
  destruct (frames_parse_street _ _ _ _ H7) as (_ & _ & _ & K7).
  intros k Hk. unfold header_attrs in Hk.
  rewrite K7, K6, K5, K4, K3, K2; [reflexivity | ..]; names_in Hk; by_decide.
Qed.

(** C9. Every hand that parses is a no-limit tournament hand: the limit
    is NL, the game type is TOUR, and level, buy-in, rake and currency are
    [None].  The limit is the text of a group that matches the two
    letters NL only, so a header with another limit token does not match
    the header pattern at all. *)
Theorem parsed_hand_is_NL_tournament GAMES ET host (raw : string)
    (self : FullTiltHand) :
  __init__ GAMES ET host raw true = (Ret tt, self) ->
  attrs self !! "limit"%string = Some (VStr "NL") /\
  attrs self !! "game_type"%string = Some (VStr "TOUR") /\
  attrs self !! "tournament_level"%string = Some VNone /\
  attrs self !! "buyin"%string = Some VNone /\
  attrs self !! "rake"%string = Some VNone /\
  attrs self !! "currency"%string = Some VNone /\
  forall line m,
    re_match false _header_pattern line = Some m ->
    group m g_limit = Some "NL"%string /\
    exists ident tname tident table rest,
      all_digits table = true /\
      line = ("Full Tilt Poker Game #" ++ ident ++ ": " ++ tname ++ " ("
              ++ tident ++ "), Table " ++ table ++ " - NL " ++ rest)%string.
Proof.
  assert (Hlimit : forall line m,
    re_match false _header_pattern line = Some m ->
    group m g_limit = Some "NL"%string /\
    exists ident tname tident table rest,
      all_digits table = true /\
      line = ("Full Tilt Poker Game #" ++ ident ++ ": " ++ tname ++ " ("
              ++ tident ++ "), Table " ++ table ++ " - NL " ++ rest)%string).
  { intros line m Hm.
    destruct (header_match_shape _ _ Hm)
      as (ident & tname & tident & table & game & sb & bb & ldate & date & tail
          & Hline & _ & _ & _ & Htable & Hg).
    split.
    - unfold group. rewrite Hg. reflexivity.
    - exists ident, tname, tident, table,
        (game ++ " - " ++ sb ++ "/" ++ bb ++ " - " ++ ldate ++ " " ++ "["
         ++ date ++ "]" ++ tail)%string.
      split; [exact Htable|]. rewrite Hline. reflexivity. }
  unfold __init__. intros Hp.
  destruct (parse_keeps_header _ _ _ _ _ Hp) as (h1 & H1 & K).
  unfold PokerHand_parse in H1. simpl attrs in H1. rewrite lookup_empty in H1.
  destruct (parse_header_inv _ _ _ _ _ H1)
    as (line & m & sb & bb & naive & utc & game & _ & Hm & _ & _ & _ & _ & _ & ->).
  destruct (header_set_lookup m sb bb utc game
              (mkHand raw (re_split _split_pattern raw)
                 (empty_positions (re_split _split_pattern raw) 0) ∅))
    as (_ & _ & _ & Llimit & Ltype & Llevel & Lbuyin & Lrake & Lcur).
  assert (Hnl : grp m g_limit = "NL"%string).
  { unfold grp. now rewrite (proj1 (Hlimit _ _ Hm)). }
  rewrite Hnl in Llimit.
  unfold header_attrs in K.
  split; [rewrite K by in_names; exact Llimit|].
  split; [rewrite K by in_names; exact Ltype|].
  split; [rewrite K by in_names; exact Llevel|].
  split; [rewrite K by in_names; exact Lbuyin|].
  split; [rewrite K by in_names; exact Lrake|].
  split; [rewrite K by in_names; exact Lcur|].
  exact Hlimit.
Qed.

Lemma parsed_hand_is_NL_tournament_witness :
  (parsed hand_full).1 = Ret tt /\
  attrs (parsed hand_full).2 !! "limit"%string = Some (VStr "NL") /\
  attrs (parsed hand_full).2 !! "game_type"%string = Some (VStr "TOUR") /\
  attrs (parsed hand_full).2 !! "currency"%string = Some VNone.
Proof.
  assert (Hp : __init__ games_ex eastern_ex host_ex hand_full true
               = (Ret tt, (parsed hand_full).2))
    by (vm_compute; reflexivity).
  destruct (parsed_hand_is_NL_tournament _ _ _ _ _ Hp)
    as (Hl & Ht & _ & _ & _ & Hc & _).
  split; [vm_compute; reflexivity|].
  split; [exact Hl|]. split; [exact Ht | exact Hc].
Defined.

(** ** Seats *)

#[local] Arguments setitem : simpl never.
#[local] Arguments slice_from : simpl never.
#[local] Arguments OrderedDict : simpl never.

Lemma slice_from_1 {A} (l : list A) : slice_from l 1 = drop 1 l.
Proof.
  unfold slice_from, clip. destruct l as [|x l]; [reflexivity|].
  change (1 <? 0) with false. cbv iota.
  replace (Z.max 0 (Z.min (Z.of_nat (length (x :: l))) 1)) with 1
    by (simpl length; lia).
  reflexivity.
Qed.

Lemma getitem_0 {A} (x : A) l : getitem (x :: l) 0 = Ret x.
Proof. reflexivity. Qed.

Lemma seat_loop_line line rest players sn seat name stack players' :
  seat_line line seat name stack ->
  setitem players (seat - 1) (name, stack) = Ret players' ->
  seat_loop (line :: rest) players sn = seat_loop rest players' (Some seat).
Proof.
  intros (m & Hm & Hseat & Hname & Hstack) Hset.
  simpl. rewrite Hm. fold (grp m 1). rewrite Hseat. simpl.
  fold (grp m 2). fold (grp m 3). rewrite Hstack. simpl.
  rewrite Hname, Hset. reflexivity.
Qed.

Lemma seat_loop_end lines players sn :
  block_ends lines -> seat_loop lines players sn = Ret (players, sn).
Proof.
  destruct lines as [|line rest]; simpl; [reflexivity|].
  intros H. now rewrite H.
Qed.

(** The button is read from a one-digit group, so it always converts,
    and the nine-entry list has an entry for it: seat 0 counts from the
    end. *)
Lemma getitem_nine {A} (l : list A) i :
  length l = 9%nat -> -1 <= i <= 8 -> exists x, getitem l i = Ret x.
Proof.
  intros Hlen Hi. unfold getitem. rewrite Hlen.
  destruct (Z.ltb_spec i 0).
  - assert (i = -1) by lia. subst. simpl.
    do 9 (destruct l as [|? l]; [discriminate|]). simpl. eauto.
  - destruct (Z.ltb_spec i 0); [lia|].
    destruct (l !! Z.to_nat i) eqn:E; simpl; [eauto|].
    apply lookup_ge_None in E. lia.
Qed.

Lemma button_runs self (l : list string) (players : list (string * Z))
    sec0 secs bl mb :
  length players = 9%nat ->
  _sections self = sec0 :: secs ->
  getitem l (sec0 - 1) = Ret bl ->
  re_match false _button_pattern bl = Some mb ->
  exists seat name,
    (sec <- sections ;;
     sec0 <- lift (getitem sec 0) ;;
     button_line <- lift (getitem l (sec0 - 1)) ;;
     button_seat <- lift (res_bind (mgroup (re_match false _button_pattern button_line) 1) int) ;;
     setattr "button_seat" (VInt button_seat) ;;
     button <- lift (getitem players (button_seat - 1)) ;;
     setattr "button" (VStr button.1)) self
    = (Ret tt, set_attr "button" (VStr name) (set_attr "button_seat" (VInt seat) self)).
Proof.
  intros Hlen Hsec Hbl Hmb.
  destruct (button_match_shape _ _ Hmb) as (a & Ha & Hg).
  assert (Hint : res_bind (mgroup (Some mb) 1) int = Ret (digit_val a)).
  { simpl. unfold group. rewrite Hg, lookup_insert_eq. simpl. now apply int_digit. }
  pose proof (digit_val_range _ Ha) as Hr.
  destruct (getitem_nine players (digit_val a - 1) Hlen ltac:(lia)) as (x & Hx).
  exists (digit_val a), x.1.
  rewrite bind_sections, Hsec, (bind_lift_Ret _ sec0) by apply getitem_0.
  rewrite (bind_lift_Ret _ _ _ _ Hbl), Hmb, (bind_lift_Ret _ _ _ _ Hint).
  rewrite bind_setattr, (bind_lift_Ret _ _ _ _ Hx). reflexivity.
Qed.

(** [_parse_seats] once the loop has run: the last seat number read is
    [max_players], the list becomes the ordered dictionary, and the
    button is looked up. *)
Lemma parse_seats_runs self (players : list (string * Z)) sn sec0 secs bl mb :
  seat_loop (drop 1 (_splitted self)) empty_seats None = Ret (players, Some sn) ->
  length players = 9%nat ->
  _sections self = sec0 :: secs ->
  getitem (_splitted self) (sec0 - 1) = Ret bl ->
  re_match false _button_pattern bl = Some mb ->
  exists seat name,
    _parse_seats self =
      (Ret tt,
       set_attr "button" (VStr name) (set_attr "button_seat" (VInt seat)
         (set_attr "players" (VOrderedDict (OrderedDict players))
            (set_attr "max_players" (VInt sn) self)))).
Proof.
  intros Hloop Hlen Hsec Hbl Hmb.
  destruct (button_runs
              (set_attr "players" (VOrderedDict (OrderedDict players))
                 (set_attr "max_players" (VInt sn) self))
              (_splitted self) players sec0 secs bl mb Hlen Hsec Hbl Hmb)
    as (seat & name & Hb).
  exists seat, name. unfold _parse_seats.
  rewrite bind_splitted, slice_from_1, (bind_lift_Ret _ _ _ _ Hloop).
  rewrite (bind_lift_Ret _ sn) by reflexivity.
  rewrite !bind_setattr. exact Hb.
Qed.

(** Without a first seat line the loop body never runs, the local
    variable [seat_number] is still unbound after the loop, and reading it
    raises. *)
Lemma parse_seats_unbound self :
  (forall line, _splitted self !! 1%nat = Some line ->
                re_match false _seat_pattern line = None) ->
  _parse_seats self = (Raise UnboundLocalError, self).
Proof.
  intros H. unfold _parse_seats.
  assert (Hloop : seat_loop (drop 1 (_splitted self)) empty_seats None
                  = Ret (empty_seats, None)).
  { apply seat_loop_end. destruct (_splitted self) as [|x [|line rest]]; simpl; auto. }
  rewrite bind_splitted, slice_from_1, (bind_lift_Ret _ _ _ _ Hloop).
  rewrite (bind_lift_Raise _ UnboundLocalError) by reflexivity. reflexivity.
Qed.

(** ** The claims about seats and the hero *)

Lemma od_set_keys k v d :
  keys (od_set k v d) = (keys d ++ (if decide (k ∈ keys d) then [] else [k]))%list.
Proof.
  unfold keys. induction d as [|[k' v'] d IH].
  - cbn [od_set]. rewrite fmap_cons, !fmap_nil.
    destruct (decide (k ∈ [])) as [Hin|_]; [|reflexivity].
    apply elem_of_nil in Hin. contradiction.
  - cbn [od_set]. destruct (decide (k' = k)) as [->|Hne].
    + rewrite !fmap_cons. cbn [fst].
      destruct (decide (k ∈ k :: d.*1)) as [_|Hout].
      * now rewrite app_nil_r.
      * exfalso. apply Hout. apply list_elem_of_here.
    + rewrite !fmap_cons, IH. cbn [fst]. rewrite <- app_comm_cons. f_equal.
      destruct (decide (k ∈ d.*1)) as [Hin|Hout];
        destruct (decide (k ∈ k' :: d.*1)) as [Hin'|Hout']; try reflexivity.
      * exfalso. apply Hout'. now apply list_elem_of_further.
      * exfalso. apply elem_of_cons in Hin' as [->|Hin']; contradiction.
Qed.

Lemma od_set_NoDup k v d : NoDup (keys d) -> NoDup (keys (od_set k v d)).
Proof.
  intros Hd. rewrite od_set_keys. destruct (decide (k ∈ keys d)) as [Hin|Hout].
  - now rewrite app_nil_r.
  - apply NoDup_app. split; [exact Hd|]. split.
    + intros x Hx Hx'. apply list_elem_of_singleton in Hx'. subst. contradiction.
    + apply NoDup_singleton.
Qed.

(** The keys of an ordered dictionary are distinct. *)
Lemma OrderedDict_NoDup pairs : NoDup (keys (OrderedDict pairs)).
Proof.
  unfold OrderedDict.
  assert (G : forall acc, NoDup (keys acc) ->
              NoDup (keys (foldl (fun d kv => od_set kv.1 kv.2 d) acc pairs))).
  { induction pairs as [|[k v] pairs IH]; intros acc Hacc; simpl; [exact Hacc|].
    apply IH. now apply od_set_NoDup. }
  apply G. apply NoDup_nil_2.
Qed.

(** The position [index] finds in a list without repetitions. *)
Lemma index_NoDup (l : list string) x (n : nat) :
  NoDup l -> l !! n = Some x -> index l x = Ret (Z.of_nat n).
Proof.
  intros Hnd Hl. unfold index.
  rewrite (find_from_first x l 0 n Hl).
  - reflexivity.
  - intros k Hk Hk'. pose proof (NoDup_lookup _ _ _ _ Hnd Hk' Hl). lia.
Qed.

Lemma od_set_fresh k v d :
  k ∉ keys d -> od_set k v d = (d ++ [(k, v)])%list.
Proof.
  unfold keys. induction d as [|[k' v'] d IH]; intros Hk; [reflexivity|].
  rewrite fmap_cons in Hk. cbn [fst] in Hk. apply not_elem_of_cons in Hk as [Hne Hk].
  cbn [od_set]. rewrite decide_False by congruence.
  rewrite (IH Hk). reflexivity.
Qed.

(** Pairs with distinct names make a dictionary with the same entries in
    the same order. *)
Lemma OrderedDict_distinct pairs : NoDup pairs.*1 -> OrderedDict pairs = pairs.
Proof.
  unfold OrderedDict.
  assert (G : forall acc, NoDup (acc.*1 ++ pairs.*1)%list ->
              foldl (fun d kv => od_set kv.1 kv.2 d) acc pairs = (acc ++ pairs)%list).
  { induction pairs as [|[k v] pairs IH]; intros acc Hnd; simpl.
    - now rewrite app_nil_r.
    - rewrite fmap_cons in Hnd. cbn [fst] in Hnd.
      rewrite od_set_fresh.
      + rewrite IH.
        * now rewrite <- app_assoc.
        * rewrite fmap_app, fmap_cons, fmap_nil. cbn [fst].
          now rewrite <- app_assoc.
      + apply NoDup_app in Hnd as (_ & Hdis & _).
        intros Hin. apply (Hdis k Hin). apply list_elem_of_here. }
  intros Hnd. apply (G []). exact Hnd.
Qed.

(** C8. The hero's line, two fragments after the first empty one, gives
    the hero's name and the two hole cards, and the hero's seat is found
    by looking the name up among the names of the seat mapping.  The
    seat mapping is made from the list of nine places that the seat
    lines fill, place [n] for seat [n]: when no name stands in two
    places of that list and Alice stands in the place of seat [n], the
    hero's seat is [n], so 3 for Alice in seat 3.  Without that
    condition a name listed twice takes one place less in the mapping,
    and the seat found for Alice falls short of her seat. *)
Theorem hero_is_resolved_by_name (self : FullTiltHand) (sec0 : Z)
    (secs : list Z) (players : list (string * Z)) (seat stack : Z) :
  _sections self = sec0 :: secs ->
  getitem (_splitted self) (sec0 + 2) = Ret "Dealt to Alice [Ah Kd]"%string ->
  attrs self !! "players"%string = Some (VOrderedDict (OrderedDict players)) ->
  1 <= seat ->
  players !! Z.to_nat (seat - 1) = Some ("Alice"%string, stack) ->
  NoDup players.*1 ->
  exists self',
    _parse_hole_cards self = (Ret tt, self') /\
    attrs self' !! "hero"%string = Some (VStr "Alice") /\
    attrs self' !! "hero_seat"%string = Some (VInt seat) /\
    attrs self' !! "hero_hole_cards"%string = Some (VTuple ["Ah"; "Kd"]%string).
Proof.
  intros Hsec Hline Hplayers Hseat Hplace Hnd.
  assert (Hkey : keys (OrderedDict players) !! Z.to_nat (seat - 1)
                 = Some "Alice"%string).
  { rewrite (OrderedDict_distinct _ Hnd). unfold keys.
    rewrite list_lookup_fmap, Hplace. reflexivity. }
  pose proof (index_NoDup _ _ _ (OrderedDict_NoDup players) Hkey) as Hidx.
  exists (set_attr "hero_hole_cards" (VTuple ["Ah"; "Kd"]%string)
            (set_attr "hero_seat" (VInt seat)
               (set_attr "hero" (VStr "Alice") self))).
  split.
  - unfold _parse_hole_cards.
    rewrite bind_splitted, bind_sections, Hsec.
    rewrite (bind_lift_Ret _ sec0) by apply getitem_0.
    rewrite (bind_lift_Ret _ _ _ _ Hline). cbv zeta.
    rewrite (bind_lift_Ret _ "Alice"%string) by (vm_compute; reflexivity).
    rewrite bind_setattr.
    assert (Hk : forall B (k : list string -> M B) s,
               attrs s !! "players"%string = Some (VOrderedDict (OrderedDict players)) ->
               bind players_keys k s = k (keys (OrderedDict players)) s).
    { intros B k s Hs. unfold players_keys, bind, getattr. rewrite Hs. reflexivity. }
    rewrite Hk by (rewrite attrs_set_attr, lookup_insert_ne by discriminate; exact Hplayers).
    rewrite (bind_lift_Ret _ _ _ _ Hidx), bind_setattr.
    rewrite (bind_lift_Ret _ "Ah"%string) by (vm_compute; reflexivity).
    rewrite (bind_lift_Ret _ "Kd"%string) by (vm_compute; reflexivity).
    replace (Z.of_nat (Z.to_nat (seat - 1)) + 1) with seat by lia.
    reflexivity.
  - rewrite !attrs_set_attr.
    split; [now rewrite !lookup_insert_ne by discriminate; apply lookup_insert_eq|].
    split; [now rewrite !lookup_insert_ne by discriminate; apply lookup_insert_eq|].
    apply lookup_insert_eq.
Qed.

Lemma hero_is_resolved_by_name_witness :
  exists self',
    _parse_hole_cards seated_ex = (Ret tt, self') /\
    attrs self' !! "hero"%string = Some (VStr "Alice") /\
    attrs self' !! "hero_seat"%string = Some (VInt 3) /\
    attrs self' !! "hero_hole_cards"%string = Some (VTuple ["Ah"; "Kd"]%string).
Proof.
  apply (hero_is_resolved_by_name seated_ex 7 [13; 18; 23; 29]
           (players_1_3_5 "Bob" 13587 "Alice" 1500 "Carol" 2000) 3 1500).
  - vm_compute; reflexivity.
  - vm_compute; reflexivity.
  - vm_compute; reflexivity.
  - lia.
  - reflexivity.
  - by_decide.
Defined.

(** Bob listed in seats 1 and 2 and Alice in seat 3: the list of places
    has Alice in its third place, the mapping has her as its second
    name, and the seat found for her is 2. *)
Lemma repeated_name_counterexample :
  exists players sec0 secs,
    seat_loop (drop 1 (_splitted (unparsed hand_repeated_name))) empty_seats None
      = Ret (players, Some 3) /\
    players !! 2%nat = Some ("Alice"%string, 1500) /\
    attrs (_parse_seats (unparsed hand_repeated_name)).2 !! "players"%string
      = Some (VOrderedDict (OrderedDict players)) /\
    _sections (_parse_seats (unparsed hand_repeated_name)).2 = sec0 :: secs /\
    getitem (_splitted (_parse_seats (unparsed hand_repeated_name)).2) (sec0 + 2)
      = Ret "Dealt to Alice [Ah Kd]"%string /\
    (_parse_hole_cards (_parse_seats (unparsed hand_repeated_name)).2).1 = Ret tt /\
    attrs (_parse_hole_cards (_parse_seats (unparsed hand_repeated_name)).2).2
      !! "hero_seat"%string = Some (VInt 2).
Proof.
  exists [ ("Bob", 13587); ("Bob", 2000); ("Alice", 1500); ("Empty Seat 4", 0);
           ("Empty Seat 5", 0); ("Empty Seat 6", 0); ("Empty Seat 7", 0);
           ("Empty Seat 8", 0); ("Empty Seat 9", 0) ]%string, 7, [13].
  split; [vm_compute; reflexivity|].
  split; [reflexivity|].
  split; [vm_compute; reflexivity|].
  split; [vm_compute; reflexivity|].
  split; [vm_compute; reflexivity|].
  split; vm_compute; reflexivity.
Qed.

Lemma OrderedDict_keys k pairs : k ∈ pairs.*1 -> k ∈ keys (OrderedDict pairs).
Proof.
  unfold OrderedDict.
  assert (G : forall acc, k ∈ keys acc \/ k ∈ pairs.*1 ->
              k ∈ keys (foldl (fun d kv => od_set kv.1 kv.2 d) acc pairs)).
  { induction pairs as [|[k' v'] pairs IH]; intros acc [Hin|Hin]; simpl.
    - exact Hin.
    - apply elem_of_nil in Hin. contradiction.
    - apply IH. left. rewrite od_set_keys. apply elem_of_app. now left.
    - rewrite fmap_cons in Hin. cbn [fst] in Hin.
      apply elem_of_cons in Hin as [->|Hin].
      + apply IH. left. rewrite od_set_keys. simpl.
        destruct (decide (k' ∈ keys acc)) as [Hk|Hk].
        * apply elem_of_app. now left.
        * apply elem_of_app. right. apply list_elem_of_here.
      + apply IH. now right. }
  intros Hin. apply G. now right.
Qed.

(** C3, as the code has it.  [max_players] is the seat number of the
    last seat line read.  When the seat block lists seats 1, 3 and 5 in
    that order, [max_players] is 5, which is then also the highest seat
    declared, and the nine-entry list keeps the placeholders of the other
    seats, those of seats 2 and 4 among them; the list becomes the ordered
    dictionary of the players, entry for entry when the names differ. *)
Theorem seats_1_3_5_in_order (self : FullTiltHand) (header l1 l3 l5 : string)
    (rest : list string) (n1 n3 n5 : string) (s1 s3 s5 : Z)
    (sec0 : Z) (secs : list Z) (bl : string) (mb : Match) :
  _splitted self = header :: l1 :: l3 :: l5 :: rest ->
  seat_line l1 1 n1 s1 -> seat_line l3 3 n3 s3 -> seat_line l5 5 n5 s5 ->
  block_ends rest ->
  _sections self = sec0 :: secs ->
  getitem (_splitted self) (sec0 - 1) = Ret bl ->
  re_match false _button_pattern bl = Some mb ->
  exists self',
    _parse_seats self = (Ret tt, self') /\
    attrs self' !! "max_players"%string = Some (VInt 5) /\
    attrs self' !! "players"%string
      = Some (VOrderedDict (OrderedDict (players_1_3_5 n1 s1 n3 s3 n5 s5))) /\
    "Empty Seat 2"%string ∈ keys (OrderedDict (players_1_3_5 n1 s1 n3 s3 n5 s5)) /\
    "Empty Seat 4"%string ∈ keys (OrderedDict (players_1_3_5 n1 s1 n3 s3 n5 s5)) /\
    (NoDup (players_1_3_5 n1 s1 n3 s3 n5 s5).*1 ->
     OrderedDict (players_1_3_5 n1 s1 n3 s3 n5 s5) = players_1_3_5 n1 s1 n3 s3 n5 s5).
Proof.
  intros Hl H1 H3 H5 Hend Hsec Hbl Hmb.
  assert (Hloop : seat_loop (drop 1 (_splitted self)) empty_seats None
                  = Ret (players_1_3_5 n1 s1 n3 s3 n5 s5, Some 5)).
  { rewrite Hl. cbn [drop].
    erewrite seat_loop_line; [| exact H1 | reflexivity].
    erewrite seat_loop_line; [| exact H3 | reflexivity].
    erewrite seat_loop_line; [| exact H5 | reflexivity].
    rewrite seat_loop_end by exact Hend. reflexivity. }
  destruct (parse_seats_runs self _ _ sec0 secs bl mb Hloop eq_refl Hsec Hbl Hmb)
    as (seat & name & Hrun).
  eexists. split; [exact Hrun|].
  rewrite !attrs_set_attr.
  split; [now rewrite !lookup_insert_ne by discriminate; apply lookup_insert_eq|].
  split; [now rewrite !lookup_insert_ne by discriminate; apply lookup_insert_eq|].
  split; [apply OrderedDict_keys; unfold players_1_3_5; rewrite !fmap_cons; in_names|].
  split; [apply OrderedDict_keys; unfold players_1_3_5; rewrite !fmap_cons; in_names|].
  apply OrderedDict_distinct.
Qed.

Ltac seat_line_ex l :=
  exists (default (mkMatch ∅ 0) (re_match false _seat_pattern l));
  split; [|split; [|split]]; vm_compute; reflexivity.

Lemma seats_1_3_5_in_order_witness :
  exists self',
    _parse_seats (unparsed hand_full) = (Ret tt, self') /\
    attrs self' !! "max_players"%string = Some (VInt 5) /\
    attrs self' !! "players"%string
      = Some (VOrderedDict (players_1_3_5 "Bob" 13587 "Alice" 1500 "Carol" 2000)).
Proof.
  destruct (seats_1_3_5_in_order (unparsed hand_full) header_ex
              "Seat 1: Bob (13,587)" "Seat 3: Alice (1,500)" "Seat 5: Carol (2,000)"
              (drop 4 (_splitted (unparsed hand_full)))
              "Bob" "Alice" "Carol" 13587 1500 2000
              7 [13; 18; 23; 29] "The button is in seat #5"
              (default (mkMatch ∅ 0)
                 (re_match false _button_pattern "The button is in seat #5"))
              ltac:(vm_compute; reflexivity)
              ltac:(seat_line_ex "Seat 1: Bob (13,587)"%string)
              ltac:(seat_line_ex "Seat 3: Alice (1,500)"%string)
              ltac:(seat_line_ex "Seat 5: Carol (2,000)"%string)
              ltac:(vm_compute; reflexivity)
              ltac:(vm_compute; reflexivity)
              ltac:(vm_compute; reflexivity)
              ltac:(vm_compute; reflexivity))
    as (self' & Hrun & Hmax & Hplayers & _ & _ & Hdistinct).
  exists self'. split; [exact Hrun|]. split; [exact Hmax|].
  rewrite Hplayers, Hdistinct; [reflexivity | by_decide].
Defined.

(** C3 as the specification states it fails: the seat lines of seats 1,
    3 and 5, listed from 5 down, leave [max_players] at 1, the number of
    the last line, not at the highest seat declared. *)
Lemma seats_out_of_order_counterexample :
  seat_block (drop 1 (_splitted (unparsed hand_seats_descending)))
    = ["5"; "3"; "1"]%string /\
  (parsed hand_seats_descending).1 = Ret tt /\
  attrs (parsed hand_seats_descending).2 !! "max_players"%string = Some (VInt 1).
Proof.
  split; [vm_compute; reflexivity|]. split; vm_compute; reflexivity.
Qed.

(** C10. Seat extraction needs a seat line right after the header: when
    the fragment after the first one is missing or is not a seat line,
    [_parse_seats] raises on reading the seat number that was never
    assigned, the object is left as it was, and no parse of such an object
    returns normally. *)
Theorem seat_block_must_not_be_empty (self : FullTiltHand) :
  (forall line, _splitted self !! 1%nat = Some line ->
                re_match false _seat_pattern line = None) ->
  _parse_seats self = (Raise UnboundLocalError, self) /\
  forall GAMES ET host r self',
    parse GAMES ET host self = (r, self') -> r <> Ret tt.
Proof.
  intros H. split; [now apply parse_seats_unbound|].
  intros GAMES ET host r self' Hp ->.
  destruct (parse_Ret_inv _ _ _ _ _ Hp) as (h1 & h2 & _ & _ & _ & _ & H1 & H2 & _).
  destruct (frames_PokerHand_parse _ _ _ _ _ _ H1) as (_ & S1 & _).
  rewrite parse_seats_unbound in H2; [discriminate|].
  rewrite S1. exact H.
Qed.

Lemma seat_block_must_not_be_empty_witness :
  _parse_seats (unparsed hand_no_seats)
    = (Raise UnboundLocalError, unparsed hand_no_seats) /\
  (parsed hand_no_seats).1 <> Ret tt.
Proof.
  assert (H : forall line,
             _splitted (unparsed hand_no_seats) !! 1%nat = Some line ->
             re_match false _seat_pattern line = None).
  { intros line Hl. vm_compute in Hl. inversion Hl; subst line.
    vm_compute. reflexivity. }
  destruct (seat_block_must_not_be_empty (unparsed hand_no_seats) H) as (P & Q).
  split; [exact P|].
  apply (Q games_ex eastern_ex host_ex _ (parsed hand_no_seats).2).
  rewrite <- parsed_eq. apply surjective_pairing.
Defined.

(** * Further properties of the parser *)

(** ** The segmenter ([__init__]) *)

Lemma empty_positions_spec l : forall i0 i,
  i ∈ empty_positions l i0 <->
  i0 <= i /\ l !! Z.to_nat (i - i0) = Some ""%string.
Proof.
  induction l as [|s l IH]; intros i0 i; simpl.
  - split; [intros H; apply elem_of_nil in H; contradiction|].
    intros [_ H]. discriminate.
  - assert (Hrec : i ∈ empty_positions l (i0 + 1) <->
                   i0 < i /\ (s :: l) !! Z.to_nat (i - i0) = Some ""%string).
    { rewrite IH. split.
      - intros [Hle Hl]. split; [lia|].
        replace (Z.to_nat (i - i0)) with (S (Z.to_nat (i - (i0 + 1)))) by lia.
        exact Hl.
      - intros [Hlt Hl]. split; [lia|].
        replace (Z.to_nat (i - i0)) with (S (Z.to_nat (i - (i0 + 1)))) in Hl by lia.
        exact Hl. }
    destruct s as [|a s].
    + rewrite elem_of_cons, Hrec. split.
      * intros [->|[Hlt Hl]]; [|split; [lia | exact Hl]].
        split; [lia|]. rewrite Z.sub_diag. reflexivity.
      * intros [Hle Hl]. destruct (Z.eq_dec i i0) as [->|Hne]; [now left|].
        right. split; [lia | exact Hl].
    + rewrite Hrec. split.
      * intros [Hlt Hl]. split; [lia | exact Hl].
      * intros [Hle Hl]. split; [|exact Hl].
        destruct (Z.eq_dec i i0) as [->|Hne]; [|lia].
        rewrite Z.sub_diag in Hl. discriminate.
Qed.

Lemma empty_positions_ascending l : forall i0 (j k : nat) a b,
  (j < k)%nat ->
  empty_positions l i0 !! j = Some a -> empty_positions l i0 !! k = Some b ->
  a < b.
Proof.
  induction l as [|s l IH]; intros i0 j k a b Hjk Ha Hb; simpl in *; [discriminate|].
  destruct s as [|c s]; [|exact (IH _ _ _ _ _ Hjk Ha Hb)].
  destruct k as [|k]; [lia|]. simpl in Hb.
  destruct j as [|j]; simpl in Ha.
  - inversion Ha; subst a.
    assert (Hin : b ∈ empty_positions l (i0 + 1)) by (eapply list_elem_of_lookup_2; eauto).
    apply empty_positions_spec in Hin. lia.
  - apply (IH (i0 + 1) j k a b); [lia | assumption | assumption].
Qed.

(** X1. The section boundaries that the constructor records are exactly the
    positions of the empty fragments, in ascending order without
    repetition. *)
Theorem sections_are_the_empty_fragments GAMES ET host (raw : string) :
  let self := (__init__ GAMES ET host raw false).2 in
  _splitted self = re_split _split_pattern raw /\
  (forall i, i ∈ _sections self <->
             0 <= i /\ _splitted self !! Z.to_nat i = Some ""%string) /\
  (forall (j k : nat) a b,
     (j < k)%nat -> _sections self !! j = Some a -> _sections self !! k = Some b ->
     a < b).
Proof.
  simpl. split; [reflexivity|]. split.
  - intros i. rewrite empty_positions_spec, Z.sub_0_r. reflexivity.
  - apply empty_positions_ascending.
Qed.

Lemma has_char_rev_onto c s : forall acc,
  has_char c (str_rev_onto s acc) = has_char c s || has_char c acc.
Proof.
  induction s as [|a s IH]; intros acc; simpl; [reflexivity|].
  rewrite IH. simpl. destruct (Ascii.eqb a c), (has_char c s); reflexivity.
Qed.

Lemma has_char_rev c s : has_char c (str_rev s) = has_char c s.
Proof. unfold str_rev. rewrite has_char_rev_onto. simpl. apply orb_false_r. Qed.

(** At a newline the split pattern matches that one character, by its
    second alternative. *)
Lemma split_pattern_at_newline p s :
  match_len false _split_pattern p (String newline s) = Some 1%nat.
Proof.
  unfold match_len, _split_pattern. simpl. f_equal. lia.
Qed.

Lemma re_split_aux_no_newline r s : forall p skip cur f,
  (forall p' s', match_len false r p' (String newline s') = Some 1%nat) ->
  has_char newline cur = false ->
  f ∈ re_split_aux r s p skip cur -> has_char newline f = false.
Proof.
  induction s as [|a s IH]; intros p skip cur f Hr Hcur Hf; simpl in Hf.
  - apply list_elem_of_singleton in Hf. subst. now rewrite has_char_rev.
  - destruct skip as [|n]; [|exact (IH _ _ _ _ Hr Hcur Hf)].
    destruct (match_len false r p (String a s)) as [[|n]|] eqn:E.
    + apply (IH _ _ _ _ Hr) in Hf; [exact Hf|]. simpl. rewrite Hcur.
      destruct (Ascii.eqb_spec a newline) as [->|]; [|reflexivity].
      rewrite Hr in E. discriminate.
    + apply elem_of_cons in Hf as [->|Hf]; [now rewrite has_char_rev|].
      exact (IH (S p) n EmptyString f Hr eq_refl Hf).
    + apply (IH _ _ _ _ Hr) in Hf; [exact Hf|]. simpl. rewrite Hcur.
      destruct (Ascii.eqb_spec a newline) as [->|]; [|reflexivity].
      rewrite Hr in E. discriminate.
Qed.

Lemma re_split_aux_nonempty r s : forall p skip cur,
  re_split_aux r s p skip cur <> [].
Proof.
  induction s as [|a s IH]; intros p skip cur; simpl; [discriminate|].
  destruct skip; [|apply IH].
  destruct (match_len false r p (String a s)) as [[|n]|]; try apply IH.
  discriminate.
Qed.

(** X2. Splitting always gives at least one fragment, and no fragment holds a
    newline: every line break of the text is a separator. *)
Theorem fragments_have_no_newline (raw : string) :
  re_split _split_pattern raw <> [] /\
  forall f, f ∈ re_split _split_pattern raw -> has_char newline f = false.
Proof.
  split; [apply re_split_aux_nonempty|].
  intros f Hf.
  exact (re_split_aux_no_newline _ raw 0%nat 0%nat EmptyString f
           split_pattern_at_newline eq_refl Hf).
Qed.

(** Where there is neither a newline nor a star, the split pattern does
    not match. *)
Lemma split_pattern_no_match p a s :
  has_char newline (String a s) = false ->
  has_char "*" (String a s) = false ->
  match_len false _split_pattern p (String a s) = None.
Proof.
  intros Hn Hs. simpl in Hn, Hs.
  apply orb_false_iff in Hn as [Hn _]. apply orb_false_iff in Hs as [Hs Hs'].
  unfold match_len, _split_pattern. simpl. unfold chr_eq.
  rewrite Hn, Hs.
  destruct s as [|b s']; [destruct (Ascii.eqb a " "); reflexivity|].
  simpl in Hs'. apply orb_false_iff in Hs' as [Hb _]. rewrite Hb.
  destruct (Ascii.eqb a " "); reflexivity.
Qed.

Lemma re_split_aux_whole s : forall p cur,
  has_char newline s = false -> has_char "*" s = false ->
  re_split_aux _split_pattern s p 0 cur = [str_rev_onto cur s].
Proof.
  induction s as [|a s IH]; intros p cur Hn Hs; [reflexivity|].
  cbn [re_split_aux]. rewrite (split_pattern_no_match _ _ _ Hn Hs).
  simpl in Hn, Hs. apply orb_false_iff in Hn as [_ Hn]. apply orb_false_iff in Hs as [_ Hs].
  rewrite (IH _ _ Hn Hs). reflexivity.
Qed.

(** X3. A text with no newline and no star is one fragment, the text itself,
    and no parse of it returns: with a single fragment there is no seat
    line to read. *)
Theorem unsegmented_text_never_parses GAMES ET host (raw : string) :
  has_char newline raw = false -> has_char "*" raw = false ->
  re_split _split_pattern raw = [raw] /\
  (__init__ GAMES ET host raw true).1 <> Ret tt.
Proof.
  intros Hn Hs.
  assert (Hsplit : re_split _split_pattern raw = [raw])
    by exact (re_split_aux_whole raw 0%nat EmptyString Hn Hs).
  split; [exact Hsplit|].
  unfold __init__. rewrite Hsplit.
  destruct (parse GAMES ET host _) as [r self'] eqn:Hp. simpl. intros ->.
  destruct (parse_Ret_inv _ _ _ _ _ Hp) as (h1 & h2 & _ & _ & _ & _ & H1 & H2 & _).
  destruct (frames_PokerHand_parse _ _ _ _ _ _ H1) as (_ & S1 & _).
  rewrite parse_seats_unbound in H2; [discriminate|].
  rewrite S1. simpl. intros line Hl. discriminate.
Qed.

Lemma unsegmented_text_never_parses_witness :
  re_split _split_pattern header_ex = [header_ex] /\
  (__init__ games_ex eastern_ex host_ex header_ex true).1 <> Ret tt.
Proof.
  apply (unsegmented_text_never_parses games_ex eastern_ex host_ex header_ex);
    vm_compute; reflexivity.
Defined.

(** ** How the text falls into fragments *)

(** The split pattern has no anchor: what it matches does not depend on
    the position. *)
Lemma match_len_split_shift p s :
  match_len false _split_pattern p s = match_len false _split_pattern 0 s.
Proof.
  unfold match_len, _split_pattern. simpl.
  replace (S (S (S (p + 3))) - p)%nat with 6%nat by lia.
  replace (S (S (p + 3)) - p)%nat with 5%nat by lia.
  replace (S (p + 3) - p)%nat with 4%nat by lia.
  replace (p + 3 - p)%nat with 3%nat by lia.
  replace (S p - p)%nat with 1%nat by lia.
  reflexivity.
Qed.

Lemma re_split_aux_shift s : forall p p' skip cur,
  re_split_aux _split_pattern s p skip cur
  = re_split_aux _split_pattern s p' skip cur.
Proof.
  induction s as [|a s IH]; intros p p' skip cur; [reflexivity|].
  cbn [re_split_aux]. destruct skip as [|n]; [|apply IH].
  rewrite (match_len_split_shift p), (match_len_split_shift p').
  destruct (match_len false _split_pattern 0 (String a s)) as [[|n]|];
    first [ apply IH | f_equal; apply IH ].
Qed.

(** No separator starts at a character that is neither a newline nor a
    star, unless a star follows it. *)
Lemma split_no_match_here p a s :
  Ascii.eqb a newline = false -> Ascii.eqb a "*" = false ->
  (forall s', s <> String "*" s') ->
  match_len false _split_pattern p (String a s) = None.
Proof.
  intros Hn Hs Hnext.
  unfold match_len, _split_pattern. simpl. unfold chr_eq. rewrite Hn, Hs.
  destruct s as [|b s']; [destruct (Ascii.eqb a " "); reflexivity|].
  destruct (Ascii.eqb_spec b "*") as [->|Hb]; [exfalso; exact (Hnext s' eq_refl)|].
  destruct (Ascii.eqb a " "); reflexivity.
Qed.

(** Through a stretch without newline and star nothing is split off: the
    stretch joins the current fragment. *)
Lemma re_split_aux_stretch l : forall p cur rest,
  has_char newline l = false -> has_char "*" l = false ->
  (forall s', rest <> String "*" s') ->
  re_split_aux _split_pattern (l ++ rest) p 0 cur
  = re_split_aux _split_pattern rest (p + String.length l) 0 (str_rev_onto l cur).
Proof.
  induction l as [|a l IH]; intros p cur rest Hn Hs Hrest.
  - simpl. now rewrite Nat.add_0_r.
  - simpl in Hn, Hs.
    apply orb_false_iff in Hn as [Hn Hn']. apply orb_false_iff in Hs as [Hs Hs'].
    change (String a l ++ rest)%string with (String a (l ++ rest)).
    cbn [re_split_aux]. rewrite split_no_match_here; [| exact Hn | exact Hs |].
    + rewrite (IH (S p) (String a cur) rest Hn' Hs' Hrest).
      simpl. f_equal. lia.
    + intros s' E. destruct l as [|b l'].
      * exact (Hrest s' E).
      * simpl in E. inversion E; subst b. simpl in Hs'. discriminate.
Qed.

Lemma split_at_newline p cur rest :
  re_split_aux _split_pattern (String newline rest) p 0 cur
  = str_rev cur :: re_split _split_pattern rest.
Proof.
  cbn [re_split_aux]. rewrite split_pattern_at_newline.
  unfold re_split. f_equal. apply re_split_aux_shift.
Qed.

Lemma str_rev_rev_onto l : str_rev (str_rev_onto l "") = l.
Proof. apply (str_rev_involutive l). Qed.

(** X4. A line without a star is a fragment of its own: the newline that
    ends it is a separator, and nothing inside the line is. *)
Theorem a_plain_line_is_a_fragment (l rest : string) :
  has_char newline l = false -> has_char "*" l = false ->
  re_split _split_pattern (l ++ String newline rest)
  = l :: re_split _split_pattern rest.
Proof.
  intros Hn Hs. unfold re_split at 1.
  rewrite (re_split_aux_stretch l 0 "" (String newline rest) Hn Hs)
    by (intros s' E; discriminate).
  rewrite split_at_newline, str_rev_rev_onto. reflexivity.
Qed.

Lemma a_plain_line_is_a_fragment_witness :
  re_split _split_pattern ("Carol folds" ++ String newline "Bob calls 10")
  = ["Carol folds"; "Bob calls 10"]%string.
Proof.
  rewrite (a_plain_line_is_a_fragment "Carol folds" "Bob calls 10");
    reflexivity.
Defined.

(** The opening stars of a marker, met at the start of a line, close the
    current fragment; they take the space after them along. *)
Lemma split_at_opening_stars p cur rest :
  (forall s', rest <> String newline s') ->
  re_split_aux _split_pattern ("*** " ++ rest) p 0 cur
  = str_rev cur :: re_split _split_pattern rest.
Proof.
  intros Hrest.
  assert (Hm : match_len false _split_pattern p ("*** " ++ rest) = Some 4%nat).
  { rewrite match_len_split_shift. unfold match_len, _split_pattern. simpl.
    destruct rest as [|b rest']; [reflexivity|].
    destruct (Ascii.eqb_spec b newline) as [->|Hb];
      [exfalso; exact (Hrest rest' eq_refl)|].
    unfold chr_eq. simpl.
    destruct (Ascii.eqb_spec b newline); [contradiction | reflexivity]. }
  change ("*** " ++ rest)%string
    with (String "*" (String "*" (String "*" (String " " rest)))) in *.
  cbn [re_split_aux]. rewrite Hm. cbn [re_split_aux].
  unfold re_split. f_equal. apply re_split_aux_shift.
Qed.

(** The closing stars of a marker, with the space before them and the
    newline or space after them, are one separator. *)
Lemma split_at_closing_stars p cur (sep : ascii) rest :
  sep = newline \/ (sep = " "%char /\ forall s', rest <> String newline s') ->
  re_split_aux _split_pattern (" ***" ++ String sep rest) p 0 cur
  = str_rev cur :: re_split _split_pattern rest.
Proof.
  intros Hsep.
  assert (Hm : match_len false _split_pattern p (" ***" ++ String sep rest)
               = Some 5%nat).
  { rewrite match_len_split_shift. unfold match_len, _split_pattern.
    destruct Hsep as [-> | [-> Hrest]]; simpl; [reflexivity|].
    destruct rest as [|b rest']; [reflexivity|].
    destruct (Ascii.eqb_spec b newline) as [->|Hb];
      [exfalso; exact (Hrest rest' eq_refl)|].
    unfold chr_eq. simpl.
    destruct (Ascii.eqb_spec b newline); [contradiction | reflexivity]. }
  change (" ***" ++ String sep rest)%string
    with (String " " (String "*" (String "*" (String "*" (String sep rest))))) in *.
  cbn [re_split_aux]. rewrite Hm. cbn [re_split_aux].
  unfold re_split. f_equal. apply re_split_aux_shift.
Qed.

(** X5. A marker line opens a section.  After a line without stars, a line
    that starts with three stars, a space, a name without stars, a
    space and three stars gives three fragments: the line before, an
    empty fragment, and the name.  The empty fragment is what the
    constructor records as a section boundary, and the name is what the
    street step looks for.  What follows the closing stars, a newline or
    a space and the rest of the line, starts the next fragment. *)
Theorem a_marker_line_opens_a_section (l name rest : string) (sep : ascii) :
  has_char newline l = false -> has_char "*" l = false ->
  has_char newline name = false -> has_char "*" name = false ->
  sep = newline \/ (sep = " "%char /\ forall s', rest <> String newline s') ->
  re_split _split_pattern
    (l ++ String newline ("*** " ++ name ++ " ***" ++ String sep rest))
  = l :: ""%string :: name :: re_split _split_pattern rest.
Proof.
  intros Hln Hls Hnn Hns Hsep. unfold re_split at 1.
  rewrite (re_split_aux_stretch l 0 "" _ Hln Hls) by (intros s' E; discriminate).
  rewrite split_at_newline, str_rev_rev_onto. f_equal.
  unfold re_split at 1. rewrite split_at_opening_stars.
  2:{ intros s' E. destruct name as [|c name']; [discriminate|].
      simpl in E. inversion E; subst c. simpl in Hnn. discriminate. }
  f_equal. unfold re_split at 1.
  rewrite (re_split_aux_stretch name 0 "" _ Hnn Hns) by (intros s' E; discriminate).
  rewrite (split_at_closing_stars _ _ sep rest Hsep), str_rev_rev_onto.
  reflexivity.
Qed.

Lemma a_marker_line_opens_a_section_witness :
  re_split _split_pattern
    ("Alice checks" ++ String newline
       ("*** " ++ "FLOP" ++ " ***" ++ String " " "[8h 4h Tc] (Total Pot: 40, 2 Players)"))
  = ["Alice checks"; ""; "FLOP"; "[8h 4h Tc] (Total Pot: 40, 2 Players)"]%string.
Proof.
  rewrite (a_marker_line_opens_a_section "Alice checks" "FLOP"
             "[8h 4h Tc] (Total Pot: 40, 2 Players)" " ");
    [reflexivity | reflexivity | reflexivity | reflexivity | reflexivity |].
  right. split; [reflexivity | intros s' E; discriminate].
Defined.

(** ** Errors of the header step *)

Lemma getitem_head {A} (l : list A) x : l !! 0%nat = Some x -> getitem l 0 = Ret x.
Proof. destruct l; intros H; inversion H. reflexivity. Qed.

Lemma parse_header_nomatch GAMES ET host self line :
  getitem (_splitted self) 0 = Ret line ->
  re_match false _header_pattern line = None ->
  parse_header GAMES ET host self
  = (Raise AttributeError, set_attr "game_type" (VStr "TOUR") self).
Proof.
  intros Hl Hm. unfold parse_header.
  rewrite bind_splitted, (bind_lift_Ret _ _ _ _ Hl), Hm. cbv zeta.
  rewrite bind_setattr, (bind_lift_Raise _ AttributeError) by reflexivity.
  reflexivity.
Qed.

Lemma PokerHand_parse_fresh GAMES ET host raw :
  PokerHand_parse GAMES ET host (fresh raw) = parse_header GAMES ET host (fresh raw).
Proof. reflexivity. Qed.

Lemma parse_raises_with_header GAMES ET host self e self' :
  PokerHand_parse GAMES ET host self = (Raise e, self') ->
  parse GAMES ET host self = (Raise e, self').
Proof. intros H. unfold parse. unfold bind at 1. rewrite H. reflexivity. Qed.

(** X6. A first fragment that does not match the header pattern aborts the
    construction with the [AttributeError] of asking [None] for a group;
    by then only the game type has been assigned. *)
Theorem malformed_header_aborts GAMES ET host (raw : string) :
  (forall line, re_split _split_pattern raw !! 0%nat = Some line ->
                re_match false _header_pattern line = None) ->
  __init__ GAMES ET host raw true
  = (Raise AttributeError, set_attr "game_type" (VStr "TOUR") (fresh raw)).
Proof.
  intros H. change (__init__ GAMES ET host raw true) with (parse GAMES ET host (fresh raw)).
  apply parse_raises_with_header. rewrite PokerHand_parse_fresh.
  destruct (re_split _split_pattern raw) as [|line rest] eqn:E.
  - exfalso. exact (re_split_aux_nonempty _ _ _ _ _ E).
  - apply (parse_header_nomatch _ _ _ _ line).
    + unfold fresh. simpl _splitted. rewrite E. reflexivity.
    + apply H. reflexivity.
Qed.

Lemma malformed_header_aborts_witness :
  __init__ games_ex eastern_ex host_ex (with_header header_no_game_token) true
  = (Raise AttributeError,
     set_attr "game_type" (VStr "TOUR") (fresh (with_header header_no_game_token))).
Proof.
  apply malformed_header_aborts.
  intros line Hl. vm_compute in Hl. inversion Hl; subst line. vm_compute. reflexivity.
Defined.

Lemma Decimal_raises s e : Decimal_of_str s = Raise e -> e = InvalidOperation.
Proof.
  unfold Decimal_of_str. destruct (take_sign (strip s)) as [sign body].
  destruct (dec_number sign body); [discriminate|].
  destruct (dec_special sign body); simpl; congruence.
Qed.

Lemma int_raises s e : int s = Raise e -> e = ValueError.
Proof.
  assert (U : forall t e', int_unsigned t = Raise e' -> e' = ValueError).
  { intros t e'. unfold int_unsigned. destruct t; [congruence|].
    destruct (all_digits _); congruence. }
  unfold int. intros H.
  destruct (strip s) as [|a t]; [exact (U _ _ H)|].
  destruct a as [[] [] [] [] [] [] [] []];
    try exact (U _ _ H);
    destruct (int_unsigned t) eqn:E; simpl in H; try discriminate;
    inversion H; subst; exact (U _ _ E).
Qed.

Lemma field_raises m d z e : field m d z = Raise e -> e = ValueError.
Proof.
  unfold field. destruct (groups m !! dgroup d); [apply int_raises | discriminate].
Qed.

(** With the room's format, [strptime] fails with [ValueError] only. *)
Lemma strptime_raises lt s e :
  strptime lt s date_format = Raise e -> e = ValueError.
Proof.
  unfold strptime.
  destruct (format_regex lt date_format false) as [rs|e0] eqn:E;
    [|vm_compute in E; discriminate].
  simpl res_bind.
  destruct (re_match true (cats rs) s) as [m|]; [|congruence].
  destruct (negb (m_end m =? String.length s)%nat); [congruence|].
  destruct (field m "Y" 1900) as [y|e1] eqn:E1; simpl; [|intros H; inversion H; subst; eapply field_raises; eauto].
  destruct (field m "m" 1) as [mo|e2] eqn:E2; simpl; [|intros H; inversion H; subst; eapply field_raises; eauto].
  destruct (field m "d" 1) as [dd|e3] eqn:E3; simpl; [|intros H; inversion H; subst; eapply field_raises; eauto].
  destruct (field m "H" 0) as [h|e4] eqn:E4; simpl; [|intros H; inversion H; subst; eapply field_raises; eauto].
  destruct (field m "M" 0) as [mi|e5] eqn:E5; simpl; [|intros H; inversion H; subst; eapply field_raises; eauto].
  destruct (field m "S" 0) as [sec|e6] eqn:E6; simpl; [|intros H; inversion H; subst; eapply field_raises; eauto].
  destruct (valid_datetime _); congruence.
Qed.

(** X7. A blinds field that [Decimal] does not accept aborts the header step
    with [InvalidOperation]; nothing but the game type (and the small
    blind, when the big blind is the culprit) has been assigned. *)
Theorem blinds_must_be_numbers GAMES ET host (self : FullTiltHand)
    (line : string) (m : Match) (e : exn) :
  getitem (_splitted self) 0 = Ret line ->
  re_match false _header_pattern line = Some m ->
  Decimal_of_str (grp m g_sb) = Raise e \/
  (exists sb, Decimal_of_str (grp m g_sb) = Ret sb) /\
  Decimal_of_str (grp m g_bb) = Raise e ->
  e = InvalidOperation /\
  exists self',
    parse_header GAMES ET host self = (Raise InvalidOperation, self') /\
    attrs self' !! "bb"%string = attrs self !! "bb"%string /\
    attrs self' !! "date"%string = attrs self !! "date"%string.
Proof.
  intros Hl Hm [Hsb | [(sb & Hsb) Hbb]].
  - pose proof (Decimal_raises _ _ Hsb) as ->. split; [reflexivity|].
    eexists. split.
    + unfold parse_header.
      rewrite bind_splitted, (bind_lift_Ret _ _ _ _ Hl), Hm. cbv zeta.
      rewrite bind_setattr, (bind_lift_Raise _ InvalidOperation) by exact Hsb.
      reflexivity.
    + rewrite !attrs_set_attr. split; now rewrite lookup_insert_ne by discriminate.
  - pose proof (Decimal_raises _ _ Hbb) as ->. split; [reflexivity|].
    eexists. split.
    + unfold parse_header.
      rewrite bind_splitted, (bind_lift_Ret _ _ _ _ Hl), Hm. cbv zeta.
      rewrite bind_setattr, (bind_lift_Ret _ sb) by exact Hsb.
      rewrite bind_setattr, (bind_lift_Raise _ InvalidOperation) by exact Hbb.
      reflexivity.
    + rewrite !attrs_set_attr. split; now rewrite !lookup_insert_ne by discriminate.
Qed.

Lemma blinds_must_be_numbers_witness :
  exists self',
    parse_header games_ex eastern_ex host_ex (fresh (with_header header_bad_blind))
    = (Raise InvalidOperation, self').
Proof.
  destruct (blinds_must_be_numbers games_ex eastern_ex host_ex
              (fresh (with_header header_bad_blind)) header_bad_blind
              (default (mkMatch ∅ 0) (re_match false _header_pattern header_bad_blind))
              InvalidOperation
              ltac:(vm_compute; reflexivity) ltac:(vm_compute; reflexivity)
              ltac:(left; vm_compute; reflexivity))
    as (_ & self' & Hp & _).
  exists self'. exact Hp.
Defined.

(** X8. A timestamp that does not fit the room's format, or names a day the
    calendar does not have, aborts the header step with [ValueError],
    after both blinds have been assigned and before the date is. *)
Theorem date_must_fit_the_format GAMES ET host (self : FullTiltHand)
    (line : string) (m : Match) (sb bb : Decimal) (e : exn) :
  getitem (_splitted self) 0 = Ret line ->
  re_match false _header_pattern line = Some m ->
  Decimal_of_str (grp m g_sb) = Ret sb ->
  Decimal_of_str (grp m g_bb) = Ret bb ->
  strptime host (grp m g_date) date_format = Raise e ->
  e = ValueError /\
  parse_header GAMES ET host self
  = (Raise ValueError,
     set_attr "bb" (VDecimal bb) (set_attr "sb" (VDecimal sb)
       (set_attr "game_type" (VStr "TOUR") self))).
Proof.
  intros Hl Hm Hsb Hbb Hd. pose proof (strptime_raises _ _ _ Hd) as ->.
  split; [reflexivity|]. unfold parse_header.
  rewrite bind_splitted, (bind_lift_Ret _ _ _ _ Hl), Hm. cbv zeta.
  rewrite bind_setattr, (bind_lift_Ret _ sb) by exact Hsb.
  rewrite bind_setattr, (bind_lift_Ret _ bb) by exact Hbb.
  rewrite bind_setattr, (bind_lift_Raise _ ValueError) by exact Hd.
  reflexivity.
Qed.

Lemma date_must_fit_the_format_witness :
  exists self',
    parse_header games_ex eastern_ex host_ex (fresh (with_header header_bad_date))
    = (Raise ValueError, self').
Proof.
  eexists.
  apply (date_must_fit_the_format games_ex eastern_ex host_ex
           (fresh (with_header header_bad_date)) header_bad_date
           (default (mkMatch ∅ 0) (re_match false _header_pattern header_bad_date))
           (DFinite false 10 0) (DFinite false 20 0) ValueError);
    vm_compute; reflexivity.
Defined.

(** X9. A game name that is not a key of the table aborts the header step
    with [KeyError]; the blinds and the date have been assigned by then,
    the game and the limit have not. *)
Theorem unknown_game_is_a_KeyError GAMES ET host (self : FullTiltHand)
    (line : string) (m : Match) (sb bb : Decimal) (naive : datetime) (utc : aware) :
  getitem (_splitted self) 0 = Ret line ->
  re_match false _header_pattern line = Some m ->
  Decimal_of_str (grp m g_sb) = Ret sb ->
  Decimal_of_str (grp m g_bb) = Ret bb ->
  strptime host (grp m g_date) date_format = Ret naive ->
  res_bind (localize ET naive) (astimezone UTC) = Ret utc ->
  GAMES !! grp m g_game = None ->
  parse_header GAMES ET host self
  = (Raise KeyError,
     set_attr "date" (VDatetime utc) (set_attr "bb" (VDecimal bb)
       (set_attr "sb" (VDecimal sb) (set_attr "game_type" (VStr "TOUR") self)))).
Proof.
  intros Hl Hm Hsb Hbb Hd Hu Hg. unfold parse_header.
  rewrite bind_splitted, (bind_lift_Ret _ _ _ _ Hl), Hm. cbv zeta.
  rewrite bind_setattr, (bind_lift_Ret _ sb) by exact Hsb.
  rewrite bind_setattr, (bind_lift_Ret _ bb) by exact Hbb.
  rewrite bind_setattr, (bind_lift_Ret _ naive) by exact Hd.
  rewrite bind_to_utc, (bind_lift_Ret _ utc) by exact Hu.
  rewrite bind_setattr, (bind_lift_Raise _ KeyError)
    by (change (of_option KeyError (GAMES !! grp m g_game) = Raise KeyError);
        now rewrite Hg).
  reflexivity.
Qed.

Lemma unknown_game_is_a_KeyError_witness :
  exists self',
    parse_header games_ex eastern_ex host_ex (fresh (with_header header_unknown_game))
    = (Raise KeyError, self').
Proof.
  eexists.
  apply (unknown_game_is_a_KeyError games_ex eastern_ex host_ex
           (fresh (with_header header_unknown_game)) header_unknown_game
           (default (mkMatch ∅ 0) (re_match false _header_pattern header_unknown_game))
           (DFinite false 10 0) (DFinite false 20 0)
           (mkdatetime 2013 7 1 21 5 0) (mkaware (mkdatetime 2013 7 2 1 5 0) 0));
    vm_compute; reflexivity.
Defined.

(** ** What the header step stores *)

(** X10. The hand number, the tournament number and the table that the
    header step stores are the runs of digits at their places in the
    header line, kept as text and never converted; the tournament name
    is the text at its place, the limit is NL, the game is what the table
    of games gives for the game name at its place, and the header is
    marked as parsed. *)
Theorem header_numbers_stay_text GAMES ET host (self self' : FullTiltHand) :
  parse_header GAMES ET host self = (Ret tt, self') ->
  exists line ident tname tident table gname rest game,
    getitem (_splitted self) 0 = Ret line /\
    line = ("Full Tilt Poker Game #" ++ ident ++ ": " ++ tname ++ " ("
            ++ tident ++ "), Table " ++ table ++ " - NL " ++ gname ++ " - "
            ++ rest)%string /\
    all_digits ident = true /\ all_digits tident = true /\
    all_digits table = true /\
    GAMES !! gname = Some game /\
    attrs self' !! "ident"%string = Some (VStr ident) /\
    attrs self' !! "tournament_ident"%string = Some (VStr tident) /\
    attrs self' !! "table_name"%string = Some (VStr table) /\
    attrs self' !! "tournament_name"%string = Some (VStr tname) /\
    attrs self' !! "limit"%string = Some (VStr "NL") /\
    attrs self' !! "game"%string = Some (VStr game) /\
    attrs self' !! "header_parsed"%string = Some (VBool true).
Proof.
  intros Hp.
  destruct (parse_header_inv _ _ _ _ _ Hp)
    as (line & m & sb & bb & naive & utc & game & Hl & Hm & _ & _ & _ & _ & Hg & ->).
  destruct (header_match_shape _ _ Hm)
    as (ident & tname & tident & table & gname & sb' & bb' & ldate & date & tail
        & Hline & _ & Hi & Hti & Hta & Hgr).
  assert (G1 : grp m g_ident = ident) by (unfold grp, group; now rewrite Hgr).
  assert (G2 : grp m g_tournament_ident = tident) by (unfold grp, group; now rewrite Hgr).
  assert (G3 : grp m g_table_name = table) by (unfold grp, group; now rewrite Hgr).
  assert (G4 : grp m g_tournament_name = tname) by (unfold grp, group; now rewrite Hgr).
  assert (G5 : grp m g_limit = "NL"%string) by (unfold grp, group; now rewrite Hgr).
  assert (G6 : grp m g_game = gname) by (unfold grp, group; now rewrite Hgr).
  exists line, ident, tname, tident, table, gname,
    (sb' ++ "/" ++ bb' ++ " - " ++ ldate ++ " " ++ "[" ++ date ++ "]" ++ tail)%string,
    game.
  split; [exact Hl|]. split; [rewrite Hline; reflexivity|].
  split; [exact Hi|]. split; [exact Hti|]. split; [exact Hta|].
  split; [rewrite <- G6; exact Hg|].
  split; [rewrite <- G1; header_lookup|].
  split; [rewrite <- G2; header_lookup|].
  split; [rewrite <- G3; header_lookup|].
  split; [rewrite <- G4; header_lookup|].
  split; [rewrite <- G5; header_lookup|].
  split; header_lookup.
Qed.

Lemma header_numbers_stay_text_witness :
  attrs (parse_header games_ex eastern_ex host_ex (unparsed hand_full)).2
    !! "ident"%string = Some (VStr "33286946295") /\
  exists line ident tname tident table gname rest game,
    getitem (_splitted (unparsed hand_full)) 0 = Ret line /\
    line = ("Full Tilt Poker Game #" ++ ident ++ ": " ++ tname ++ " ("
            ++ tident ++ "), Table " ++ table ++ " - NL " ++ gname ++ " - "
            ++ rest)%string /\
    all_digits ident = true /\ all_digits tident = true /\
    all_digits table = true /\
    games_ex !! gname = Some game /\
    attrs (parse_header games_ex eastern_ex host_ex (unparsed hand_full)).2
      !! "ident"%string = Some (VStr ident) /\
    attrs (parse_header games_ex eastern_ex host_ex (unparsed hand_full)).2
      !! "tournament_ident"%string = Some (VStr tident) /\
    attrs (parse_header games_ex eastern_ex host_ex (unparsed hand_full)).2
      !! "table_name"%string = Some (VStr table) /\
    attrs (parse_header games_ex eastern_ex host_ex (unparsed hand_full)).2
      !! "tournament_name"%string = Some (VStr tname) /\
    attrs (parse_header games_ex eastern_ex host_ex (unparsed hand_full)).2
      !! "limit"%string = Some (VStr "NL") /\
    attrs (parse_header games_ex eastern_ex host_ex (unparsed hand_full)).2
      !! "game"%string = Some (VStr game) /\
    attrs (parse_header games_ex eastern_ex host_ex (unparsed hand_full)).2
      !! "header_parsed"%string = Some (VBool true).
Proof.
  split; [vm_compute; reflexivity|].
  apply (header_numbers_stay_text games_ex eastern_ex host_ex (unparsed hand_full)).
  vm_compute; reflexivity.
Defined.
(** ** The seat block *)

Lemma setitem_nine {A} (l : list A) i x :
  length l = 9%nat -> -1 <= i <= 8 ->
  exists l', setitem l i x = Ret l' /\ length l' = 9%nat /\
             l' = <[Z.to_nat (if i <? 0 then 8 else i) := x]> l.
Proof.
  intros Hlen Hi. unfold setitem. rewrite Hlen.
  destruct (Z.ltb_spec i 0).
  - assert (i = -1) by lia. subst. simpl.
    eexists. split; [reflexivity|]. split; [now rewrite length_insert | reflexivity].
  - replace ((i <? 0) || (Z.of_nat 9 <=? i)) with false
      by (symmetry; apply orb_false_iff; split; [apply Z.ltb_ge | apply Z.leb_gt]; lia).
    eexists. split; [reflexivity|]. split; [now rewrite length_insert | reflexivity].
Qed.

Lemma digits_val_from_nonneg s : forall acc, 0 <= acc -> 0 <= digits_val_from acc s.
Proof.
  induction s as [|a s IH]; intros acc Hacc; simpl; [exact Hacc|].
  apply IH. unfold digit_val. lia.
Qed.

Lemma digits_val_nonneg s : 0 <= digits_val s.
Proof. apply digits_val_from_nonneg. lia. Qed.

Lemma remove_comma_digits s :
  all_cls false (COr CDigit (CChar ",")) s = true ->
  all_digits (remove_char "," s) = true.
Proof.
  induction s as [|a s IH]; simpl; [reflexivity|].
  intros H. apply andb_true_iff in H as [Ha Hs].
  destruct (Ascii.eqb_spec a ","); [now apply IH|].
  simpl. rewrite (IH Hs), andb_true_r.
  apply orb_true_iff in Ha as [Ha|Ha]; [exact Ha|].
  unfold chr_eq in Ha. simpl in Ha.
  first [discriminate | apply Ascii.eqb_eq in Ha; congruence].
Qed.

(** The stack of a seat line, commas removed, converts to a number that
    is not negative, or is empty and does not convert. *)
Lemma stack_converts s :
  all_cls false (COr CDigit (CChar ",")) s = true ->
  (exists z, int (remove_char "," s) = Ret z /\ 0 <= z) \/
  (remove_char "," s = ""%string /\ int (remove_char "," s) = Raise ValueError).
Proof.
  intros H. pose proof (remove_comma_digits _ H) as Hd.
  destruct (remove_char "," s) as [|a r] eqn:E.
  - right. split; reflexivity.
  - left. exists (digits_val (String a r)).
    split; [apply int_digits; [exact Hd | discriminate] | apply digits_val_nonneg].
Qed.

Lemma stacks_nonneg_insert players n name stack :
  stacks_nonneg players -> 0 <= stack ->
  stacks_nonneg (<[n := (name, stack)]> players).
Proof.
  intros Hp Hs name' stack' Hin.
  apply list_elem_of_lookup in Hin as (k & Hk).
  destruct (decide (k = n)) as [->|Hne].
  - destruct (decide (n < length players)%nat) as [Hlt|Hge].
    + rewrite list_lookup_insert_eq in Hk by exact Hlt. inversion Hk; subst. exact Hs.
    + rewrite list_insert_ge in Hk by lia.
      apply (Hp name' stack'). apply list_elem_of_lookup. eauto.
  - rewrite list_lookup_insert_ne in Hk by congruence.
    apply (Hp name' stack'). apply list_elem_of_lookup. eauto.
Qed.

Lemma empty_seats_nonneg : stacks_nonneg empty_seats.
Proof.
  intros name stack Hin. unfold empty_seats, empty_seat in Hin. simpl in Hin.
  repeat (apply elem_of_cons in Hin as [Hin|Hin]; [inversion Hin; lia|]).
  apply elem_of_nil in Hin. contradiction.
Qed.

(** One turn of the loop on a line that matches the seat pattern. *)
Lemma seat_loop_turn line m rest players sn :
  length players = 9%nat ->
  re_match false _seat_pattern line = Some m ->
  exists seat stack,
    0 <= seat <= 9 /\
    ((exists z, int (remove_char "," stack) = Ret z /\ 0 <= z /\
        seat_loop (line :: rest) players sn
        = seat_loop rest
            (<[Z.to_nat (if seat - 1 <? 0 then 8 else seat - 1) := (grp m 2, z)]> players)
            (Some seat)) \/
     (remove_char "," stack = ""%string /\
      seat_loop (line :: rest) players sn = Raise ValueError)).
Proof.
  intros Hlen Hm.
  destruct (seat_match_shape _ _ Hm) as (a & name & stack & Ha & Hst & Hg).
  destruct (groups3 _ _ _ _ Hg) as (G1 & G2 & G3).
  pose proof (digit_val_range _ Ha) as Hr.
  exists (digit_val a), stack. split; [exact Hr|].
  cbn [seat_loop]. rewrite Hm, G1, G3. cbn [default id].
  rewrite (int_digit _ Ha). cbn [res_bind].
  destruct (stack_converts _ Hst) as [(z & Hz & Hz0) | (He & Hz)].
  - left. exists z. split; [exact Hz|]. split; [exact Hz0|].
    rewrite Hz. cbn [res_bind].
    destruct (setitem_nine players (digit_val a - 1) (default ""%string (group m 2), z)
                Hlen ltac:(lia)) as (l' & Hset & _ & ->).
    rewrite Hset. reflexivity.
  - right. split; [exact He|]. rewrite Hz. reflexivity.
Qed.

Lemma seat_loop_Ret lines : forall players sn players' sn',
  length players = 9%nat -> stacks_nonneg players ->
  (forall n, sn = Some n -> 0 <= n <= 9) ->
  seat_loop lines players sn = Ret (players', sn') ->
  length players' = 9%nat /\ stacks_nonneg players' /\
  (forall n, sn' = Some n -> 0 <= n <= 9) /\
  (sn' = None -> sn = None /\ block_ends lines).
Proof.
  induction lines as [|line rest IH]; intros players sn players' sn' Hlen Hnn Hsn H.
  - simpl in H. inversion H; subst.
    split; [exact Hlen|]. split; [exact Hnn|]. split; [exact Hsn|].
    intros ->. split; [reflexivity | exact I].
  - destruct (re_match false _seat_pattern line) as [m|] eqn:Hm.
    + destruct (seat_loop_turn line m rest players sn Hlen Hm)
        as (seat & stack & Hr & [(z & _ & Hz0 & E) | (_ & E)]);
        rewrite E in H; [|discriminate].
      apply IH in H.
      * destruct H as (L & N & S & D).
        split; [exact L|]. split; [exact N|]. split; [exact S|].
        intros ->. destruct (D eq_refl) as [D' _]. discriminate.
      * now rewrite length_insert.
      * now apply stacks_nonneg_insert.
      * intros n Hn. inversion Hn; subst. exact Hr.
    + simpl in H. rewrite Hm in H. inversion H; subst.
      split; [exact Hlen|]. split; [exact Hnn|]. split; [exact Hsn|].
      intros ->. split; [reflexivity | exact Hm].
Qed.

Lemma seat_loop_Raise lines : forall players sn e,
  length players = 9%nat ->
  seat_loop lines players sn = Raise e -> e = ValueError.
Proof.
  induction lines as [|line rest IH]; intros players sn e Hlen H.
  - discriminate.
  - destruct (re_match false _seat_pattern line) as [m|] eqn:Hm.
    + destruct (seat_loop_turn line m rest players sn Hlen Hm)
        as (seat & stack & Hr & [(z & _ & Hz0 & E) | (_ & E)]);
        rewrite E in H.
      * apply IH in H; [exact H|]. now rewrite length_insert.
      * congruence.
    + simpl in H. rewrite Hm in H. discriminate.
Qed.

Lemma empty_seats_length : length empty_seats = 9%nat.
Proof. reflexivity. Qed.

(** X11. Seat 0 is a seat the pattern accepts: its line is stored through the
    index -1, in the ninth and last place of the list, and the seat
    number read is 0. *)
Theorem seat_zero_is_stored_last (line : string) (rest : list string)
    (players : list (string * Z)) (sn : option Z) (name : string) (stack : Z) :
  length players = 9%nat ->
  seat_line line 0 name stack ->
  seat_loop (line :: rest) players sn
  = seat_loop rest (take 8 players ++ [(name, stack)])%list (Some 0).
Proof.
  intros Hlen Hline.
  erewrite seat_loop_line; [| exact Hline |].
  - reflexivity.
  - unfold setitem. rewrite Hlen. simpl.
    do 9 (destruct players as [|? players]; [discriminate|]).
    destruct players; [reflexivity | discriminate].
Qed.

Lemma seat_zero_is_stored_last_witness :
  seat_loop [seat_zero_line] empty_seats None
  = Ret ((take 8 empty_seats ++ [("Dan"%string, 500)])%list, Some 0).
Proof.
  apply (seat_zero_is_stored_last seat_zero_line [] empty_seats None "Dan" 500).
  - reflexivity.
  - exists (default (mkMatch ∅ 0) (re_match false _seat_pattern seat_zero_line)).
    split; [vm_compute; reflexivity|].
    split; [vm_compute; reflexivity|].
    split; vm_compute; reflexivity.
Defined.

(** ** The seat step, case by case *)

Lemma getitem_raises {A} (l : list A) i e : getitem l i = Raise e -> e = IndexError.
Proof.
  unfold getitem. destruct (_ <? 0); [congruence|].
  destruct (l !! _); simpl; congruence.
Qed.

Lemma od_set_length k v d : (length (od_set k v d) <= S (length d))%nat.
Proof.
  induction d as [|[k' v'] d IH]; simpl; [lia|].
  destruct (decide (k' = k)); simpl; lia.
Qed.

Lemma OrderedDict_length pairs : (length (OrderedDict pairs) <= length pairs)%nat.
Proof.
  unfold OrderedDict.
  assert (H : forall acc,
             (length (foldl (fun d kv => od_set kv.1 kv.2 d) acc pairs)
              <= length acc + length pairs)%nat).
  { induction pairs as [|[k v] pairs IH]; intros acc; simpl; [lia|].
    specialize (IH (od_set k v acc)). pose proof (od_set_length k v acc). lia. }
  apply (H []).
Qed.

(** The object after the seat step has stored the seats. *)
Lemma parse_seats_cases self :
  (exists players n b bp,
     length players = 9%nat /\ stacks_nonneg players /\
     0 <= n <= 9 /\ 0 <= b <= 9 /\
     getitem players (b - 1) = Ret bp /\
     _parse_seats self
     = (Ret tt,
        set_attr "button" (VStr bp.1) (set_attr "button_seat" (VInt b)
          (set_attr "players" (VOrderedDict (OrderedDict players))
             (set_attr "max_players" (VInt n) self))))) \/
  _parse_seats self = (Raise ValueError, self) \/
  (block_ends (drop 1 (_splitted self)) /\
   _parse_seats self = (Raise UnboundLocalError, self)) \/
  (exists players n e,
     (e = IndexError \/ e = AttributeError) /\
     _parse_seats self
     = (Raise e,
        set_attr "players" (VOrderedDict (OrderedDict players))
          (set_attr "max_players" (VInt n) self))).
Proof.
  unfold _parse_seats. rewrite bind_splitted, slice_from_1.
  destruct (seat_loop (drop 1 (_splitted self)) empty_seats None)
    as [[players sn]|e] eqn:Hloop.
  2:{ right. left. rewrite (seat_loop_Raise _ _ _ _ empty_seats_length Hloop).
      reflexivity. }
  destruct (seat_loop_Ret _ empty_seats None _ _ empty_seats_length empty_seats_nonneg
              ltac:(intros ? ?; discriminate) Hloop) as (Hlen & Hnn & Hsn & Hnone).
  rewrite (bind_lift_Ret _ (players, sn)) by reflexivity.
  destruct sn as [n|].
  2:{ right. right. left. split; [apply Hnone; reflexivity|]. reflexivity. }
  rewrite (bind_lift_Ret _ n) by reflexivity.
  rewrite !bind_setattr, bind_sections, !sections_set_attr.
  destruct (getitem (_sections self) 0) as [sec0|e] eqn:Hs0.
  2:{ right. right. right. exists players, n, e.
      split; [left; eapply getitem_raises; exact Hs0|].
      rewrite (bind_lift_Raise _ e) by reflexivity. reflexivity. }
  rewrite (bind_lift_Ret _ sec0) by reflexivity.
  destruct (getitem (_splitted self) (sec0 - 1)) as [bl|e] eqn:Hbl.
  2:{ right. right. right. exists players, n, e.
      split; [left; eapply getitem_raises; exact Hbl|].
      rewrite (bind_lift_Raise _ e) by reflexivity. reflexivity. }
  rewrite (bind_lift_Ret _ bl) by reflexivity.
  destruct (re_match false _button_pattern bl) as [mb|] eqn:Hmb.
  2:{ right. right. right. exists players, n, AttributeError.
      split; [right; reflexivity|].
      rewrite (bind_lift_Raise _ AttributeError) by reflexivity. reflexivity. }
  destruct (button_match_shape _ _ Hmb) as (a & Ha & Hg).
  assert (Hint : res_bind (mgroup (Some mb) 1) int = Ret (digit_val a)).
  { simpl. unfold group. rewrite Hg, lookup_insert_eq. simpl. now apply int_digit. }
  pose proof (digit_val_range _ Ha) as Hr.
  destruct (getitem_nine players (digit_val a - 1) Hlen ltac:(lia)) as (bp & Hbp).
  left. exists players, n, (digit_val a), bp.
  split; [exact Hlen|]. split; [exact Hnn|].
  split; [apply Hsn; reflexivity|]. split; [exact Hr|]. split; [exact Hbp|].
  rewrite (bind_lift_Ret _ _ _ _ Hint), bind_setattr, (bind_lift_Ret _ _ _ _ Hbp).
  reflexivity.
Qed.

(** X12. A seat step that returns has stored a list of nine places, turned
    into the ordered mapping of at most nine names, with no negative
    stack; the number of players and the button seat are single digits,
    and the button is the name at the button seat's place in the list
    (the ninth for seat 0). *)
Theorem seated_hand_has_nine_places (self self' : FullTiltHand) :
  _parse_seats self = (Ret tt, self') ->
  exists players n b bp,
    length players = 9%nat /\ stacks_nonneg players /\
    (length (keys (OrderedDict players)) <= 9)%nat /\
    0 <= n <= 9 /\ 0 <= b <= 9 /\
    getitem players (b - 1) = Ret bp /\
    attrs self' !! "max_players"%string = Some (VInt n) /\
    attrs self' !! "players"%string = Some (VOrderedDict (OrderedDict players)) /\
    attrs self' !! "button_seat"%string = Some (VInt b) /\
    attrs self' !! "button"%string = Some (VStr bp.1).
Proof.
  intros H.
  destruct (parse_seats_cases self)
    as [(players & n & b & bp & Hlen & Hnn & Hn & Hb & Hbp & E)
       | [E | [[_ E] | (players & n & e & _ & E)]]];
    rewrite E in H; try discriminate.
  inversion H; subst self'. clear H.
  exists players, n, b, bp.
  split; [exact Hlen|]. split; [exact Hnn|].
  split; [unfold keys; rewrite length_fmap, <- Hlen; apply OrderedDict_length|].
  split; [exact Hn|]. split; [exact Hb|]. split; [exact Hbp|].
  rewrite !attrs_set_attr.
  split; [now rewrite !lookup_insert_ne by discriminate; apply lookup_insert_eq|].
  split; [now rewrite !lookup_insert_ne by discriminate; apply lookup_insert_eq|].
  split; [now rewrite !lookup_insert_ne by discriminate; apply lookup_insert_eq|].
  apply lookup_insert_eq.
Qed.

Lemma seated_hand_has_nine_places_witness :
  exists players n b bp,
    length players = 9%nat /\ stacks_nonneg players /\
    (length (keys (OrderedDict players)) <= 9)%nat /\
    0 <= n <= 9 /\ 0 <= b <= 9 /\
    getitem players (b - 1) = Ret bp /\
    attrs seated_ex !! "max_players"%string = Some (VInt n) /\
    attrs seated_ex !! "players"%string = Some (VOrderedDict (OrderedDict players)) /\
    attrs seated_ex !! "button_seat"%string = Some (VInt b) /\
    attrs seated_ex !! "button"%string = Some (VStr bp.1).
Proof.
  apply (seated_hand_has_nine_places (unparsed hand_full) seated_ex).
  vm_compute; reflexivity.
Defined.

(** X13. The seat step fails in four ways only.  A stack without a digit is
    a [ValueError] and a missing first seat line an [UnboundLocalError],
    both before anything is assigned; a missing section boundary or
    line before it is an [IndexError] and a line there that is not the
    button line an [AttributeError], both after the number of players
    and the seats have been assigned. *)
Theorem seat_step_fails_in_four_ways (self self' : FullTiltHand) (e : exn) :
  _parse_seats self = (Raise e, self') ->
  (e = ValueError /\ self' = self) \/
  (e = UnboundLocalError /\ self' = self /\
   block_ends (drop 1 (_splitted self))) \/
  ((e = IndexError \/ e = AttributeError) /\
   exists players n,
     self' = set_attr "players" (VOrderedDict (OrderedDict players))
               (set_attr "max_players" (VInt n) self)).
Proof.
  intros H.
  destruct (parse_seats_cases self)
    as [(players & n & b & bp & _ & _ & _ & _ & _ & E)
       | [E | [[Hb E] | (players & n & e' & He & E)]]];
    rewrite E in H; inversion H; subst.
  - left. split; reflexivity.
  - right. left. split; [reflexivity|]. split; [reflexivity | exact Hb].
  - right. right. split; [exact He|]. exists players, n. reflexivity.
Qed.

Lemma seat_step_fails_in_four_ways_witness :
  (_parse_seats (unparsed hand_no_seats)).1 = Raise UnboundLocalError /\
  ((UnboundLocalError = ValueError /\
    (_parse_seats (unparsed hand_no_seats)).2 = unparsed hand_no_seats) \/
   (UnboundLocalError = UnboundLocalError /\
    (_parse_seats (unparsed hand_no_seats)).2 = unparsed hand_no_seats /\
    block_ends (drop 1 (_splitted (unparsed hand_no_seats)))) \/
   ((UnboundLocalError = IndexError \/ UnboundLocalError = AttributeError) /\
    exists players n,
      (_parse_seats (unparsed hand_no_seats)).2
      = set_attr "players" (VOrderedDict (OrderedDict players))
          (set_attr "max_players" (VInt n) (unparsed hand_no_seats)))).
Proof.
  split; [vm_compute; reflexivity|].
  apply (seat_step_fails_in_four_ways (unparsed hand_no_seats)).
  vm_compute; reflexivity.
Defined.

(** X14. The line before the first section boundary has to be the button
    line.  When the seat block is read and that line is anything else,
    the seat step raises [AttributeError], and the hand keeps the number
    of players and the seats that were assigned before. *)
Theorem button_line_is_required (self : FullTiltHand)
    (players : list (string * Z)) (n sec0 : Z) (secs : list Z) (bl : string) :
  seat_loop (drop 1 (_splitted self)) empty_seats None = Ret (players, Some n) ->
  _sections self = sec0 :: secs ->
  getitem (_splitted self) (sec0 - 1) = Ret bl ->
  re_match false _button_pattern bl = None ->
  _parse_seats self
  = (Raise AttributeError,
     set_attr "players" (VOrderedDict (OrderedDict players))
       (set_attr "max_players" (VInt n) self)).
Proof.
  intros Hloop Hsec Hbl Hmb. unfold _parse_seats.
  rewrite bind_splitted, slice_from_1, (bind_lift_Ret _ _ _ _ Hloop).
  rewrite (bind_lift_Ret _ n) by reflexivity.
  rewrite !bind_setattr, bind_sections, !sections_set_attr, Hsec.
  rewrite (bind_lift_Ret _ sec0) by apply getitem_0.
  rewrite (bind_lift_Ret _ _ _ _ Hbl), Hmb.
  rewrite (bind_lift_Raise _ AttributeError) by reflexivity. reflexivity.
Qed.

Lemma button_line_is_required_witness :
  (_parse_seats (unparsed hand_no_button)).1 = Raise AttributeError.
Proof.
  rewrite (button_line_is_required (unparsed hand_no_button)
             (players_1_3_5 "Bob" 13587 "Alice" 1500 "Carol" 2000) 5 6 [12]
             "Alice posts the big blind of 20");
    [reflexivity | vm_compute; reflexivity ..].
Defined.

(** ** The hole cards *)

(** A hole-card line that matches: the name and two cards of two
    characters each. *)
Lemma hole_cards_match_shape line m :
  re_match false _hole_cards_pattern line = Some m ->
  exists hero a1 a2 b1 b2,
    groups m = <[3%nat := String b1 (String b2 "")]>
               (<[2%nat := String a1 (String a2 "")]> (<[1%nat := hero]> ∅)).
Proof.
  intros H. destruct (re_match_sound _ _ _ _ H) as (w & s' & Hs & _).
  unfold _hole_cards_pattern in Hs. simpl cats in Hs. rsem_all.
  exists w1, a2, a1, a0, a. reflexivity.
Qed.

Lemma bind_players_keys {B} (k : list string -> M B) self :
  bind players_keys k self
  = match attrs self !! "players"%string with
    | Some (VOrderedDict d) => k (keys d) self
    | _ => (Raise AttributeError, self)
    end.
Proof.
  unfold players_keys, bind, getattr.
  destruct (attrs self !! "players"%string) as [[]|]; reflexivity.
Qed.

Lemma index_cases {A} `{EqDecision A} (l : list A) x :
  (exists i, index l x = Ret i /\ 0 <= i /\ l !! Z.to_nat i = Some x /\
             forall j, (j < Z.to_nat i)%nat -> l !! j <> Some x) \/
  (index l x = Raise ValueError /\ x ∉ l).
Proof.
  unfold index. destruct (find_from x l 0) as [i|] eqn:E.
  - left. destruct (find_from_Some _ _ _ _ E) as (Hle & Hl & Hfirst).
    rewrite Z.sub_0_r in Hl, Hfirst. exists i. auto.
  - right. split; [reflexivity|]. now apply find_from_None in E.
Qed.

Lemma parse_hole_cards_cases self :
  (exists d hero i c1 c2,
     attrs self !! "players"%string = Some (VOrderedDict d) /\
     0 <= i /\ keys d !! Z.to_nat i = Some hero /\
     (forall j, (j < Z.to_nat i)%nat -> keys d !! j <> Some hero) /\
     String.length c1 = 2%nat /\ String.length c2 = 2%nat /\
     _parse_hole_cards self
     = (Ret tt,
        set_attr "hero_hole_cards" (VTuple [c1; c2])
          (set_attr "hero_seat" (VInt (i + 1))
             (set_attr "hero" (VStr hero) self)))) \/
  (exists e, (e = IndexError \/ e = AttributeError) /\
             _parse_hole_cards self = (Raise e, self)) \/
  (exists hero e,
     (e = AttributeError /\
      (forall d, attrs self !! "players"%string <> Some (VOrderedDict d)) \/
      e = ValueError /\
      exists d, attrs self !! "players"%string = Some (VOrderedDict d) /\
                hero ∉ keys d) /\
     _parse_hole_cards self = (Raise e, set_attr "hero" (VStr hero) self)).
Proof.
  unfold _parse_hole_cards. rewrite bind_splitted, bind_sections.
  destruct (getitem (_sections self) 0) as [sec0|e] eqn:Hs0.
  2:{ right. left. exists e. split; [left; eapply getitem_raises; exact Hs0|].
      rewrite (bind_lift_Raise _ e) by reflexivity. reflexivity. }
  rewrite (bind_lift_Ret _ sec0) by reflexivity.
  destruct (getitem (_splitted self) (sec0 + 2)) as [hl|e] eqn:Hhl.
  2:{ right. left. exists e. split; [left; eapply getitem_raises; exact Hhl|].
      rewrite (bind_lift_Raise _ e) by reflexivity. reflexivity. }
  rewrite (bind_lift_Ret _ hl) by reflexivity. cbv zeta.
  destruct (re_match false _hole_cards_pattern hl) as [m|] eqn:Hm.
  2:{ right. left. exists AttributeError. split; [right; reflexivity|].
      rewrite (bind_lift_Raise _ AttributeError) by reflexivity. reflexivity. }
  destruct (hole_cards_match_shape _ _ Hm) as (hero & a1 & a2 & b1 & b2 & Hg).
  destruct (groups3 _ _ _ _ Hg) as (G1 & G2 & G3).
  rewrite (bind_lift_Ret _ hero) by (simpl; now rewrite G1).
  rewrite bind_setattr, bind_players_keys, attrs_set_attr.
  rewrite lookup_insert_ne by discriminate.
  destruct (attrs self !! "players"%string) as [v|] eqn:Hp.
  2:{ right. right. exists hero, AttributeError.
      split; [left; split; [reflexivity | intros d; discriminate]|]. reflexivity. }
  destruct v as [|vb|vs|vz|vd|vt|vdt|d];
    try (right; right; exists hero, AttributeError;
         split; [left; split; [reflexivity | intros d'; discriminate] | reflexivity]).
  destruct (index_cases (keys d) hero) as [(i & Hi & Hi0 & Hl & Hfirst) | [Hi Hnot]].
  - left. exists d, hero, i, (String a1 (String a2 "")), (String b1 (String b2 "")).
    split; [reflexivity|]. split; [exact Hi0|]. split; [exact Hl|].
    split; [exact Hfirst|]. split; [reflexivity|]. split; [reflexivity|].
    rewrite (bind_lift_Ret _ _ _ _ Hi), bind_setattr.
    rewrite (bind_lift_Ret _ (String a1 (String a2 ""))) by (simpl; now rewrite G2).
    rewrite (bind_lift_Ret _ (String b1 (String b2 ""))) by (simpl; now rewrite G3).
    reflexivity.
  - right. right. exists hero, ValueError.
    split; [right; split; [reflexivity | exists d; split; [reflexivity | exact Hnot]]|].
    rewrite (bind_lift_Raise _ _ _ _ Hi). reflexivity.
Qed.

(** X15. A hole-card step that returns has found the hero's name among the
    names of the seat mapping; the hero's seat is the place of its first
    occurrence there, counted from one, so it lies between one and the
    number of names; and each hole card is a text of two characters. *)
Theorem hero_seat_is_a_place_among_the_names (self self' : FullTiltHand) :
  _parse_hole_cards self = (Ret tt, self') ->
  exists d hero seat c1 c2,
    attrs self !! "players"%string = Some (VOrderedDict d) /\
    attrs self' !! "hero"%string = Some (VStr hero) /\
    attrs self' !! "hero_seat"%string = Some (VInt seat) /\
    attrs self' !! "hero_hole_cards"%string = Some (VTuple [c1; c2]) /\
    1 <= seat <= Z.of_nat (length (keys d)) /\
    keys d !! Z.to_nat (seat - 1) = Some hero /\
    (forall j, (j < Z.to_nat (seat - 1))%nat -> keys d !! j <> Some hero) /\
    String.length c1 = 2%nat /\ String.length c2 = 2%nat.
Proof.
  intros H.
  destruct (parse_hole_cards_cases self)
    as [(d & hero & i & c1 & c2 & Hp & Hi0 & Hl & Hfirst & L1 & L2 & E)
       | [(e & _ & E) | (hero & e & _ & E)]];
    rewrite E in H; try discriminate.
  inversion H; subst self'. clear H.
  exists d, hero, (i + 1), c1, c2.
  replace (i + 1 - 1) with i by lia.
  pose proof (lookup_lt_Some _ _ _ Hl) as Hlt.
  rewrite !attrs_set_attr.
  split; [exact Hp|].
  split; [now rewrite !lookup_insert_ne by discriminate; apply lookup_insert_eq|].
  split; [now rewrite !lookup_insert_ne by discriminate; apply lookup_insert_eq|].
  split; [apply lookup_insert_eq|].
  split; [lia|]. auto.
Qed.

Lemma hero_seat_is_a_place_among_the_names_witness :
  exists d hero seat c1 c2,
    attrs seated_ex !! "players"%string = Some (VOrderedDict d) /\
    attrs (_parse_hole_cards seated_ex).2 !! "hero"%string = Some (VStr hero) /\
    attrs (_parse_hole_cards seated_ex).2 !! "hero_seat"%string = Some (VInt seat) /\
    attrs (_parse_hole_cards seated_ex).2 !! "hero_hole_cards"%string
      = Some (VTuple [c1; c2]) /\
    1 <= seat <= Z.of_nat (length (keys d)) /\
    keys d !! Z.to_nat (seat - 1) = Some hero /\
    (forall j, (j < Z.to_nat (seat - 1))%nat -> keys d !! j <> Some hero) /\
    String.length c1 = 2%nat /\ String.length c2 = 2%nat.
Proof.
  apply (hero_seat_is_a_place_among_the_names seated_ex).
  vm_compute; reflexivity.
Defined.

(** X16. A hero who has no seat is a [ValueError]: the name on the hole-card
    line is not among the names of the seat mapping, and the step stops
    after it has assigned the hero's name and nothing else. *)
Theorem hero_must_be_seated (self : FullTiltHand) (sec0 : Z) (secs : list Z)
    (line : string) (m : Match) (d : list (string * Z)) :
  _sections self = sec0 :: secs ->
  getitem (_splitted self) (sec0 + 2) = Ret line ->
  re_match false _hole_cards_pattern line = Some m ->
  attrs self !! "players"%string = Some (VOrderedDict d) ->
  grp m 1 ∉ keys d ->
  _parse_hole_cards self
  = (Raise ValueError, set_attr "hero" (VStr (grp m 1)) self).
Proof.
  intros Hsec Hl Hm Hp Hnot. unfold _parse_hole_cards.
  rewrite bind_splitted, bind_sections, Hsec.
  rewrite (bind_lift_Ret _ sec0) by apply getitem_0.
  rewrite (bind_lift_Ret _ _ _ _ Hl), Hm. cbv zeta.
  rewrite (bind_lift_Ret _ (grp m 1)) by reflexivity.
  rewrite bind_setattr, bind_players_keys, attrs_set_attr.
  rewrite lookup_insert_ne by discriminate. rewrite Hp.
  rewrite (bind_lift_Raise _ ValueError) by now apply index_absent.
  reflexivity.
Qed.

Lemma hero_must_be_seated_witness :
  (_parse_hole_cards (_parse_seats (unparsed hand_unknown_hero)).2).1
  = Raise ValueError.
Proof.
  rewrite (hero_must_be_seated (_parse_seats (unparsed hand_unknown_hero)).2
             7 [13] "Dealt to Zed [Ah Kd]"
             (default (mkMatch ∅ 0)
                (re_match false _hole_cards_pattern "Dealt to Zed [Ah Kd]"))
             (players_1_3_5 "Bob" 13587 "Alice" 1500 "Carol" 2000)).
  - reflexivity.
  - vm_compute; reflexivity.
  - vm_compute; reflexivity.
  - vm_compute; reflexivity.
  - vm_compute; reflexivity.
  - by_decide.
Defined.

(** X17. The hole-card step fails in three ways only: [IndexError] when there
    is no section boundary or no fragment two places after it and
    [AttributeError] when that fragment is not a hole-card line, both
    before anything is assigned; and, after the hero's name has been
    assigned, [ValueError] when the name has no seat, or
    [AttributeError] when the seats were never stored. *)
Theorem hole_card_step_fails_in_three_ways (self self' : FullTiltHand) (e : exn) :
  _parse_hole_cards self = (Raise e, self') ->
  ((e = IndexError \/ e = AttributeError) /\ self' = self) \/
  exists hero,
    self' = set_attr "hero" (VStr hero) self /\
    (e = AttributeError /\
     (forall d, attrs self !! "players"%string <> Some (VOrderedDict d)) \/
     e = ValueError /\
     exists d, attrs self !! "players"%string = Some (VOrderedDict d) /\
               hero ∉ keys d).
Proof.
  intros H.
  destruct (parse_hole_cards_cases self)
    as [(d & hero & i & c1 & c2 & _ & _ & _ & _ & _ & _ & E)
       | [(e' & He & E) | (hero & e' & He & E)]];
    rewrite E in H; inversion H; subst.
  - left. split; [exact He | reflexivity].
  - right. exists hero. split; [reflexivity | exact He].
Qed.

Lemma hole_card_step_fails_in_three_ways_witness :
  (_parse_hole_cards (unparsed hand_full)).1 = Raise AttributeError /\
  (((AttributeError = IndexError \/ AttributeError = AttributeError) /\
    (_parse_hole_cards (unparsed hand_full)).2 = unparsed hand_full) \/
   exists hero,
     (_parse_hole_cards (unparsed hand_full)).2
     = set_attr "hero" (VStr hero) (unparsed hand_full) /\
     (AttributeError = AttributeError /\
      (forall d, attrs (unparsed hand_full) !! "players"%string
                 <> Some (VOrderedDict d)) \/
      AttributeError = ValueError /\
      exists d, attrs (unparsed hand_full) !! "players"%string
                = Some (VOrderedDict d) /\ hero ∉ keys d)).
Proof.
  split; [vm_compute; reflexivity|].
  apply (hole_card_step_fails_in_three_ways (unparsed hand_full)).
  vm_compute; reflexivity.
Defined.

(** ** Slices between section boundaries *)

Lemma slice_elem {A} (l : list A) a b x :
  0 <= a -> 0 <= b -> x ∈ slice l a b ->
  exists j : nat, a <= Z.of_nat j < b /\ l !! j = Some x.
Proof.
  intros Ha Hb. unfold slice, clip.
  destruct (Z.ltb_spec a 0); [lia|]. destruct (Z.ltb_spec b 0); [lia|].
  intros Hin. apply list_elem_of_lookup in Hin as (i & Hi).
  apply lookup_take_Some in Hi as [Hd Hlt]. rewrite lookup_drop in Hd.
  pose proof (lookup_lt_Some _ _ _ Hd) as Hlen.
  eexists. split; [|exact Hd]. lia.
Qed.

(** Between the first two empty fragments, no fragment is empty. *)
Lemma between_boundaries (l : list string) sec0 sec1 secs (j : nat) :
  empty_positions l 0 = sec0 :: sec1 :: secs ->
  sec0 < Z.of_nat j < sec1 -> l !! j <> Some ""%string.
Proof.
  intros Hsec Hj Hl.
  assert (Hin : Z.of_nat j ∈ empty_positions l 0).
  { apply empty_positions_spec. split; [lia|].
    now rewrite Z.sub_0_r, Nat2Z.id. }
  apply list_elem_of_lookup in Hin as (k & Hk).
  destruct k as [|[|k]].
  - rewrite Hsec in Hk. simpl in Hk. inversion Hk. lia.
  - rewrite Hsec in Hk. simpl in Hk. inversion Hk. lia.
  - assert (H1 : empty_positions l 0 !! 1%nat = Some sec1) by now rewrite Hsec.
    pose proof (empty_positions_ascending l 0 1 (S (S k)) _ _ ltac:(lia) H1 Hk). lia.
Qed.

(** ** The preflop step *)

(** X18. On an object whose boundaries are the empty fragments, the preflop
    step needs two of them, and fails with [IndexError] before
    assigning anything when there are fewer.  With two it returns: the
    preflop actions are a tuple, possibly empty and never [None], of
    fragments of the text that are not empty. *)
Theorem preflop_actions_are_lines (self : FullTiltHand) :
  wf self ->
  ((length (_sections self) < 2)%nat ->
   _parse_preflop self = (Raise IndexError, self)) /\
  ((2 <= length (_sections self))%nat ->
   exists acts,
     _parse_preflop self
     = (Ret tt, set_attr "preflop_actions" (VTuple acts) self) /\
     forall a, a ∈ acts -> a <> ""%string /\ a ∈ _splitted self).
Proof.
  intros Hwf. unfold wf in Hwf. unfold _parse_preflop.
  rewrite bind_splitted, bind_sections.
  destruct (_sections self) as [|sec0 [|sec1 secs]] eqn:Hsec.
  - split; [intros _; reflexivity | simpl; lia].
  - split; [intros _; reflexivity | simpl; lia].
  - split; [simpl; lia|]. intros _.
    exists (slice (_splitted self) (sec0 + 3) sec1).
    split; [reflexivity|].
    assert (H0 : 0 <= sec0).
    { assert (Hin : sec0 ∈ empty_positions (_splitted self) 0)
        by (rewrite <- Hwf; left).
      apply empty_positions_spec in Hin. lia. }
    assert (H1 : 0 <= sec1).
    { assert (Hin : sec1 ∈ empty_positions (_splitted self) 0)
        by (rewrite <- Hwf; right; left).
      apply empty_positions_spec in Hin. lia. }
    intros a Hin.
    apply slice_elem in Hin as (j & Hj & Hl); [| lia | lia].
    split.
    + intros ->.
      apply (between_boundaries (_splitted self) sec0 sec1 secs j);
        [now rewrite <- Hwf | lia | exact Hl].
    + apply list_elem_of_lookup. eauto.
Qed.

Lemma preflop_actions_are_lines_witness :
  _parse_preflop (unparsed hand_unfinished)
  = (Raise IndexError, unparsed hand_unfinished) /\
  exists acts,
    _parse_preflop (unparsed hand_full)
    = (Ret tt, set_attr "preflop_actions" (VTuple acts) (unparsed hand_full)) /\
    forall a, a ∈ acts -> a <> ""%string /\ a ∈ _splitted (unparsed hand_full).
Proof.
  split.
  - apply (preflop_actions_are_lines (unparsed hand_unfinished));
      [vm_compute; reflexivity | vm_compute; lia].
  - apply (preflop_actions_are_lines (unparsed hand_full));
      [vm_compute; reflexivity | vm_compute; lia].
Defined.

(** ** The street step, case by case *)

Lemma index_from_raises {A} `{EqDecision A} (l : list A) x s e :
  index_from l x s = Raise e -> e = ValueError.
Proof.
  unfold index_from. destruct (find_from _ _ _); simpl; congruence.
Qed.

(** [l.index(x, s)] is not negative, and [x] does not occur in
    [l[s:stop]] before it. *)
Lemma index_from_slice {A} `{EqDecision A} (l : list A) x s stop :
  0 <= s -> index_from l x s = Ret stop ->
  0 <= stop /\ forall y, y ∈ slice l s stop -> y <> x.
Proof.
  intros Hs H. unfold index_from in H.
  destruct (find_from x _ _) as [k|] eqn:E; [|discriminate].
  simpl in H. inversion H; subst k. clear H.
  destruct (find_from_Some _ _ _ _ E) as (Hle & _ & Hfirst).
  assert (Hc : 0 <= clip (Z.of_nat (length l)) s) by (unfold clip; lia).
  split; [lia|]. intros y Hin ->.
  apply slice_elem in Hin as (j & Hj & Hl); [| lia | lia].
  pose proof (lookup_lt_Some _ _ _ Hl) as Hlen.
  assert (Hcs : clip (Z.of_nat (length l)) s = s).
  { unfold clip. destruct (Z.ltb_spec s 0); lia. }
  rewrite Hcs in *.
  apply (Hfirst (j - Z.to_nat s)%nat); [lia|].
  rewrite lookup_drop. replace (Z.to_nat s + (j - Z.to_nat s))%nat with j by lia.
  exact Hl.
Qed.

Lemma str_rev_nonempty a s : str_rev (String a s) <> ""%string.
Proof.
  intros H. pose proof (has_char_rev a (String a s)) as Hc.
  rewrite H in Hc. simpl in Hc. rewrite Ascii.eqb_refl in Hc. discriminate.
Qed.

(** The tokens of [str.split()] are not empty and hold no whitespace. *)
Lemma split_ws_aux_tokens s : forall cur c,
  (forall ch, has_char ch cur = true -> is_space ch = false) ->
  c ∈ split_ws_aux s cur ->
  c <> ""%string /\ forall ch, has_char ch c = true -> is_space ch = false.
Proof.
  induction s as [|a s IH]; intros cur c Hcur Hin; simpl in Hin.
  - destruct cur as [|b cur]; [apply elem_of_nil in Hin; contradiction|].
    apply list_elem_of_singleton in Hin. subst c.
    split; [apply str_rev_nonempty|].
    intros ch Hch. rewrite has_char_rev in Hch. now apply Hcur.
  - destruct (is_space a) eqn:Ea.
    + destruct cur as [|b cur].
      * apply (IH ""%string); [intros ch Hch; discriminate | exact Hin].
      * apply elem_of_cons in Hin as [->|Hin].
        -- split; [apply str_rev_nonempty|].
           intros ch Hch. rewrite has_char_rev in Hch. now apply Hcur.
        -- apply (IH ""%string); [intros ch Hch; discriminate | exact Hin].
    + apply (IH (String a cur)); [|exact Hin].
      intros ch Hch. simpl in Hch. apply orb_true_iff in Hch as [Hch|Hch].
      * apply Ascii.eqb_eq in Hch. now subst.
      * now apply Hcur.
Qed.

Lemma split_ws_tokens s c :
  c ∈ split_ws s ->
  c <> ""%string /\ forall ch, has_char ch c = true -> is_space ch = false.
Proof.
  apply split_ws_aux_tokens. intros ch Hch. discriminate.
Qed.

(** A board line whose pot has no digit: the cards are stored, then
    [Decimal] refuses the empty text. *)
Lemma parse_boardline_empty_pot start st self line m :
  getitem (_splitted self) start = Ret line ->
  re_match false _street_pattern line = Some m ->
  group m 2 = Some ""%string ->
  _parse_boardline start (street_name st) self
  = (Raise InvalidOperation,
     set_attr (street_name st) (VTuple (split_ws (grp m 1))) self).
Proof.
  intros Hl Hm Hpot. unfold _parse_boardline.
  rewrite bind_splitted, (bind_lift_Ret _ _ _ _ Hl), Hm. cbv zeta.
  rewrite (bind_lift_Ret _ (grp m 1)) by reflexivity.
  rewrite bind_setattr.
  rewrite (bind_lift_Raise _ InvalidOperation)
    by (simpl; rewrite Hpot; reflexivity).
  reflexivity.
Qed.

(** An error of the board line other than [ValueError] passes through
    the [except] clause. *)
Lemma parse_street_board_error st self i e self' :
  index (_splitted self) (marker st) = Ret i ->
  _parse_boardline (i + 1) (street_name st) self = (Raise e, self') ->
  e <> ValueError ->
  _parse_street (street_name st) self = (Raise e, self').
Proof.
  intros Hi Hb He.
  unfold _parse_street, try_except.
  unfold bind at 1. unfold splitted at 1. unfold bind at 1, lift at 1.
  rewrite marker_upper, Hi. unfold bind at 1. rewrite Hb.
  rewrite decide_False by exact He. reflexivity.
Qed.

Lemma parse_street_no_board_line st self i :
  index (_splitted self) (marker st) = Ret i ->
  getitem (_splitted self) (i + 1) = Raise IndexError ->
  _parse_street (street_name st) self = (Raise IndexError, self).
Proof.
  intros Hi Hl.
  unfold _parse_street, try_except.
  unfold bind at 1. unfold splitted at 1. unfold bind at 1, lift at 1.
  rewrite marker_upper, Hi. unfold bind at 1.
  unfold _parse_boardline.
  rewrite bind_splitted, (bind_lift_Raise _ _ _ _ Hl).
  rewrite decide_False by discriminate. reflexivity.
Qed.

Lemma index_Ret_cases {A} `{EqDecision A} (l : list A) x :
  x ∉ l \/ exists i, index l x = Ret i /\ 0 <= i /\ l !! Z.to_nat i = Some x.
Proof.
  destruct (index_cases l x) as [(i & Hi & H0 & Hl & _) | [_ Hn]]; eauto.
Qed.

Lemma parse_street_cases st self :
  _parse_street (street_name st) self = (Raise IndexError, self) \/
  _parse_street (street_name st) self = (Raise AttributeError, self) \/
  (exists cards,
     _parse_street (street_name st) self
     = (Raise InvalidOperation, set_attr (street_name st) (VTuple cards) self)) \/
  (exists self',
     _parse_street (street_name st) self = (Ret tt, self') /\
     street_absent self' st) \/
  (exists cards pot a acts,
     all_digits pot = true /\ is_digit a = true /\
     (forall x, x ∈ acts -> x <> ""%string /\ x ∈ _splitted self) /\
     _parse_street (street_name st) self =
       (Ret tt,
        set_actions st (actions_value acts)
          (set_board st (split_ws cards) (DFinite false (digits_val pot) 0)
             (digit_val a) self))).
Proof.
  destruct (index_Ret_cases (_splitted self) (marker st)) as [Hno | (i & Hi & Hi0 & _)].
  { right. right. right. left. exists (set_absent st self).
    split; [now apply parse_street_absent | apply set_absent_absent]. }
  destruct (getitem (_splitted self) (i + 1)) as [line|e] eqn:Hl.
  2:{ left. pose proof (getitem_raises _ _ _ Hl) as ->.
      now apply (parse_street_no_board_line st self i). }
  destruct (re_match false _street_pattern line) as [m|] eqn:Hm.
  2:{ right. left. now apply (parse_street_malformed st self i line). }
  destruct (decide (group m 2 = Some ""%string)) as [Hpot|Hpot].
  { right. right. left. eexists.
    apply (parse_street_board_error st self i _ _ Hi); [|discriminate].
    exact (parse_boardline_empty_pot _ st self line m Hl Hm Hpot). }
  destruct (index_from (_splitted self) ""%string (i + 1 + 1)) as [stop|e] eqn:Hstop.
  - right. right. right. right.
    destruct (parse_street_found st self i line m stop Hi Hl Hm Hpot Hstop)
      as (cards & pot & a & _ & Hd & Ha & E).
    exists cards, pot, a, (slice (_splitted self) (i + 1 + 1) stop).
    split; [exact Hd|]. split; [exact Ha|]. split; [|exact E].
    destruct (index_from_slice (_splitted self) ""%string (i + 1 + 1) stop
                ltac:(lia) Hstop) as [Hs0 Hne].
    intros x Hx. split; [now apply Hne|].
    apply slice_elem in Hx as (j & _ & Hj); [| lia | lia].
    apply list_elem_of_lookup. eauto.
  - right. right. right. left.
    pose proof (index_from_raises _ _ _ _ Hstop) as ->.
    exact (parse_street_unterminated st self i line m Hi Hl Hm Hpot Hstop).
Qed.

Ltac street_lookup :=
  simpl;
  repeat first [ apply lookup_insert_eq
               | rewrite lookup_insert_ne by discriminate ].

(** X19. A street step that returns leaves the street either absent, its
    four attributes [None], or complete: the cards are tokens without
    whitespace, the pot is a whole number that is not negative, kept as
    an exact decimal, the number of players is a single digit, and the
    actions are [None] or fragments of the text that are not empty. *)
Theorem street_is_absent_or_complete (st : street) (self self' : FullTiltHand) :
  _parse_street (street_name st) self = (Ret tt, self') ->
  street_absent self' st \/
  exists cards pot n acts,
    attrs self' !! street_name st = Some (VTuple cards) /\
    attrs self' !! (street_name st ++ "_pot")%string
      = Some (VDecimal (DFinite false pot 0)) /\
    attrs self' !! (street_name st ++ "_num_players")%string = Some (VInt n) /\
    attrs self' !! (street_name st ++ "_actions")%string
      = Some (actions_value acts) /\
    0 <= pot /\ 0 <= n <= 9 /\
    (forall c, c ∈ cards ->
       c <> ""%string /\ forall ch, has_char ch c = true -> is_space ch = false) /\
    (forall a, a ∈ acts -> a <> ""%string /\ a ∈ _splitted self).
Proof.
  intros H.
  destruct (parse_street_cases st self)
    as [E | [E | [(cards & E) | [(s1 & E & Habs)
       | (cards & pot & a & acts & Hd & Ha & Hacts & E)]]]];
    rewrite E in H; try discriminate; inversion H; subst self'; clear H.
  - left. exact Habs.
  - right. exists (split_ws cards), (digits_val pot), (digit_val a), acts.
    split; [destruct st; street_lookup|].
    split; [destruct st; street_lookup|].
    split; [destruct st; street_lookup|].
    split; [destruct st; street_lookup|].
    split; [apply digits_val_nonneg|].
    split; [now apply digit_val_range|].
    split; [intros c Hc; now apply split_ws_tokens with (s := cards) | exact Hacts].
Qed.

Lemma street_is_absent_or_complete_witness :
  street_absent (_parse_street "flop" (unparsed hand_full)).2 Flop \/
  exists cards pot n acts,
    attrs (_parse_street "flop" (unparsed hand_full)).2 !! "flop"%string
      = Some (VTuple cards) /\
    attrs (_parse_street "flop" (unparsed hand_full)).2 !! "flop_pot"%string
      = Some (VDecimal (DFinite false pot 0)) /\
    attrs (_parse_street "flop" (unparsed hand_full)).2 !! "flop_num_players"%string
      = Some (VInt n) /\
    attrs (_parse_street "flop" (unparsed hand_full)).2 !! "flop_actions"%string
      = Some (actions_value acts) /\
    0 <= pot /\ 0 <= n <= 9 /\
    (forall c, c ∈ cards ->
       c <> ""%string /\ forall ch, has_char ch c = true -> is_space ch = false) /\
    (forall a, a ∈ acts -> a <> ""%string /\ a ∈ _splitted (unparsed hand_full)).
Proof.
  apply (street_is_absent_or_complete Flop (unparsed hand_full)).
  vm_compute; reflexivity.
Defined.

(** X20. The street step never lets a [ValueError] out, and it fails in
    three ways only: [IndexError] when the marker is the last fragment
    and [AttributeError] when the fragment after it is not a board line,
    both with nothing assigned; [InvalidOperation] when the pot of the
    board line has no digit, after the cards have been assigned. *)
Theorem street_step_fails_in_three_ways (st : street)
    (self self' : FullTiltHand) (e : exn) :
  _parse_street (street_name st) self = (Raise e, self') ->
  ((e = IndexError \/ e = AttributeError) /\ self' = self) \/
  (e = InvalidOperation /\
   exists cards, self' = set_attr (street_name st) (VTuple cards) self).
Proof.
  intros H.
  destruct (parse_street_cases st self)
    as [E | [E | [(cards & E) | [(s1 & E & Habs)
       | (cards & pot & a & acts & Hd & Ha & Hacts & E)]]]];
    rewrite E in H; try discriminate; inversion H; subst.
  - left. split; [left; reflexivity | reflexivity].
  - left. split; [right; reflexivity | reflexivity].
  - right. split; [reflexivity|]. exists cards. reflexivity.
Qed.

Lemma street_step_fails_in_three_ways_witness :
  (_parse_street "flop" (unparsed hand_bad_flop)).1 = Raise AttributeError /\
  (((AttributeError = IndexError \/ AttributeError = AttributeError) /\
    (_parse_street "flop" (unparsed hand_bad_flop)).2 = unparsed hand_bad_flop) \/
   (AttributeError = InvalidOperation /\
    exists cards,
      (_parse_street "flop" (unparsed hand_bad_flop)).2
      = set_attr "flop" (VTuple cards) (unparsed hand_bad_flop))).
Proof.
  split; [vm_compute; reflexivity|].
  apply (street_step_fails_in_three_ways Flop (unparsed hand_bad_flop)).
  vm_compute; reflexivity.
Defined.

(** X21. A pot without a digit is an [InvalidOperation]: the board line
    matches, because the pattern lets the pot be empty, the cards are
    assigned, and then [Decimal] refuses the empty text. *)
Theorem pot_must_have_a_digit (st : street) (self : FullTiltHand) (i : Z)
    (line : string) (m : Match) :
  index (_splitted self) (marker st) = Ret i ->
  getitem (_splitted self) (i + 1) = Ret line ->
  re_match false _street_pattern line = Some m ->
  group m 2 = Some ""%string ->
  _parse_street (street_name st) self
  = (Raise InvalidOperation,
     set_attr (street_name st) (VTuple (split_ws (grp m 1))) self).
Proof.
  intros Hi Hl Hm Hpot.
  apply (parse_street_board_error st self i _ _ Hi); [|discriminate].
  unfold _parse_boardline.
  rewrite bind_splitted, (bind_lift_Ret _ _ _ _ Hl), Hm. cbv zeta.
  rewrite (bind_lift_Ret _ (grp m 1)) by reflexivity.
  rewrite bind_setattr.
  rewrite (bind_lift_Raise _ InvalidOperation)
    by (simpl; rewrite Hpot; apply Decimal_of_empty).
  reflexivity.
Qed.

Lemma pot_must_have_a_digit_witness :
  (_parse_street "flop" (unparsed hand_empty_pot)).1 = Raise InvalidOperation.
Proof.
  change ((_parse_street (street_name Flop) (unparsed hand_empty_pot)).1
          = Raise InvalidOperation).
  rewrite (pot_must_have_a_digit Flop (unparsed hand_empty_pot) 14
             "[8h 4h Tc] (Total Pot: , 2 Players)"
             (default (mkMatch ∅ 0)
                (re_match false _street_pattern "[8h 4h Tc] (Total Pot: , 2 Players)")));
    [reflexivity | vm_compute; reflexivity ..].
Defined.

(** X22. A street marker that is the last fragment is an [IndexError]: there
    is no board line to read, and the object is left as it was. *)
Theorem marker_needs_a_board_line (st : street) (self : FullTiltHand) (i : Z) :
  index (_splitted self) (marker st) = Ret i ->
  Z.of_nat (length (_splitted self)) = i + 1 ->
  _parse_street (street_name st) self = (Raise IndexError, self).
Proof.
  intros Hi Hlen. apply (parse_street_no_board_line st self i Hi).
  destruct (index_cases (_splitted self) (marker st))
    as [(i' & Hi' & H0 & _) | [Hi' _]]; [|congruence].
  assert (i' = i) by congruence. subst i'.
  unfold getitem. destruct (Z.ltb_spec (i + 1) 0); [lia|].
  destruct (Z.ltb_spec (i + 1) 0); [lia|].
  rewrite lookup_ge_None_2 by lia. reflexivity.
Qed.

Lemma marker_needs_a_board_line_witness :
  _parse_street "flop" (unparsed hand_marker_last)
  = (Raise IndexError, unparsed hand_marker_last).
Proof.
  apply (marker_needs_a_board_line Flop (unparsed hand_marker_last) 14);
    vm_compute; reflexivity.
Defined.

(** ** The steps together *)

Section Steps.
Variable GAMES : gmap string string.
Variable ET : tzinfo.
Variable host : LocaleTime.

(** A step that returns keeps every attribute that was set and sets its
    own. *)
Lemma step_grows ks (m : M unit) :
  frames ks m ->
  (forall self self', m self = (Ret tt, self') ->
     forall k, k ∈ ks -> is_Some (attrs self' !! k)) ->
  forall self self', m self = (Ret tt, self') ->
    forall k, k ∈ ks \/ is_Some (attrs self !! k) -> is_Some (attrs self' !! k).
Proof.
  intros Hf Hs self self' H k Hk.
  destruct (decide (k ∈ ks)) as [Hin|Hout]; [exact (Hs _ _ H k Hin)|].
  destruct (Hf _ _ _ H) as (_ & _ & _ & K). rewrite (K k Hout).
  destruct Hk; [contradiction | assumption].
Qed.

Lemma header_sets self self' :
  parse_header GAMES ET host self = (Ret tt, self') ->
  forall k, k ∈ header_attrs -> is_Some (attrs self' !! k).
Proof.
  intros Hp k Hin.
  destruct (parse_header_inv _ _ _ _ _ Hp)
    as (line & m & sb & bb & naive & utc & game & _ & _ & _ & _ & _ & _ & _ & ->).
  unfold header_attrs in Hin. names_in Hin; eexists; header_lookup.
Qed.

Lemma seats_sets self self' :
  _parse_seats self = (Ret tt, self') ->
  forall k, k ∈ seats_attrs -> is_Some (attrs self' !! k).
Proof.
  intros H k Hin.
  destruct (parse_seats_cases self)
    as [(players & n & b & bp & _ & _ & _ & _ & _ & E)
       | [E | [[_ E] | (players & n & e & _ & E)]]];
    rewrite E in H; try discriminate.
  inversion H; subst self'.
  unfold seats_attrs in Hin. names_in Hin; eexists; rewrite !attrs_set_attr;
    repeat first [ apply lookup_insert_eq | rewrite lookup_insert_ne by discriminate ].
Qed.

Lemma hole_cards_sets self self' :
  _parse_hole_cards self = (Ret tt, self') ->
  forall k, k ∈ hole_cards_attrs -> is_Some (attrs self' !! k).
Proof.
  intros H k Hin.
  destruct (parse_hole_cards_cases self)
    as [(d & hero & i & c1 & c2 & _ & _ & _ & _ & _ & _ & E)
       | [(e & _ & E) | (hero & e & _ & E)]];
    rewrite E in H; try discriminate.
  inversion H; subst self'.
  unfold hole_cards_attrs in Hin. names_in Hin; eexists; rewrite !attrs_set_attr;
    repeat first [ apply lookup_insert_eq | rewrite lookup_insert_ne by discriminate ].
Qed.

Lemma preflop_sets self self' :
  _parse_preflop self = (Ret tt, self') ->
  forall k, k ∈ ["preflop_actions"%string] -> is_Some (attrs self' !! k).
Proof.
  intros H k Hin. names_in Hin.
  unfold _parse_preflop in H. rewrite bind_splitted, bind_sections in H.
  destruct (getitem (_sections self) 0) as [sec0|e] eqn:E0;
    [|rewrite (bind_lift_Raise _ e) in H by reflexivity; discriminate].
  rewrite (bind_lift_Ret _ sec0) in H by reflexivity. cbv zeta in H.
  destruct (getitem (_sections self) 1) as [sec1|e] eqn:E1;
    [|rewrite (bind_lift_Raise _ e) in H by reflexivity; discriminate].
  rewrite (bind_lift_Ret _ sec1) in H by reflexivity.
  inversion H. eexists. apply lookup_insert_eq.
Qed.

Lemma street_sets st self self' :
  _parse_street (street_name st) self = (Ret tt, self') ->
  forall k, k ∈ attr_names (street_name st) -> is_Some (attrs self' !! k).
Proof.
  intros H k Hin.
  destruct (parse_street_cases st self)
    as [E | [E | [(cards & E) | [(s1 & E & Habs)
       | (cards & pot & a & acts & _ & _ & _ & E)]]]];
    rewrite E in H; try discriminate; inversion H; subst self'; clear H.
  - exists VNone. apply Habs. exact Hin.
  - unfold attr_names in Hin.
    destruct st; simpl in Hin; names_in Hin; eexists; simpl;
      repeat first [ apply lookup_insert_eq | rewrite lookup_insert_ne by discriminate ].
Qed.

End Steps.

(** X23. No step of the parser touches the text, its fragments or the
    section boundaries, and each assigns no attribute but its own,
    whether it returns or raises: the header step its fifteen, the seat
    step its four, the hole-card step its three, the preflop step its
    one and a street step the four of its street. *)
Theorem steps_keep_the_text GAMES ET host (st : street) :
  frames header_attrs (parse_header GAMES ET host) /\
  frames seats_attrs _parse_seats /\
  frames hole_cards_attrs _parse_hole_cards /\
  frames ["preflop_actions"%string] _parse_preflop /\
  frames (street_attrs st) (_parse_street (street_name st)).
Proof.
  split; [apply frames_parse_header|].
  split; [apply frames_parse_seats|].
  split; [apply frames_parse_hole_cards|].
  split; [apply frames_parse_preflop|].
  apply (frames_parse_street (street_name st)).
Qed.

(** X24. A step that returns has set every attribute of its own, and has
    unset none that was set before: the header step, the seat step, the
    hole-card step, the preflop step and a street step, which sets the
    four attributes of its street to [None] when the street is not
    reached. *)
Theorem a_step_that_returns_sets_its_attributes GAMES ET host (st : street)
    (self self' : FullTiltHand) (k : string) :
  parse_header GAMES ET host self = (Ret tt, self') /\ k ∈ header_attrs \/
  _parse_seats self = (Ret tt, self') /\ k ∈ seats_attrs \/
  _parse_hole_cards self = (Ret tt, self') /\ k ∈ hole_cards_attrs \/
  _parse_preflop self = (Ret tt, self') /\ k = "preflop_actions"%string \/
  _parse_street (street_name st) self = (Ret tt, self') /\ k ∈ street_attrs st ->
  is_Some (attrs self' !! k) /\
  forall k', is_Some (attrs self !! k') -> is_Some (attrs self' !! k').
Proof.
  intros [[H Hk] | [[H Hk] | [[H Hk] | [[H Hk] | [H Hk]]]]].
  - pose proof (step_grows _ _ (frames_parse_header GAMES ET host)
                  (header_sets GAMES ET host) _ _ H) as G.
    split; [apply G; left; exact Hk | intros k' Hk'; apply G; right; exact Hk'].
  - pose proof (step_grows _ _ frames_parse_seats seats_sets _ _ H) as G.
    split; [apply G; left; exact Hk | intros k' Hk'; apply G; right; exact Hk'].
  - pose proof (step_grows _ _ frames_parse_hole_cards hole_cards_sets _ _ H) as G.
    split; [apply G; left; exact Hk | intros k' Hk'; apply G; right; exact Hk'].
  - pose proof (step_grows _ _ frames_parse_preflop preflop_sets _ _ H) as G.
    split; [apply G; left; subst k; left | intros k' Hk'; apply G; right; exact Hk'].
  - pose proof (step_grows _ _ (frames_parse_street (street_name st))
                  (street_sets st) _ _ H) as G.
    split; [apply G; left; exact Hk | intros k' Hk'; apply G; right; exact Hk'].
Qed.

Lemma a_step_that_returns_sets_its_attributes_witness :
  attrs (_parse_street "flop" (unparsed hand_preflop_only)).2 !! "flop_pot"%string
    = Some VNone /\
  is_Some (attrs (_parse_street "flop" (unparsed hand_preflop_only)).2
             !! "flop_pot"%string).
Proof.
  split; [vm_compute; reflexivity|].
  refine (proj1 (a_step_that_returns_sets_its_attributes games_ex eastern_ex
                   host_ex Flop (unparsed hand_preflop_only)
                   (_parse_street "flop" (unparsed hand_preflop_only)).2
                   "flop_pot" _)).
  right. right. right. right. split; [vm_compute; reflexivity | by_decide].
Defined.
